(** * discord/state.py: the connection state of the gateway client

    A shallow embedding of [ConnectionState] (src/discord/state.py): the
    entity cache, the bounded message buffer, the listener registry, the
    readiness coroutine and the reconciliation handlers, with the Python
    heap objects the handlers share (guilds, futures, events) kept in an
    explicit store, and exceptions threaded through a state-and-error
    monad. *)

From Stdlib Require Import ZArith List String Ascii Bool Lia.
From stdpp Require Import base option list gmap strings numbers.

Local Open Scope Z_scope.

(** ** Python values and exceptions *)

(** The decoded JSON values the handlers read from an event record: null,
    a number, a string.  Identifiers arrive in either of the last two
    forms, which is why the source wraps most of them in [int(...)]. *)
Inductive PyVal : Type :=
| PyNone
| PyInt (z : Z)
| PyStr (s : string).

Inductive Exn : Type :=
| AttributeError
| KeyError
| ValueError
| TypeError
| IndexError
| InvalidStateError
| DanglingRef. (* not a Python exception: a reference the store does not hold *)

Inductive Result (A : Type) : Type :=
| Ok (a : A)
| Raise (e : Exn).
Arguments Ok {A} a.
Arguments Raise {A} e.

(** [bool(v)] *)
Definition py_truthy (v : PyVal) : bool :=
  match v with
  | PyNone => false
  | PyInt z => negb (z =? 0)
  | PyStr s => negb (String.eqb s EmptyString)
  end.

(** [i == v] for an [int] i: a string never equals a number. *)
Definition py_eq_int (i : Z) (v : PyVal) : bool :=
  match v with
  | PyInt z => i =? z
  | _ => false
  end.

(** [d.get(k)] on a dict whose keys are ints. *)
Definition py_dict_get {V : Type} (d : gmap Z V) (k : PyVal) : option V :=
  match k with
  | PyInt z => d !! z
  | _ => None
  end.

(** *** [int(s)] on strings: surrounding whitespace, a sign, decimal digits

    ASCII only; the underscores that later versions of Python accept
    between digits are not read. *)

Definition is_space (c : ascii) : bool :=
  let n := nat_of_ascii c in
  ((9 <=? n)%nat && (n <=? 13)%nat) || (n =? 32)%nat.

Definition digit_of (c : ascii) : option Z :=
  let n := nat_of_ascii c in
  if ((48 <=? n)%nat && (n <=? 57)%nat) then Some (Z.of_nat (n - 48)) else None.

Fixpoint lstrip (s : string) : string :=
  match s with
  | String c s' => if is_space c then lstrip s' else s
  | EmptyString => s
  end.

(** Digits followed by whitespace only; [acc] is the value read so far and
    [seen] says whether a digit was read. *)
Fixpoint digits (s : string) (acc : Z) (seen : bool) : option Z :=
  match s with
  | EmptyString => if seen then Some acc else None
  | String c s' =>
      match digit_of c with
      | Some d => digits s' (10 * acc + d) true
      | None => if seen && String.eqb (lstrip s) EmptyString then Some acc else None
      end
  end.

Definition int_of_str (s : string) : option Z :=
  match lstrip s with
  | String "-" s' => Z.opp <$> digits s' 0 false
  | String "+" s' => digits s' 0 false
  | s' => digits s' 0 false
  end.

(** [int(v)] *)
Definition py_int (v : PyVal) : Result Z :=
  match v with
  | PyNone => Raise TypeError
  | PyInt z => Ok z
  | PyStr s => match int_of_str s with Some z => Ok z | None => Raise ValueError end
  end.

(** [math.ceil(n / d)] for [d > 0], on exact quotients.  The source takes
    the ceiling of the float quotient, which is the same number when [d] is
    1000 and [n] is at most [1000 * 2 ^ 44] in absolute value
    ([ceil_div_matches_float]), and not beyond ([float_ceiling_differs]). *)
Definition ceil_div (n d : Z) : Z := - ((- n) / d).

(** ** Entities

    Objects that the handlers mutate and share (guilds) live in a store and
    are named by their address; the others carry their address as a tag,
    the model of Python's object identity. *)

Definition addr := nat.

Inductive ChannelType : Type := text | private | voice | group.

(** Modelled from the spec: the [User] class (user.py) is not in src/.
    "User: globally unique identity keyed by a numeric id". *)
Record User : Type := mkUser {
  user_obj : addr;
  user_id : Z;
  user_name : string;
}.

Record UserData : Type := mkUserData {
  ud_id : PyVal;
  ud_username : string;
}.

(** Modelled from the spec: the channel classes and [_channel_factory]
    (channel.py) are not in src/.  "guild channels are owned by a Guild;
    private channels (DM/group) are owned by the top-level cache and indexed
    additionally by participant user id (DM only)". *)
Record Channel : Type := mkChannel {
  channel_id : Z;
  channel_type : ChannelType;
  channel_guild : option addr;
  recipients : list User;
}.

(** Modelled from the spec: the [Member] class (member.py) is not in src/. *)
Record Member : Type := mkMember {
  member_id : Z;
  member_guild : addr;
}.

(** Modelled from the spec: the [Guild] class (guild.py) is not in src/.
    "Guild: a community container keyed by numeric id; owns members,
    channels, roles, emoji; carries an unavailable flag and a large flag;
    owns a running member_count". *)
Record Guild : Type := mkGuild {
  guild_id : Z;
  guild_name : string;
  unavailable : bool;
  large : bool;
  _member_count : Z;
  _channels : gmap Z Channel;
  _members : gmap Z Member;
}.

Record GuildData : Type := mkGuildData {
  gd_id : PyVal;
  gd_name : string;
  gd_unavailable : option bool;   (* [data.get('unavailable')] *)
  gd_large : bool;
  gd_member_count : option Z;
}.

(** The emoji of a reaction: "either a raw identifier (unicode) or a cached
    custom-emoji entity". *)
Inductive Emoji : Type :=
| UnicodeEmoji (name : string)
| CustomEmoji (id : Z) (name : string).

Record EmojiData : Type := mkEmojiData {
  ed_id : PyVal;
  ed_name : string;
}.

(** Modelled from the spec: the [Reaction] class (reaction.py) is not in
    src/.  "aggregates a count and a boolean has-the-local-user-reacted flag
    per (message, emoji) pair". *)
Record Reaction : Type := mkReaction {
  emoji : Emoji;
  count : Z;
  me : bool;
}.

(** Modelled from the spec: the [Message] class (message.py) is not in
    src/.  "Message: owned by the Message History Buffer, referencing its
    Channel; carries a mutable reactions list". *)
Record Message : Type := mkMessage {
  message_id : Z;
  channel : option Channel;
  content : string;
  reactions : list Reaction;
}.

Record MessageData : Type := mkMessageData {
  md_id : PyVal;
  md_channel_id : PyVal;
  md_content : string;
}.

Record ReactionData : Type := mkReactionData {
  rd_message_id : PyVal;
  rd_user_id : PyVal;
  rd_channel_id : PyVal;
  rd_emoji : EmojiData;
}.

Inductive PrivateKind : Type := DM | Group.

Record PrivateChannelData : Type := mkPrivateChannelData {
  pd_type : PrivateKind;
  pd_id : PyVal;
  pd_recipients : list UserData;
}.

Record ReadyData : Type := mkReadyData {
  ready_user : UserData;
  ready_guilds : option (list GuildData);
  ready_private_channels : option (list PrivateChannelData);
}.

Record GuildDeleteData : Type := mkGuildDeleteData {
  del_id : PyVal;
  del_unavailable : option bool;  (* [data.get('unavailable', False)] *)
}.

(** ** Listeners, futures and the ready state *)

(** [class ListenerType(enum.Enum): chunk = 0] *)
Inductive ListenerType : Type := chunk.

Definition ListenerType_eqb (a b : ListenerType) : bool :=
  match a, b with chunk, chunk => true end.

(** An [asyncio.Future] as the registry sees it. *)
Inductive FutureState : Type :=
| Pending
| Cancelled
| Finished (result : Z)
| Failed (e : Exn).

(** [Listener = namedtuple('Listener', ('type', 'future', 'predicate'))];
    the predicate is applied to the argument of [process_listeners], a guild
    or [None], and may raise. *)
Record Listener : Type := mkListener {
  type : ListenerType;
  future : addr;
  predicate : option Guild -> Result bool;
}.

(** [ReadyState = namedtuple('ReadyState', ('launch', 'guilds'))]: an
    [asyncio.Event] and the list of guilds waiting to be chunked. *)
Record ReadyState : Type := mkReadyState {
  launch : addr;
  guilds : list addr;
}.

(** ** The connection state and the interpreter's store *)

Record GroupCall : Type := mkGroupCall { call_message : Z }.
Record VoiceClient : Type := mkVoiceClient { voice_channel : option Z }.

(** The attributes of a [ConnectionState] instance.  [_ready_state] is
    [None] when the attribute does not exist. *)
Record ConnectionState : Type := mkState {
  max_messages : Z;
  is_bot : option bool;
  _listeners : list Listener;
  user : option User;
  sequence : option Z;
  session_id : option string;
  _calls : gmap Z GroupCall;
  _users : gmap Z User;
  _guilds : gmap Z addr;
  _voice_clients : gmap Z VoiceClient;
  _private_channels : gmap Z Channel;
  _private_channels_by_user : gmap Z Channel;
  messages : list Message;        (* [deque(maxlen=self.max_messages)] *)
  _ready_state : option ReadyState;
}.

(** Who reacted: a recipient of a private channel or a guild member. *)
Inductive Who : Type :=
| WhoUser (u : User)
| WhoMember (m : Member).

(** The calls of the injected [dispatch] collaborator. *)
Inductive Dispatched : Type :=
| ev_ready
| ev_message (m : Message)
| ev_reaction_add (r : Reaction) (who : option Who)
| ev_reaction_remove (r : Reaction) (who : option Who)
| ev_guild_available (g : addr)
| ev_guild_join (g : addr)
| ev_guild_unavailable (g : addr)
| ev_guild_remove (g : addr).

Inductive LogLevel : Type := info | warning.

(** What leaves the engine, in order: dispatches, the requests made through
    [chunker] and [syncer], the awaits on the loop, and log records. *)
Inductive IO : Type :=
| Dispatch (e : Dispatched)
| Chunker (split : list addr)
| ChunkerGuild (g : addr)
| Syncer (ids : list Z)
| Sleep (seconds : Z)
| Wait (chunks : list addr) (timeout : Z)
| Log (level : LogLevel).

(** Where a suspended [_delay_ready] coroutine resumes. *)
Inductive DelayReadyPc : Type :=
| DR_entry
| DR_sleep (launch : addr)
| DR_chunker (chunks : list addr) (splits : list (list addr))
| DR_wait
| DR_sync.

(** Where a suspended [_chunk_and_dispatch] coroutine resumes. *)
Inductive ChunkDispatchPc : Type :=
| CD_entry
| CD_chunker
| CD_wait.

(** A coroutine handed to [compat.create_task]. *)
Inductive Task : Type :=
| DelayReady (pc : DelayReadyPc)
| ChunkAndDispatch (guild : addr) (unavailable : option bool) (pc : ChunkDispatchPc).

Record World : Type := mkWorld {
  self : ConnectionState;
  guild_objs : gmap addr Guild;
  futures : gmap addr FutureState;
  events : gmap addr bool;         (* [asyncio.Event]: is it set? *)
  next_addr : addr;
  io_log : list IO;
  tasks : list Task;
}.

(** *** Attribute assignment *)

Definition set_listeners (v : list Listener) (s : ConnectionState) : ConnectionState :=
  mkState (max_messages s) (is_bot s) v (user s) (sequence s) (session_id s)
    (_calls s) (_users s) (_guilds s) (_voice_clients s) (_private_channels s)
    (_private_channels_by_user s) (messages s) (_ready_state s).

Definition set_user (v : option User) (s : ConnectionState) : ConnectionState :=
  mkState (max_messages s) (is_bot s) (_listeners s) v (sequence s) (session_id s)
    (_calls s) (_users s) (_guilds s) (_voice_clients s) (_private_channels s)
    (_private_channels_by_user s) (messages s) (_ready_state s).

Definition set_users (v : gmap Z User) (s : ConnectionState) : ConnectionState :=
  mkState (max_messages s) (is_bot s) (_listeners s) (user s) (sequence s) (session_id s)
    (_calls s) v (_guilds s) (_voice_clients s) (_private_channels s)
    (_private_channels_by_user s) (messages s) (_ready_state s).

Definition set_guilds (v : gmap Z addr) (s : ConnectionState) : ConnectionState :=
  mkState (max_messages s) (is_bot s) (_listeners s) (user s) (sequence s) (session_id s)
    (_calls s) (_users s) v (_voice_clients s) (_private_channels s)
    (_private_channels_by_user s) (messages s) (_ready_state s).

Definition set_private_channels (v : gmap Z Channel) (s : ConnectionState) : ConnectionState :=
  mkState (max_messages s) (is_bot s) (_listeners s) (user s) (sequence s) (session_id s)
    (_calls s) (_users s) (_guilds s) (_voice_clients s) v
    (_private_channels_by_user s) (messages s) (_ready_state s).

Definition set_private_channels_by_user (v : gmap Z Channel) (s : ConnectionState) : ConnectionState :=
  mkState (max_messages s) (is_bot s) (_listeners s) (user s) (sequence s) (session_id s)
    (_calls s) (_users s) (_guilds s) (_voice_clients s) (_private_channels s)
    v (messages s) (_ready_state s).

Definition set_messages (v : list Message) (s : ConnectionState) : ConnectionState :=
  mkState (max_messages s) (is_bot s) (_listeners s) (user s) (sequence s) (session_id s)
    (_calls s) (_users s) (_guilds s) (_voice_clients s) (_private_channels s)
    (_private_channels_by_user s) v (_ready_state s).

Definition set_ready_state (v : option ReadyState) (s : ConnectionState) : ConnectionState :=
  mkState (max_messages s) (is_bot s) (_listeners s) (user s) (sequence s) (session_id s)
    (_calls s) (_users s) (_guilds s) (_voice_clients s) (_private_channels s)
    (_private_channels_by_user s) (messages s) v.

Definition with_self (f : ConnectionState -> ConnectionState) (w : World) : World :=
  mkWorld (f (self w)) (guild_objs w) (futures w) (events w) (next_addr w) (io_log w) (tasks w).

Definition set_guild_objs (v : gmap addr Guild) (w : World) : World :=
  mkWorld (self w) v (futures w) (events w) (next_addr w) (io_log w) (tasks w).

Definition set_futures (v : gmap addr FutureState) (w : World) : World :=
  mkWorld (self w) (guild_objs w) v (events w) (next_addr w) (io_log w) (tasks w).

Definition set_events (v : gmap addr bool) (w : World) : World :=
  mkWorld (self w) (guild_objs w) (futures w) v (next_addr w) (io_log w) (tasks w).

Definition set_next_addr (v : addr) (w : World) : World :=
  mkWorld (self w) (guild_objs w) (futures w) (events w) v (io_log w) (tasks w).

Definition set_io_log (v : list IO) (w : World) : World :=
  mkWorld (self w) (guild_objs w) (futures w) (events w) (next_addr w) v (tasks w).

Definition set_tasks (v : list Task) (w : World) : World :=
  mkWorld (self w) (guild_objs w) (futures w) (events w) (next_addr w) (io_log w) v.

(** ** The monad of the handlers: a store, and an exception that leaves the
    mutations made before it in place *)

Definition M (A : Type) : Type := World -> Result A * World.

Definition ret {A : Type} (a : A) : M A := fun w => (Ok a, w).
Definition raise {A : Type} (e : Exn) : M A := fun w => (Raise e, w).
Definition bind {A B : Type} (m : M A) (k : A -> M B) : M B :=
  fun w => match m w with
           | (Ok a, w') => k a w'
           | (Raise e, w') => (Raise e, w')
           end.
Definition get : M World := fun w => (Ok w, w).
Definition gets {A : Type} (f : World -> A) : M A := fun w => (Ok (f w), w).
Definition modify (f : World -> World) : M unit := fun w => (Ok tt, f w).
Definition lift {A : Type} (r : Result A) : M A := fun w => (r, w).

Notation "'let*' x ':=' m 'in' k" := (bind m (fun x => k))
  (at level 10, x name, m at level 100, k at level 200).
Notation "m ';;;' k" := (bind m (fun _ => k))
  (at level 100, k at level 200, right associativity).

(** [self.dispatch(...)], the collaborators and [log] *)
Definition emit (e : IO) : M unit := modify (fun w => set_io_log (io_log w ++ [e]) w).
Definition dispatch (e : Dispatched) : M unit := emit (Dispatch e).

(** [compat.create_task(coro, loop=self.loop)] *)
Definition create_task (t : Task) : M unit :=
  modify (fun w => set_tasks (tasks w ++ [t]) w).

(** A new object: its address. *)
Definition alloc : M addr :=
  fun w => (Ok (next_addr w), set_next_addr (S (next_addr w)) w).

(** Reading a guild object through a reference. *)
Definition deref_guild (a : addr) : M Guild :=
  fun w => match guild_objs w !! a with
           | Some g => (Ok g, w)
           | None => (Raise DanglingRef, w)
           end.

(** ** [__init__] and [clear] *)

(** [clear(self)] *)
Definition clear (s : ConnectionState) : ConnectionState :=
  mkState (max_messages s) (is_bot s) (_listeners s)
    None None None ∅ ∅ ∅ ∅ ∅ ∅ [] (_ready_state s).

(** [__init__]: [options.get('max_messages', 5000)] floored at 100; no
    listener; then [clear()]. *)
Definition init (option_max_messages : option Z) : ConnectionState :=
  clear (mkState (Z.max (default 5000 option_max_messages) 100) None []
           None None None ∅ ∅ ∅ ∅ ∅ ∅ [] None).

Definition init_world (option_max_messages : option Z) : World :=
  mkWorld (init option_max_messages) ∅ ∅ ∅ 0%nat [] [].

(** ** The listener registry *)

(** [future.cancelled()] *)
Definition future_cancelled (f : addr) : M bool :=
  fun w => match futures w !! f with
           | Some Cancelled => (Ok true, w)
           | Some _ => (Ok false, w)
           | None => (Raise DanglingRef, w)
           end.

(** [future.set_result(result)] and [future.set_exception(e)]: only a
    pending future takes a result. *)
Definition future_resolve (f : addr) (v : FutureState) : M unit :=
  fun w => match futures w !! f with
           | Some Pending => (Ok tt, set_futures (<[f := v]> (futures w)) w)
           | Some _ => (Raise InvalidStateError, w)
           | None => (Raise DanglingRef, w)
           end.

Definition future_set_result (f : addr) (result : Z) : M unit :=
  future_resolve f (Finished result).
Definition future_set_exception (f : addr) (e : Exn) : M unit :=
  future_resolve f (Failed e).

(** The first loop of [process_listeners], from index [i] over the listeners
    [ls] that remain; the value is the list [removed]. *)
Fixpoint process_loop (listener_type : ListenerType) (argument : option Guild)
    (result : Z) (i : nat) (ls : list Listener) (removed : list nat) : M (list nat) :=
  match ls with
  | [] => ret removed
  | listener :: rest =>
      if negb (ListenerType_eqb (type listener) listener_type) then
        process_loop listener_type argument result (S i) rest removed
      else
        let* cancelled := future_cancelled (future listener) in
        if cancelled : bool then
          process_loop listener_type argument result (S i) rest (removed ++ [i])
        else
          match predicate listener argument with
          | Raise e =>
              future_set_exception (future listener) e ;;;
              process_loop listener_type argument result (S i) rest (removed ++ [i])
          | Ok passed =>
              if passed then
                future_set_result (future listener) result ;;;
                if ListenerType_eqb (type listener) chunk then
                  ret (removed ++ [i])
                else
                  process_loop listener_type argument result (S i) rest (removed ++ [i])
              else
                process_loop listener_type argument result (S i) rest removed
          end
  end.

(** [for index in reversed(removed): del self._listeners[index]] *)
Definition delete_indices {A : Type} (removed : list nat) (l : list A) : list A :=
  fold_left (fun acc index => delete index acc) (rev removed) l.

(** [process_listeners(self, listener_type, argument, result)] *)
Definition process_listeners (listener_type : ListenerType) (argument : option Guild)
    (result : Z) : M unit :=
  let* ls := gets (fun w => _listeners (self w)) in
  let* removed := process_loop listener_type argument result 0%nat ls [] in
  modify (with_self (fun s => set_listeners (delete_indices removed (_listeners s)) s)).

(** The predicate of [receive_chunk]: [lambda s: s.id == guild_id]. *)
Definition chunk_predicate (wanted : Z) (s : option Guild) : Result bool :=
  match s with
  | Some g => Ok (guild_id g =? wanted)
  | None => Raise AttributeError
  end.

(** [receive_chunk(self, guild_id)] *)
Definition receive_chunk (guild_id : Z) : M addr :=
  let* future := alloc in
  modify (fun w => set_futures (<[future := Pending]> (futures w)) w) ;;;
  let listener := mkListener chunk future (chunk_predicate guild_id) in
  modify (with_self (fun s => set_listeners (_listeners s ++ [listener]) s)) ;;;
  ret future.

(** ** The entity cache *)

(** Modelled from the spec: [User(state=self.ctx, data=data)] (user.py is
    not in src/): a new object keyed by the numeric id of the record. *)
Definition User_new (data : UserData) : M User :=
  let* id := lift (py_int (ud_id data)) in
  let* obj := alloc in
  ret (mkUser obj id (ud_username data)).

(** [try_insert_user(self, data)] *)
Definition try_insert_user (data : UserData) : M User :=
  let* user_id := lift (py_int (ud_id data)) in
  let* users := gets (fun w => _users (self w)) in
  match users !! user_id with
  | Some user => ret user
  | None =>
      let* user := User_new data in
      modify (with_self (fun s => set_users (<[user_id := user]> (_users s)) s)) ;;;
      ret user
  end.

(** [_get_guild(self, guild_id)], on an [int] and on a value taken from a
    record as it is. *)
Definition _get_guild (guild_id : Z) : M (option addr) :=
  gets (fun w => _guilds (self w) !! guild_id).

Definition _get_guild_raw (guild_id : PyVal) : M (option addr) :=
  gets (fun w => py_dict_get (_guilds (self w)) guild_id).

(** [_add_guild(self, guild)] *)
Definition _add_guild (guild : addr) : M unit :=
  let* g := deref_guild guild in
  modify (with_self (fun s => set_guilds (<[guild_id g := guild]> (_guilds s)) s)).

(** [_remove_guild(self, guild)] *)
Definition _remove_guild (guild : addr) : M unit :=
  let* g := deref_guild guild in
  modify (with_self (fun s => set_guilds (delete (guild_id g) (_guilds s)) s)).

(** [self.guilds]: the values of the guild map.  A dict gives them in the
    order of insertion, the map in the order of its keys. *)
Definition guilds_values (w : World) : list addr :=
  (map_to_list (_guilds (self w))).*2.

(** [_add_private_channel(self, channel)]: a DM channel is also indexed by
    its recipient. *)
Definition _add_private_channel (channel : Channel) : M unit :=
  modify (with_self (fun s =>
    set_private_channels (<[channel_id channel := channel]> (_private_channels s)) s)) ;;;
  match channel_type channel with
  | private =>
      match recipients channel with
      | recipient :: _ =>
          modify (with_self (fun s =>
            set_private_channels_by_user
              (<[user_id recipient := channel]> (_private_channels_by_user s)) s))
      | [] => raise IndexError
      end
  | _ => ret tt
  end.

Fixpoint find_guild_channel (id : PyVal) (gs : list addr) : M (option Channel) :=
  match gs with
  | [] => ret None
  | guild :: rest =>
      let* g := deref_guild guild in
      match py_dict_get (_channels g) id with   (* guild.get_channel(id) *)
      | Some channel => ret (Some channel)
      | None => find_guild_channel id rest
      end
  end.

(** [get_channel(self, id)]: the guilds' channels first, then the private
    ones. *)
Definition get_channel (id : PyVal) : M (option Channel) :=
  match id with
  | PyNone => ret None
  | _ =>
      let* gs := gets guilds_values in
      let* channel := find_guild_channel id gs in
      match channel with
      | Some c => ret (Some c)
      | None => gets (fun w => py_dict_get (_private_channels (self w)) id)
      end
  end.

(** ** The message buffer *)

(** [deque.append] under [maxlen]: append, then drop the oldest entry when
    the bound is exceeded. *)
Definition deque_append {A : Type} (maxlen : Z) (x : A) (d : list A) : list A :=
  let d' := d ++ [x] in
  if Z.of_nat (length d') >? maxlen then tail d' else d'.

(** [deque(iterable, maxlen=maxlen)] *)
Definition deque_of_list {A : Type} (maxlen : Z) (l : list A) : list A :=
  fold_left (fun d x => deque_append maxlen x d) l [].

(** Modelled from the spec: [Message(channel=channel, data=data,
    state=self.ctx)] (message.py is not in src/). *)
Definition Message_new (channel : option Channel) (data : MessageData) : M Message :=
  let* id := lift (py_int (md_id data)) in
  ret (mkMessage id channel (md_content data) []).

(** [parse_message_create(self, data)] *)
Definition parse_message_create (data : MessageData) : M unit :=
  let* channel_id := lift (py_int (md_channel_id data)) in
  let* channel := get_channel (PyInt channel_id) in
  let* message := Message_new channel data in
  dispatch (ev_message message) ;;;
  modify (with_self (fun s =>
    set_messages (deque_append (max_messages s) message (messages s)) s)).

(** [utils.find(predicate, seq)], with the position of the element found. *)
Fixpoint find_from {A : Type} (p : A -> bool) (i : nat) (l : list A) : option (nat * A) :=
  match l with
  | [] => None
  | x :: rest => if p x then Some (i, x) else find_from p (S i) rest
  end.

(** [_get_message(self, msg_id)] *)
Definition _get_message (msg_id : PyVal) : M (option (nat * Message)) :=
  gets (fun w => find_from (fun m => py_eq_int (message_id m) msg_id) 0%nat (messages (self w))).

(** ** Reactions *)

(** [_get_reaction_emoji(self, **data)].  With an id the source goes on to
    [for server in self.servers]: [ConnectionState] has no attribute
    [servers] (the property is [guilds]), which raises. *)
Definition _get_reaction_emoji (data : EmojiData) : M Emoji :=
  let id := ed_id data in
  if negb (py_truthy id) then ret (UnicodeEmoji (ed_name data))
  else raise AttributeError.

(** Modelled from the spec: equality of emoji (emoji.py is not in src/): a
    string equals a string, a custom emoji equals one with its id. *)
Definition emoji_eqb (a b : Emoji) : bool :=
  match a, b with
  | UnicodeEmoji x, UnicodeEmoji y => String.eqb x y
  | CustomEmoji i _, CustomEmoji j _ => i =? j
  | _, _ => false
  end.

(** [utils.get(message.reactions, emoji=emoji)] *)
Definition get_reaction (rs : list Reaction) (e : Emoji) : option (nat * Reaction) :=
  find_from (fun r => emoji_eqb (emoji r) e) 0%nat rs.

(** The message at position [i] of the buffer gets the reaction list [rs]. *)
Definition set_reactions (i : nat) (m : Message) (rs : list Reaction) : M unit :=
  modify (with_self (fun s =>
    set_messages (<[i := mkMessage (message_id m) (channel m) (content m) rs]> (messages s)) s)).

(** [data['user_id'] == self.user.id] *)
Definition is_self_user (uid : PyVal) : M bool :=
  let* u := gets (fun w => user (self w)) in
  match u with
  | Some u => ret (py_eq_int (user_id u) uid)
  | None => raise AttributeError
  end.

(** [_get_member(self, channel, id)].  Modelled from the spec: the
    attributes of the channel classes it reads (channel.py is not in src/):
    a channel is private when it is a DM or a group, and [channel.server] is
    the guild that owns it. *)
Definition _get_member (channel : option Channel) (id : PyVal) : M (option Who) :=
  match channel with
  | None => raise AttributeError
  | Some c =>
      match channel_type c with
      | private | group =>
          ret (WhoUser <$> (snd <$> find_from (fun u => py_eq_int (user_id u) id) 0%nat (recipients c)))
      | _ =>
          match channel_guild c with
          | Some server =>
              let* g := deref_guild server in
              ret (WhoMember <$> py_dict_get (_members g) id)
          | None => raise AttributeError
          end
      end
  end.

(** Modelled from the spec: [Reaction(message=message, emoji=emoji,
    me=is_me, **data)] (reaction.py is not in src/): "creates a reaction
    with count 1". *)
Definition Reaction_new (e : Emoji) (is_me : bool) : Reaction := mkReaction e 1 is_me.

(** [reaction.count = c] and [reaction.me = b] *)
Definition set_count (c : Z) (r : Reaction) : Reaction := mkReaction (emoji r) c (me r).
Definition set_me (b : bool) (r : Reaction) : Reaction := mkReaction (emoji r) (count r) b.

(** [parse_message_reaction_add(self, data)] *)
Definition parse_message_reaction_add (data : ReactionData) : M unit :=
  let* found := _get_message (rd_message_id data) in
  match found with
  | None => ret tt
  | Some (i, message) =>
      let* emoji := _get_reaction_emoji (rd_emoji data) in
      let reaction := get_reaction (reactions message) emoji in
      let* is_me := is_self_user (rd_user_id data) in
      let* reaction :=
        match reaction with
        | None =>
            let reaction := Reaction_new emoji is_me in
            set_reactions i message (reactions message ++ [reaction]) ;;;
            ret reaction
        | Some (j, reaction) =>
            let reaction := set_count (count reaction + 1) reaction in
            let reaction := if is_me then set_me true reaction else reaction in
            set_reactions i message (<[j := reaction]> (reactions message)) ;;;
            ret reaction
        end in
      let* channel := get_channel (rd_channel_id data) in
      let* member := _get_member channel (rd_user_id data) in
      dispatch (ev_reaction_add reaction member)
  end.

(** [parse_message_reaction_remove(self, data)] *)
Definition parse_message_reaction_remove (data : ReactionData) : M unit :=
  let* found := _get_message (rd_message_id data) in
  match found with
  | None => ret tt
  | Some (i, message) =>
      let* emoji := _get_reaction_emoji (rd_emoji data) in
      match get_reaction (reactions message) emoji with
      | None => emit (Log warning)
      | Some (j, reaction) =>
          let reaction := set_count (count reaction - 1) reaction in
          set_reactions i message (<[j := reaction]> (reactions message)) ;;;
          let* is_me := is_self_user (rd_user_id data) in
          let reaction := if is_me then set_me false reaction else reaction in
          let rs := <[j := reaction]> (reactions message) in
          set_reactions i message rs ;;;
          (if count reaction =? 0
           then set_reactions i message (delete j rs)
           else ret tt) ;;;
          let* channel := get_channel (rd_channel_id data) in
          let* member := _get_member channel (rd_user_id data) in
          dispatch (ev_reaction_remove reaction member)
      end
  end.

(** ** Guilds *)

(** Modelled from the spec: [guild._from_data(data)] (guild.py is not in
    src/): "merge fields in place".  The key, name, flags and, when the
    record carries one, the member count are taken from the record; what the
    guild owns stays. *)
Definition _from_data (g : Guild) (data : GuildData) : Result Guild :=
  match py_int (gd_id data) with
  | Ok id =>
      Ok (mkGuild id (gd_name data) (default false (gd_unavailable data)) (gd_large data)
            (default (_member_count g) (gd_member_count data)) (_channels g) (_members g))
  | Raise e => Raise e
  end.

(** Modelled from the spec: [Guild(data=guild, state=self.ctx)]. *)
Definition Guild_new (data : GuildData) : Result Guild :=
  _from_data (mkGuild 0 EmptyString false false 0 ∅ ∅) data.

Definition store_guild (a : addr) (g : Guild) : M unit :=
  modify (fun w => set_guild_objs (<[a := g]> (guild_objs w)) w).

(** [guild.unavailable = b] *)
Definition set_unavailable (b : bool) (g : Guild) : Guild :=
  mkGuild (guild_id g) (guild_name g) b (large g) (_member_count g) (_channels g) (_members g).

(** [_add_guild_from_data(self, guild)] *)
Definition _add_guild_from_data (data : GuildData) : M addr :=
  let* g := lift (Guild_new data) in
  let* guild := alloc in
  store_guild guild g ;;;
  _add_guild guild ;;;
  ret guild.

(** [_get_create_guild(self, data)]: the cache is searched with
    [data.get('id')] as it is. *)
Definition _get_create_guild (data : GuildData) : M addr :=
  let fresh := _add_guild_from_data data in
  match gd_unavailable data with
  | Some false =>
      let* found := _get_guild_raw (gd_id data) in
      match found with
      | Some guild =>
          let* g := deref_guild guild in
          store_guild guild (set_unavailable false g) ;;;
          let* g := deref_guild guild in
          let* g := lift (_from_data g data) in
          store_guild guild g ;;;
          ret guild
      | None => fresh
      end
  | _ => fresh
  end.

(** [math.ceil(guild._member_count / 1000)] futures, one [receive_chunk]
    each: the generator [chunks_needed(guild)] run to its end. *)
Fixpoint repeatM {A : Type} (n : nat) (m : M A) : M (list A) :=
  match n with
  | O => ret []
  | S n' => let* x := m in let* xs := repeatM n' m in ret (x :: xs)
  end.

Definition chunks_needed (guild : addr) : M (list addr) :=
  let* g := deref_guild guild in
  repeatM (Z.to_nat (ceil_div (_member_count g) 1000))
    (let* g := deref_guild guild in receive_chunk (guild_id g)).

(** [if unavailable == False: dispatch('guild_available', guild)
     else: dispatch('guild_join', guild)] *)
Definition dispatch_arrival (guild : addr) (unavailable : option bool) : M unit :=
  match unavailable with
  | Some false => dispatch (ev_guild_available guild)
  | _ => dispatch (ev_guild_join guild)
  end.

(** [_chunk_and_dispatch(self, guild, unavailable)], from one await to the
    next; [None] when the coroutine has returned.  The timeout of the wait
    is [len(chunks)]. *)
Definition chunk_and_dispatch_resume (guild : addr) (unavailable : option bool)
    (pc : ChunkDispatchPc) : M (option ChunkDispatchPc) :=
  match pc with
  | CD_entry => emit (ChunkerGuild guild) ;;; ret (Some CD_chunker)
  | CD_chunker =>
      let* chunks := chunks_needed guild in
      match chunks with
      | [] => dispatch_arrival guild unavailable ;;; ret None
      | _ => emit (Wait chunks (Z.of_nat (length chunks))) ;;; ret (Some CD_wait)
      end
  | CD_wait => dispatch_arrival guild unavailable ;;; ret None
  end.

(** [parse_guild_create(self, data)] *)
Definition parse_guild_create (data : GuildData) : M unit :=
  let unavailable := gd_unavailable data in
  match unavailable with
  | Some true => ret tt
  | _ =>
      let* guild := _get_create_guild data in
      let* g := deref_guild guild in
      if large g then
        let* state := gets (fun w => _ready_state (self w)) in
        match unavailable, state with
        | Some false, Some state =>
            modify (fun w => set_events (<[launch state := false]> (events w)) w) ;;;
            modify (with_self (set_ready_state
              (Some (mkReadyState (launch state) (guilds state ++ [guild])))))
        | _, _ => create_task (ChunkAndDispatch guild unavailable CD_entry)
        end
      else dispatch_arrival guild unavailable
  end.

(** Modelled from the spec: [msg.guild] and the comparison of guilds
    (message.py and guild.py are not in src/): the guild that owns the
    message's channel, and guilds compared by their numeric id. *)
Definition message_guild (w : World) (msg : Message) : option Guild :=
  c ← channel msg; a ← channel_guild c; guild_objs w !! a.

Definition guild_ne (og : option Guild) (g : Guild) : bool :=
  match og with
  | Some g' => negb (guild_id g' =? guild_id g)
  | None => true
  end.

(** [parse_guild_delete(self, data)] *)
Definition parse_guild_delete (data : GuildDeleteData) : M unit :=
  let* id := lift (py_int (del_id data)) in
  let* found := _get_guild id in
  match found with
  | None => ret tt
  | Some guild =>
      if default false (del_unavailable data) then
        let* g := deref_guild guild in
        store_guild guild (set_unavailable true g) ;;;
        dispatch (ev_guild_unavailable guild)
      else
        let* g := deref_guild guild in
        modify (fun w => with_self (fun s =>
          set_messages
            (deque_of_list (max_messages s)
               (List.filter (fun msg => guild_ne (message_guild w msg) g) (messages s))) s) w) ;;;
        _remove_guild guild ;;;
        dispatch (ev_guild_remove guild)
  end.

(** ** The readiness handshake *)

(** [launch.is_set()], [launch.set()] and [launch.clear()] *)
Definition event_is_set (e : addr) : M bool :=
  fun w => match events w !! e with
           | Some b => (Ok b, w)
           | None => (Raise DanglingRef, w)
           end.

Definition event_put (e : addr) (b : bool) : M unit :=
  modify (fun w => set_events (<[e := b]> (events w)) w).

(** [self._ready_state]: an [AttributeError] when the attribute is gone. *)
Definition ready_state : M ReadyState :=
  fun w => match _ready_state (self w) with
           | Some rs => (Ok rs, w)
           | None => (Raise AttributeError, w)
           end.

Fixpoint mapM {A B : Type} (f : A -> M B) (l : list A) : M (list B) :=
  match l with
  | [] => ret []
  | x :: rest => let* y := f x in let* ys := mapM f rest in ret (y :: ys)
  end.

Fixpoint forM_ {A : Type} (l : list A) (f : A -> M unit) : M unit :=
  match l with
  | [] => ret tt
  | x :: rest => f x ;;; forM_ rest f
  end.

(** [[guilds[i:i + 75] for i in range(0, len(guilds), 75)]] *)
Fixpoint splits_of {A : Type} (fuel : nat) (l : list A) : list (list A) :=
  match fuel with
  | O => []
  | S fuel' =>
      match l with
      | [] => []
      | _ => take 75 l :: splits_of fuel' (drop 75 l)
      end
  end.

Definition splits75 {A : Type} (l : list A) : list (list A) := splits_of (length l) l.

(** The tail of [_delay_ready]: [self.dispatch('ready')]. *)
Definition dr_finish : M (option DelayReadyPc) :=
  dispatch ev_ready ;;; ret None.

(** [del self._ready_state] (nothing when it is gone already), then the
    sync request of a user session. *)
Definition dr_after_wait : M (option DelayReadyPc) :=
  modify (with_self (set_ready_state None)) ;;;
  let* bot := gets (fun w => is_bot (self w)) in
  if negb (default false bot) then
    emit (Log info) ;;;
    let* gs := gets guilds_values in
    let* ids := mapM (fun s => let* g := deref_guild s in ret (guild_id g)) gs in
    emit (Syncer ids) ;;;
    ret (Some DR_sync)
  else dr_finish.

(** [if chunks: yield from asyncio.wait(chunks, timeout=len(chunks) * 30.0)] *)
Definition dr_after_requests (chunks : list addr) : M (option DelayReadyPc) :=
  match chunks with
  | [] => dr_after_wait
  | _ => emit (Wait chunks (Z.of_nat (length chunks) * 30)) ;;; ret (Some DR_wait)
  end.

(** [for split in splits: yield from self.chunker(split)] *)
Definition dr_requests (chunks : list addr) (splits : list (list addr)) : M (option DelayReadyPc) :=
  match splits with
  | [] => dr_after_requests chunks
  | split :: rest => emit (Chunker split) ;;; ret (Some (DR_chunker chunks rest))
  end.

(** After the quiet period: the listeners of every pending guild, then the
    requests. *)
Definition dr_chunking : M (option DelayReadyPc) :=
  let* rs := ready_state in
  let guilds := guilds rs in
  let* chunks := mapM chunks_needed guilds in
  dr_requests (concat chunks) (splits75 guilds).

(** [while not launch.is_set(): launch.set(); yield from asyncio.sleep(2)] *)
Definition dr_loop (launch : addr) : M (option DelayReadyPc) :=
  let* is_set := event_is_set launch in
  if is_set : bool then dr_chunking
  else event_put launch true ;;; emit (Sleep 2) ;;; ret (Some (DR_sleep launch)).

(** [_delay_ready(self)], from one await to the next; [None] when the
    coroutine has returned. *)
Definition delay_ready_resume (pc : DelayReadyPc) : M (option DelayReadyPc) :=
  match pc with
  | DR_entry => let* rs := ready_state in dr_loop (launch rs)
  | DR_sleep launch => dr_loop launch
  | DR_chunker chunks splits => dr_requests chunks splits
  | DR_wait => dr_after_wait
  | DR_sync => dr_finish
  end.

(** One turn of the loop on a task. *)
Definition resume (t : Task) : M (option Task) :=
  match t with
  | DelayReady pc =>
      let* pc' := delay_ready_resume pc in ret (DelayReady <$> pc')
  | ChunkAndDispatch guild unavailable pc =>
      let* pc' := chunk_and_dispatch_resume guild unavailable pc in
      ret (ChunkAndDispatch guild unavailable <$> pc')
  end.

(** A task resumed at each of its awaits until it returns, with no handler
    running in between; [Some t] when the turns run out first. *)
Fixpoint run_task (turns : nat) (t : Task) : M (option Task) :=
  match turns with
  | O => ret (Some t)
  | S turns' =>
      let* next := resume t in
      match next with
      | None => ret None
      | Some t' => run_task turns' t'
      end
  end.

(** Modelled from the spec: the private channel that [_channel_factory]
    builds from a record of the ready payload (channel.py is not in src/): a
    DM channel with its one recipient, a group channel with all of them, the
    recipients being cached users. *)
Definition private_channel_new (pm : PrivateChannelData) : M Channel :=
  let* id := lift (py_int (pd_id pm)) in
  match pd_type pm with
  | DM =>
      match pd_recipients pm with
      | recipient :: _ =>
          let* u := try_insert_user recipient in
          ret (mkChannel id private None [u])
      | [] => raise IndexError
      end
  | Group =>
      let* rs := mapM try_insert_user (pd_recipients pm) in
      ret (mkChannel id group None rs)
  end.

(** The loop of [parse_ready] over [guilds]: its body starts with
    [self._add_server_from_data(guild_data)], a method [ConnectionState]
    does not have. *)
Definition ready_guilds_loop (guilds : list addr) : M unit :=
  match guilds with
  | [] => ret tt
  | guild_data :: _ => raise AttributeError
  end.

(** [parse_ready(self, data)] *)
Definition parse_ready (data : ReadyData) : M unit :=
  let* launch := alloc in
  event_put launch false ;;;
  modify (with_self (set_ready_state (Some (mkReadyState launch [])))) ;;;
  let* u := try_insert_user (ready_user data) in
  modify (with_self (set_user (Some u))) ;;;
  let* rs := ready_state in
  let pending := guilds rs in
  let guilds := ready_guilds data in   (* guilds = data.get('guilds') *)
  let guilds := pending in             (* guilds = self._ready_state.guilds *)
  ready_guilds_loop guilds ;;;
  match ready_private_channels data with
  | None => raise TypeError
  | Some pms =>
      forM_ pms (fun pm =>
        let* channel := private_channel_new pm in _add_private_channel channel) ;;;
      create_task (DelayReady DR_entry)
  end.

(** The handlers of a stream of events, one after the other; an exception
    ends the handler that raised it and the stream goes on. *)
Definition handle {A : Type} (h : A -> M unit) (data : A) (w : World) : World :=
  snd (h data w).

Definition handle_all {A : Type} (h : A -> M unit) (ds : list A) (w : World) : World :=
  fold_left (fun w d => handle h d w) ds w.

(** ** Notions the statements use *)

(** The message a [parse_message_create] event adds: the channel lookup and
    the construction, without the dispatch and the append. *)
Definition created_message (data : MessageData) : M Message :=
  let* channel_id := lift (py_int (md_channel_id data)) in
  let* channel := get_channel (PyInt channel_id) in
  Message_new channel data.

(** Is the future of a listener cancelled in this store? *)
Definition cancelled_in (fs : gmap addr FutureState) (l : Listener) : bool :=
  match fs !! future l with
  | Some Cancelled => true
  | _ => false
  end.

(** The indices, counted from [i], of the cancelled listeners of [ls]. *)
Fixpoint cancelled_at (fs : gmap addr FutureState) (i : nat) (ls : list Listener) : list nat :=
  match ls with
  | [] => []
  | l :: rest => (if cancelled_in fs l then [i] else []) ++ cancelled_at fs (S i) rest
  end.

(** A listener the loop passes over: its future is cancelled, or it is not
    and the predicate rejects the argument. *)
Definition passed_over (fs : gmap addr FutureState) (argument : option Guild)
    (l : Listener) : Prop :=
  is_Some (fs !! future l) /\
  (cancelled_in fs l = true \/ predicate l argument = Ok false).

(** [future.cancel()], from outside the engine. *)
Definition cancel (f : addr) (w : World) : World :=
  set_futures (<[f := Cancelled]> (futures w)) w.

(** The ids of the cached guilds, as [[s.id for s in self.guilds]] reads
    them. *)
Definition cached_guild_ids (w : World) : list Z :=
  omap (fun a => guild_id <$> guild_objs w !! a) (guilds_values w).

(** Every cached guild is an object of the store. *)
Definition guilds_stored (w : World) : Prop :=
  Forall (fun a => is_Some (guild_objs w !! a)) (guilds_values w).

Definition is_ready_dispatch (e : IO) : bool :=
  match e with
  | Dispatch ev_ready => true
  | _ => false
  end.

Definition is_guild_available (e : IO) : bool :=
  match e with
  | Dispatch (ev_guild_available _) => true
  | _ => false
  end.

(** ** The handshake, step by step *)

Definition chunk_listeners (gid : Z) (fs : list addr) : list Listener :=
  map (fun f => mkListener chunk f (chunk_predicate gid)) fs.

Definition pending_all (fs : list addr) (store : gmap addr FutureState) : gmap addr FutureState :=
  fold_left (fun s f => <[f := Pending]> s) fs store.

(** The world after the futures [fs] were created, pending, each with a
    chunk listener for the guild [gid]. *)
Definition registered (gid : Z) (fs : list addr) (w : World) : World :=
  with_self (fun s => set_listeners (_listeners s ++ chunk_listeners gid fs) s)
    (set_futures (pending_all fs (futures w))
       (set_next_addr (length fs + next_addr w)%nat w)).

(** From the first request to the end: the wait for the chunks, the sync of
    a user session, the dispatch. *)
Definition handshake_end (chunks : list addr) (w : World) : World :=
  let waited := set_io_log (io_log w ++ [Wait chunks (Z.of_nat (length chunks) * 30)]) w in
  let synced :=
    if negb (default false (is_bot (self w))) then
      set_io_log (io_log waited ++ [Log info; Syncer (cached_guild_ids w)])
        (with_self (set_ready_state None) waited)
    else with_self (set_ready_state None) waited in
  set_io_log (io_log synced ++ [Dispatch ev_ready]) synced.

(** ** Guild arrival, step by step *)

(** The guild a record builds, with the key [k] its id converts to. *)
Definition guild_of (k : Z) (old_count : Z) (d : GuildData) : Guild :=
  mkGuild k (gd_name d) (default false (gd_unavailable d)) (gd_large d)
    (default old_count (gd_member_count d)) ∅ ∅.

(** The world after [_add_guild_from_data] built the guild [g] at the next
    address. *)
Definition guild_added (g : Guild) (w : World) : World :=
  with_self (fun s => set_guilds (<[guild_id g := next_addr w]> (_guilds s)) s)
    (set_guild_objs (<[next_addr w := g]> (guild_objs w))
       (set_next_addr (S (next_addr w)) w)).

(** The guild [g] after [guild.unavailable = False; guild._from_data(d)],
    for a record whose id converts to [k]. *)
Definition merged_guild (k : Z) (g : Guild) (d : GuildData) : Guild :=
  mkGuild k (gd_name d) (default false (gd_unavailable d)) (gd_large d)
    (default (_member_count g) (gd_member_count d)) (_channels g) (_members g).


(** ** What a handler leaves alone *)

(** A computation that leaves the part [f] of the world as it was, whether it
    returns or raises. *)
Definition keeps {A B : Type} (f : World -> B) (m : M A) : Prop :=
  forall w, f (snd (m w)) = f w.

(** The parts of the world that hold guilds and the ready state. *)
Definition guild_view (w : World) : gmap Z addr * gmap addr Guild * option ReadyState :=
  (_guilds (self w), guild_objs w, _ready_state (self w)).

(** The message [m] with the reaction list [rs]. *)
Definition with_reactions (rs : list Reaction) (m : Message) : Message :=
  mkMessage (message_id m) (channel m) (content m) rs.

(** The message a reaction record points at, with its place in the buffer. *)
Definition target_message (data : ReactionData) (w : World) : option (nat * Message) :=
  find_from (fun m => py_eq_int (message_id m) (rd_message_id data)) 0%nat (messages (self w)).

(** A computation that runs the same when the [ConnectionState] was changed
    by [f] beforehand: it reads and writes the store of futures only. *)
Definition ignores_self {A : Type} (f : ConnectionState -> ConnectionState) (m : M A) : Prop :=
  forall w, m (with_self f w) = (fst (m w), with_self f (snd (m w))).

(** The channels a lookup can find are those of the cached guilds and the
    private ones. *)
Definition same_channels (w w' : World) : Prop :=
  _guilds (self w') = _guilds (self w) /\
  guild_objs w' = guild_objs w /\
  _private_channels (self w') = _private_channels (self w).

(** ** Example worlds and records *)

(** A ready record of a user session that lists one large guild. *)
Definition ex_large_guild : GuildData :=
  mkGuildData (PyStr "1") "large" None true (Some 2500).

Definition ex_ready : ReadyData :=
  mkReadyData (mkUserData (PyStr "42") "me") (Some [ex_large_guild]) (Some []).

(** The world after that record, on a new connection with the default
    buffer. *)
Definition w_ready : World := handle parse_ready ex_ready (init_world None).

(** The guild then arrives by itself, available, with an integer id. *)
Definition ex_available : GuildData :=
  mkGuildData (PyInt 1) "large" (Some false) true (Some 2500).

Definition w_pending : World := handle parse_guild_create ex_available w_ready.

(** A message in the buffer and reactions to it, with a custom and with a
    unicode emoji. *)
Definition ex_message : MessageData := mkMessageData (PyInt 10) (PyInt 20) "hi".
Definition w_message : World := handle parse_message_create ex_message w_ready.
Definition ex_custom_reaction : ReactionData :=
  mkReactionData (PyInt 10) (PyInt 42) (PyInt 20) (mkEmojiData (PyStr "7001") "blob").
Definition ex_unicode_reaction (uid : Z) : ReactionData :=
  mkReactionData (PyInt 10) (PyInt uid) (PyInt 20) (mkEmojiData PyNone "+1").

(** The message after one reaction of the local user. *)
Definition w_reacted : World :=
  handle parse_message_reaction_add (ex_unicode_reaction 42) w_message.

(** A registry with a cancelled listener, one for another guild, and two
    for the guild 9. *)
Definition w_listeners : World :=
  let w := init_world None in
  let w := snd (receive_chunk 7 w) in
  let w := snd (receive_chunk 8 w) in
  let w := snd (receive_chunk 9 w) in
  let w := snd (receive_chunk 9 w) in
  cancel 0%nat w.

Definition guild_9 : Guild := mkGuild 9 "nine" false true 1500 ∅ ∅.

(** Two guilds with a text channel each, and messages in both and in no
    cached channel. *)
Definition w_two_guilds : World :=
  let w := init_world (Some 100) in
  let g1 := mkGuild 1 "one" false false 3 {[20 := mkChannel 20 text (Some 0%nat) []]} ∅ in
  let g2 := mkGuild 2 "two" false false 4 {[21 := mkChannel 21 text (Some 1%nat) []]} ∅ in
  let w := set_next_addr 2%nat (set_guild_objs {[0%nat := g1; 1%nat := g2]} w) in
  let w := with_self (set_guilds {[1 := 0%nat; 2 := 1%nat]}) w in
  handle_all parse_message_create
    [mkMessageData (PyInt 100) (PyStr "20") "a";
     mkMessageData (PyInt 101) (PyStr "21") "b";
     mkMessageData (PyInt 102) (PyStr "20") "c";
     mkMessageData (PyInt 103) (PyStr "99") "d"] w.

(** 105 message records for one channel, and the messages they build. *)
Definition ex_records : list MessageData :=
  map (fun i => mkMessageData (PyInt (Z.of_nat i)) (PyInt 20) "m") (seq 1 105).

Definition ex_messages : list Message :=
  map (fun i => mkMessage (Z.of_nat i) None "m" []) (seq 1 105).

(** A small guild that arrives and then becomes available. *)
Definition ex_small_guild : GuildData := mkGuildData (PyStr "5") "small" None false (Some 12).
Definition ex_small_available : GuildData :=
  mkGuildData (PyInt 5) "small again" (Some false) false None.

(** ** Further notions of the registry and the handshake *)

(** The store after [set_exception(e)] on the futures of [ls] that are
    pending. *)
Definition fail_pending (e : Exn) (ls : list Listener) (fs : gmap addr FutureState) :
    gmap addr FutureState :=
  fold_left (fun fs l => match fs !! future l with
                         | Some Pending => <[future l := Failed e]> fs
                         | _ => fs
                         end) ls fs.

(** A listener whose future is pending or cancelled. *)
Definition waiting (fs : gmap addr FutureState) (l : Listener) : Prop :=
  fs !! future l = Some Pending \/ fs !! future l = Some Cancelled.

(** How many chunk futures a guild of [count] members needs. *)
Definition chunk_count (count : Z) : nat := Z.to_nat (ceil_div count 1000).

(** *** [math.ceil(n / d)] in binary64

    The source divides two ints with [/], which gives the float nearest to
    the quotient, and takes [math.ceil] of that float.  [ceil_div] is the
    ceiling of the exact quotient; the definitions below follow the float. *)

(** The integer nearest to [a / b] for [b > 0], ties to the even one. *)
Definition round_nearest_even (a b : Z) : Z :=
  let q := a / b in
  let r := a mod b in
  if 2 * r <? b then q
  else if b <? 2 * r then q + 1
  else if Z.even q then q else q + 1.

(** [floor(log2(a / b))] for [a > 0] and [b > 0]. *)
Definition log2_quotient (a b : Z) : Z :=
  let e := Z.log2 a - Z.log2 b in
  if a * 2 ^ Z.max 0 (- e) <? b * 2 ^ Z.max 0 e then e - 1 else e.

(** [n / d] on ints, for [d > 0]: the quotient rounded to the nearest
    binary64 number, 53 bits of mantissa and ties to even, as the pair
    [(m, ex)] that stands for [m * 2 ^ ex]; [None] is the [OverflowError]
    of a quotient beyond the largest float. *)
Definition true_div (n d : Z) : option (Z * Z) :=
  if n =? 0 then Some (0, 0)
  else
    let a := Z.abs n in
    let ex := log2_quotient a d - 52 in
    let m := round_nearest_even (a * 2 ^ Z.max 0 (- ex)) (d * 2 ^ Z.max 0 ex) in
    if (0 <=? ex) && (2 ^ 1024 <=? m * 2 ^ ex) then None
    else Some (Z.sgn n * m, ex).

(** [math.ceil(x)] of the float [m * 2 ^ ex]. *)
Definition float_ceil (m ex : Z) : Z :=
  - ((- (m * 2 ^ Z.max 0 ex)) / 2 ^ Z.max 0 (- ex)).

(** [math.ceil(n / d)] as the source computes it. *)
Definition ceil_true_div (n d : Z) : option Z :=
  '(m, ex) ← true_div n d; Some (float_ceil m ex).

(** The largest count up to which the exact ceiling is the one of the
    float quotient by 1000. *)
Definition max_exact_count : Z := 1000 * 2 ^ 44.

(** [range(math.ceil(count / 1000))] has this many elements. *)
Definition float_chunk_count (count : Z) : option nat :=
  Z.to_nat <$> ceil_true_div count 1000.

(** Guilds of the store whose member counts are in the range where the
    two ceilings agree. *)
Definition pending_exact (w : World) (gs : list addr) : Prop :=
  Forall (fun a => exists g, guild_objs w !! a = Some g /\
                             Z.abs (_member_count g) <= max_exact_count) gs.

(** The number of chunk futures the pending guilds [gs] need, and the
    listeners [_delay_ready] registers for them from the address [next] on. *)
Fixpoint planned (objs : gmap addr Guild) (gs : list addr) : nat :=
  match gs with
  | [] => 0%nat
  | a :: rest =>
      match objs !! a with
      | Some g => (chunk_count (_member_count g) + planned objs rest)%nat
      | None => 0%nat
      end
  end.

Fixpoint planned_listeners (objs : gmap addr Guild) (next : addr) (gs : list addr) :
    list Listener :=
  match gs with
  | [] => []
  | a :: rest =>
      match objs !! a with
      | Some g =>
          let n := chunk_count (_member_count g) in
          chunk_listeners (guild_id g) (seq next n) ++ planned_listeners objs (n + next)%nat rest
      | None => []
      end
  end.

(** The world after the ready state was discarded, the sync request of a
    user session sent and ['ready'] dispatched. *)
Definition ready_dispatched (w : World) : World :=
  let synced :=
    if negb (default false (is_bot (self w))) then
      set_io_log (io_log w ++ [Log info; Syncer (cached_guild_ids w)])
        (with_self (set_ready_state None) w)
    else with_self (set_ready_state None) w in
  set_io_log (io_log synced ++ [Dispatch ev_ready]) synced.

(** The wait on the chunks, when there are any. *)
Definition chunks_awaited (chunks : list addr) (w : World) : World :=
  match chunks with
  | [] => w
  | _ => set_io_log (io_log w ++ [Wait chunks (Z.of_nat (length chunks) * 30)]) w
  end.

(** The world at the end of the handshake, from the world [w] in which the
    quiet period ended with the pending list [gs]. *)
Definition handshake_done (gs : list addr) (w : World) : World :=
  let n := planned (guild_objs w) gs in
  let chunks := seq (next_addr w) n in
  let w1 :=
    with_self (fun s => set_listeners
                 (_listeners s ++ planned_listeners (guild_objs w) (next_addr w) gs) s)
      (set_futures (pending_all chunks (futures w))
         (set_next_addr (n + next_addr w)%nat w)) in
  ready_dispatched
    (chunks_awaited chunks (set_io_log (io_log w1 ++ map Chunker (splits75 gs)) w1)).

(** A registry in which the future of a listener was given a result from
    outside the engine. *)
Definition w_resolved_outside : World :=
  set_futures (<[2%nat := Finished 0]> (futures w_listeners)) w_listeners.

(** A guild that is not in the cache. *)
Definition guild_5 : Guild := mkGuild 5 "five" false false 12 ∅ ∅.

(** Two hundred guilds of 1500 members in the store, all pending, the
    launch event set. *)
Definition w_many_pending : World :=
  let w := init_world None in
  let objs : gmap addr Guild :=
    list_to_map (map (fun i => (i, mkGuild (Z.of_nat i) "g" false true 1500 ∅ ∅)) (seq 1 200)) in
  let w := set_events {[0%nat := true]} (set_next_addr 201%nat (set_guild_objs objs w)) in
  with_self (set_ready_state (Some (mkReadyState 0%nat (seq 1 200)))) w.

(** ** Further handlers on the cache *)

(** [parse_user_update(self, data)] *)
Definition parse_user_update (data : UserData) : M unit :=
  let* u := User_new data in
  modify (with_self (set_user (Some u))).


(** Has some guild of [gs] a channel under [id]? *)
Definition guild_channel_in (w : World) (gs : list addr) (id : PyVal) (c : Channel) : Prop :=
  exists a g, a ∈ gs /\ guild_objs w !! a = Some g /\ py_dict_get (_channels g) id = Some c.

(** A private channel with the id of a guild channel of [w_two_guilds]. *)
Definition w_collision : World :=
  with_self (set_private_channels {[20 := mkChannel 20 group None []; 30 := mkChannel 30 group None []]})
    w_two_guilds.

(** ** Handlers that dispatch further events

    The handlers below dispatch events that the ones above do not.  Their
    dispatches are kept in a log of their own, next to the world: the
    engine. *)

Record MessageDeleteData : Type := mkMessageDeleteData {
  mdel_id : PyVal;
}.

Record BulkDeleteData : Type := mkBulkDeleteData {
  bulk_ids : option (list PyVal);   (* [data.get('ids', [])] *)
}.

Record ReactionClearData : Type := mkReactionClearData {
  rc_message_id : PyVal;
}.

Record ChannelDeleteData : Type := mkChannelDeleteData {
  chd_guild_id : option PyVal;      (* absent, null or an id *)
  chd_id : PyVal;
}.

Inductive Signal : Type :=
| ev_resumed
| ev_message_delete (m : Message)
| ev_reaction_clear (m : Message) (old_reactions : list Reaction)
| ev_channel_delete (c : Channel).

Record Engine : Type := mkEngine {
  world : World;
  signals : list Signal;
}.

Definition EngineM (A : Type) : Type := Engine -> Result A * Engine.

Definition retE {A : Type} (a : A) : EngineM A := fun e => (Ok a, e).
Definition bindE {A B : Type} (m : EngineM A) (k : A -> EngineM B) : EngineM B :=
  fun e => match m e with
           | (Ok a, e') => k a e'
           | (Raise x, e') => (Raise x, e')
           end.

(** A computation on the world, run in the engine. *)
Definition liftM {A : Type} (m : M A) : EngineM A :=
  fun e => (fst (m (world e)), mkEngine (snd (m (world e))) (signals e)).

(** [self.dispatch(...)] for the events of this part. *)
Definition signal (s : Signal) : EngineM unit :=
  fun e => (Ok tt, mkEngine (world e) (signals e ++ [s])).

Notation "'let+' x ':=' m 'in' k" := (bindE m (fun x => k))
  (at level 10, x name, m at level 100, k at level 200).
Notation "m ';;+' k" := (bindE m (fun _ => k))
  (at level 100, k at level 200, right associativity).

Fixpoint forE_ {A : Type} (l : list A) (f : A -> EngineM unit) : EngineM unit :=
  match l with
  | [] => retE tt
  | x :: rest => f x ;;+ forE_ rest f
  end.

(** [parse_resumed(self, data)] *)
Definition parse_resumed : EngineM unit := signal ev_resumed.

(** *** Deleting messages *)

#[global] Instance ChannelType_eq_dec : EqDecision ChannelType := ltac:(solve_decision).
#[global] Instance User_eq_dec : EqDecision User := ltac:(solve_decision).
#[global] Instance Channel_eq_dec : EqDecision Channel := ltac:(solve_decision).
#[global] Instance Emoji_eq_dec : EqDecision Emoji := ltac:(solve_decision).
#[global] Instance Reaction_eq_dec : EqDecision Reaction := ltac:(solve_decision).
#[global] Instance Message_eq_dec : EqDecision Message := ltac:(solve_decision).

(** [deque.remove(value)]: the first entry equal to the value leaves, and
    there is a [ValueError] when no entry is.  Modelled from the spec: the
    comparison of messages (message.py is not in src/): a message of the
    buffer equals itself, and messages that agree on every field are not
    told apart. *)
Fixpoint deque_remove {A : Type} `{EqDecision A} (x : A) (d : list A) : Result (list A) :=
  match d with
  | [] => Raise ValueError
  | y :: rest =>
      if decide (y = x) then Ok rest
      else match deque_remove x rest with
           | Ok rest' => Ok (y :: rest')
           | Raise e => Raise e
           end
  end.

(** [self.messages.remove(msg)] *)
Definition messages_remove (msg : Message) : M unit :=
  let* ms := gets (fun w => messages (self w)) in
  let* ms' := lift (deque_remove msg ms) in
  modify (with_self (set_messages ms')).

(** [parse_message_delete(self, data)] *)
Definition parse_message_delete (data : MessageDeleteData) : EngineM unit :=
  let+ message_id := liftM (lift (py_int (mdel_id data))) in
  let+ found := liftM (_get_message (PyInt message_id)) in
  match found with
  | Some (_, found) =>
      signal (ev_message_delete found) ;;+
      liftM (messages_remove found)
  | None => retE tt
  end.

(** [m.id in message_ids] *)
Definition id_in (message_ids : list Z) (m : Message) : bool :=
  existsb (Z.eqb (message_id m)) message_ids.

(** [parse_message_delete_bulk(self, data)] *)
Definition parse_message_delete_bulk (data : BulkDeleteData) : EngineM unit :=
  let+ message_ids := liftM (mapM (fun v => lift (py_int v)) (default [] (bulk_ids data))) in
  let+ ms := liftM (gets (fun w => messages (self w))) in
  let to_be_deleted := List.filter (id_in message_ids) ms in
  forE_ to_be_deleted (fun msg =>
    signal (ev_message_delete msg) ;;+
    liftM (messages_remove msg)).

(** [parse_message_reaction_remove_all(self, data)] *)
Definition parse_message_reaction_remove_all (data : ReactionClearData) : EngineM unit :=
  let+ found := liftM (_get_message (rc_message_id data)) in
  match found with
  | Some (i, message) =>
      let old_reactions := reactions message in
      liftM (set_reactions i message []) ;;+
      signal (ev_reaction_clear (with_reactions [] message) old_reactions)
  | None => retE tt
  end.

(** *** Deleting channels *)

(** [_get_private_channel(self, channel_id)] *)
Definition _get_private_channel (channel_id : Z) : M (option Channel) :=
  gets (fun w => _private_channels (self w) !! channel_id).

(** [_get_private_channel_by_user(self, user_id)] *)
Definition _get_private_channel_by_user (uid : Z) : M (option Channel) :=
  gets (fun w => _private_channels_by_user (self w) !! uid).

(** [_remove_private_channel(self, channel)]: the first thing read is
    [channel.id], also when the channel is [None]. *)
Definition _remove_private_channel (channel : option Channel) : M unit :=
  match channel with
  | None => raise AttributeError
  | Some channel =>
      modify (with_self (fun s =>
        set_private_channels (delete (channel_id channel) (_private_channels s)) s)) ;;;
      match channel_type channel with
      | private =>
          match recipients channel with
          | recipient :: _ =>
              modify (with_self (fun s =>
                set_private_channels_by_user
                  (delete (user_id recipient) (_private_channels_by_user s)) s))
          | [] => raise IndexError
          end
      | _ => ret tt
      end
  end.

(** Modelled from the spec: [utils._get_as_snowflake(data, key)] (utils.py
    is not in src/): the id under the key as an int, [None] when the record
    has no id there. *)
Definition _get_as_snowflake (v : option PyVal) : Result (option Z) :=
  match v with
  | None | Some PyNone => Ok None
  | Some v =>
      match py_int v with
      | Ok z => Ok (Some z)
      | Raise e => Raise e
      end
  end.

(** Modelled from the spec: [guild._remove_channel(channel)] (guild.py is
    not in src/): "guild channels are owned by a Guild", under their id. *)
Definition _remove_channel (c : Channel) (g : Guild) : Guild :=
  mkGuild (guild_id g) (guild_name g) (unavailable g) (large g) (_member_count g)
    (delete (channel_id c) (_channels g)) (_members g).

(** [parse_channel_delete(self, data)] *)
Definition parse_channel_delete (data : ChannelDeleteData) : EngineM unit :=
  let+ guild_id := liftM (lift (_get_as_snowflake (chd_guild_id data))) in
  let+ guild := liftM (match guild_id with
                       | Some id => _get_guild id
                       | None => ret None       (* [self._guilds.get(None)] *)
                       end) in
  let+ channel_id := liftM (lift (py_int (chd_id data))) in
  match guild with
  | Some guild =>
      let+ g := liftM (deref_guild guild) in
      match _channels g !! channel_id with       (* [guild.get_channel(channel_id)] *)
      | Some channel =>
          liftM (store_guild guild (_remove_channel channel g)) ;;+
          signal (ev_channel_delete channel)
      | None => retE tt
      end
  | None =>
      let+ channel := liftM (_get_private_channel channel_id) in
      liftM (_remove_private_channel channel)
  end.

(** ** The engine under a stream of events *)

(** What the gateway and the loop make the engine do: a handler on the
    record of an event, a call of [process_listeners] for the chunk
    listeners, a turn of a task. *)
Inductive Event : Type :=
| READY (d : ReadyData)
| RESUMED
| USER_UPDATE (d : UserData)
| GUILD_CREATE (d : GuildData)
| GUILD_DELETE (d : GuildDeleteData)
| CHANNEL_DELETE (d : ChannelDeleteData)
| MESSAGE_CREATE (d : MessageData)
| MESSAGE_DELETE (d : MessageDeleteData)
| MESSAGE_DELETE_BULK (d : BulkDeleteData)
| MESSAGE_REACTION_ADD (d : ReactionData)
| MESSAGE_REACTION_REMOVE (d : ReactionData)
| MESSAGE_REACTION_REMOVE_ALL (d : ReactionClearData)
| Listeners (argument : option Guild) (result : Z)
| Turn (t : Task).

Definition on_event (ev : Event) : EngineM unit :=
  match ev with
  | READY d => liftM (parse_ready d)
  | RESUMED => parse_resumed
  | USER_UPDATE d => liftM (parse_user_update d)
  | GUILD_CREATE d => liftM (parse_guild_create d)
  | GUILD_DELETE d => liftM (parse_guild_delete d)
  | CHANNEL_DELETE d => parse_channel_delete d
  | MESSAGE_CREATE d => liftM (parse_message_create d)
  | MESSAGE_DELETE d => parse_message_delete d
  | MESSAGE_DELETE_BULK d => parse_message_delete_bulk d
  | MESSAGE_REACTION_ADD d => liftM (parse_message_reaction_add d)
  | MESSAGE_REACTION_REMOVE d => liftM (parse_message_reaction_remove d)
  | MESSAGE_REACTION_REMOVE_ALL d => parse_message_reaction_remove_all d
  | Listeners argument result => liftM (process_listeners chunk argument result)
  | Turn t => liftM (resume t ;;; ret tt)
  end.

(** The events one after the other; an exception ends the handler that
    raised it and the stream goes on. *)
Definition run_events (evs : list Event) (e : Engine) : Engine :=
  fold_left (fun e ev => snd (on_event ev e)) evs e.

(** A new connection. *)
Definition init_engine (option_max_messages : option Z) : Engine :=
  mkEngine (init_world option_max_messages) [].

(** *** What holds of every world the engine reaches *)

(** The guild cache: every key leads to a guild of the store that has the
    key as its id; the store holds objects that were allocated; the pending
    guilds of a ready state are in the store and its launch event exists. *)
Record guilds_sound (w : World) : Prop := mkGuildsSound {
  sound_keys : forall k a, _guilds (self w) !! k = Some a ->
               exists g, guild_objs w !! a = Some g /\ guild_id g = k;
  sound_addrs : forall a, is_Some (guild_objs w !! a) -> (a < next_addr w)%nat;
  sound_ready : forall rs, _ready_state (self w) = Some rs ->
                is_Some (events w !! launch rs) /\
                Forall (fun a => is_Some (guild_objs w !! a)) (guilds rs);
}.

(** A message whose rows all count at least one reaction. *)
Definition rows_positive (m : Message) : Prop :=
  Forall (fun r => 1 <= count r) (reactions m).

(** The buffer: within its capacity; no row with a count below 1; no row at
    all before the local user is known. *)
Record buffer_sound (w : World) : Prop := mkBufferSound {
  sound_capacity : 0 < max_messages (self w);
  sound_length : Z.of_nat (length (messages (self w))) <= max_messages (self w);
  sound_rows : Forall rows_positive (messages (self w));
  sound_no_user : user (self w) = None ->
                  Forall (fun m => reactions m = []) (messages (self w));
}.

(** A computation whose world after is always related by [R] to the world
    before, whether it returns or raises; and the same in the engine. *)
Definition always {A : Type} (R : World -> World -> Prop) (m : M A) : Prop :=
  forall w, R w (snd (m w)).

Definition alwaysE {A : Type} (R : World -> World -> Prop) (m : EngineM A) : Prop :=
  forall e, R (world e) (world (snd (m e))).

(** The relation of a step that keeps what holds of the world. *)
Definition preserving (I : World -> Prop) (w w' : World) : Prop := I w -> I w'.

(** A step that leaves the guild cache, the store and the ready state as
    they are, and may allocate and create events. *)
Definition guilds_frame (w w' : World) : Prop :=
  _guilds (self w') = _guilds (self w) /\
  guild_objs w' = guild_objs w /\
  _ready_state (self w') = _ready_state (self w) /\
  (next_addr w <= next_addr w')%nat /\
  forall l, is_Some (events w !! l) -> is_Some (events w' !! l).

(** A step that leaves the buffer and its capacity as they are, and does
    not forget the local user. *)
Definition buffer_frame (w w' : World) : Prop :=
  max_messages (self w') = max_messages (self w) /\
  messages (self w') = messages (self w) /\
  (user (self w') = None -> user (self w) = None).

(** A step that may change the buffer, but neither its capacity nor,
    other than by setting it, the local user. *)
Definition capacity_frame (w w' : World) : Prop :=
  max_messages (self w') = max_messages (self w) /\
  (user (self w') = None -> user (self w) = None).

(** What holds of every world the engine reaches. *)
Definition sound (w : World) : Prop := guilds_sound w /\ buffer_sound w.

(** ** Further example worlds *)

(** A small guild in the cache of a new connection. *)
Definition w_small : World := handle parse_guild_create ex_small_guild (init_world None).

(** A buffer in which two messages carry the same id. *)
Definition e_duplicates : Engine :=
  mkEngine
    (handle_all parse_message_create
       [mkMessageData (PyInt 10) (PyInt 20) "a";
        mkMessageData (PyInt 11) (PyInt 20) "b";
        mkMessageData (PyInt 10) (PyInt 20) "c"] (init_world None))
    [].

(** * Properties *)

(** ** Generic facts *)

Lemma delete_indices_app {A : Type} (xs ys : list nat) (l : list A) :
  delete_indices (xs ++ ys) l = delete_indices xs (delete_indices ys l).
Proof.
  unfold delete_indices. by rewrite rev_app_distr, fold_left_app.
Qed.

Lemma delete_indices_nil {A : Type} (l : list A) : delete_indices [] l = l.
Proof. reflexivity. Qed.

Lemma delete_indices_one {A : Type} (i : nat) (l : list A) :
  delete_indices [i] l = delete i l.
Proof. reflexivity. Qed.

Lemma delete_cancelled (fs : gmap addr FutureState) (pre front post : list Listener) :
  delete_indices (cancelled_at fs (length front) pre) (front ++ pre ++ post) =
  front ++ List.filter (fun l => negb (cancelled_in fs l)) pre ++ post.
Proof.
  revert front. induction pre as [|l pre IH]; intros front; [done|].
  cbn [cancelled_at List.filter]. rewrite delete_indices_app.
  replace (front ++ (l :: pre) ++ post) with ((front ++ [l]) ++ pre ++ post)
    by (by rewrite <- app_assoc).
  replace (S (length front)) with (length (front ++ [l]))
    by (rewrite length_app; simpl; lia).
  rewrite IH. destruct (cancelled_in fs l); cbn [negb].
  - rewrite delete_indices_one, <- app_assoc. cbn [app].
    by rewrite delete_middle.
  - rewrite delete_indices_nil, <- app_assoc. done.
Qed.

(** ** try_insert_user *)

(** C6: two [try_insert_user] calls with records of the same id: the second
    returns the very user the first returned (same object tag, same fields)
    and leaves the world as it was, so no user is constructed; when the id
    was not cached, the first call constructs a new object and inserts it. *)
Theorem try_insert_user_stable (w : World) (d1 d2 : UserData) (k : Z) :
  py_int (ud_id d1) = Ok k ->
  py_int (ud_id d2) = Ok k ->
  exists u w1,
    try_insert_user d1 w = (Ok u, w1) /\
    try_insert_user d2 w1 = (Ok u, w1) /\
    _users (self w1) !! k = Some u /\
    (_users (self w) !! k = None ->
       u = mkUser (next_addr w) k (ud_username d1) /\
       w1 = with_self (set_users (<[k := u]> (_users (self w))))
              (set_next_addr (S (next_addr w)) w)).
Proof.
  intros H1 H2.
  unfold try_insert_user, bind, lift, gets. rewrite H1, H2.
  destruct (_users (self w) !! k) as [u|] eqn:Hu.
  - exists u, w. cbn. rewrite Hu. cbn. done.
  - unfold User_new, bind, lift, alloc, modify, ret. rewrite H1. cbn.
    eexists _, _. split; [reflexivity|]. cbn. rewrite lookup_insert_eq. done.
Qed.

(** ** The listener registry *)

Lemma process_loop_passed_over (t : ListenerType) (argument : option Guild) (result : Z)
    (pre rest : list Listener) (i : nat) (removed : list nat) (w : World) :
  Forall (passed_over (futures w) argument) pre ->
  process_loop t argument result i (pre ++ rest) removed w =
  process_loop t argument result (i + length pre) rest
    (removed ++ cancelled_at (futures w) i pre) w.
Proof.
  revert i removed. induction pre as [|l pre IH]; intros i removed Hpre.
  - cbn. by rewrite Nat.add_0_r, app_nil_r.
  - inversion Hpre as [|? ? [[s Hs] Hl] Hpre']; subst. clear Hpre.
    cbn [app process_loop cancelled_at length].
    destruct t, (type l). cbn [ListenerType_eqb negb].
    unfold bind at 1. unfold future_cancelled at 1. unfold cancelled_in in *.
    rewrite Hs in *.
    replace (i + S (length pre))%nat with (S i + length pre)%nat by lia.
    destruct s; try (by rewrite IH, ?app_assoc by done);
      destruct Hl as [Hl|Hl]; try discriminate Hl;
      rewrite Hl; by rewrite IH, ?app_nil_r by done.
Qed.

Lemma process_loop_match (argument : option Guild) (result : Z)
    (m : Listener) (post : list Listener) (i : nat) (removed : list nat) (w : World) :
  futures w !! future m = Some Pending ->
  predicate m argument = Ok true ->
  process_loop chunk argument result i (m :: post) removed w =
  (Ok (removed ++ [i]), set_futures (<[future m := Finished result]> (futures w)) w).
Proof.
  intros Hm Hp. cbn [process_loop]. destruct (type m). cbn [ListenerType_eqb negb].
  unfold bind, future_cancelled, future_set_result, future_resolve, ret.
  rewrite Hm, Hp. cbn. by rewrite Hm.
Qed.

(** C7: resolving the chunk class with a guild as argument, when [m] is the
    first listener that is not cancelled and whose predicate accepts the
    guild (the listeners before it are cancelled or reject it): the future of
    [m] alone is fulfilled, with [result]; [m] leaves the registry together
    with the cancelled listeners met before it, whose futures stay as they
    were; the listeners after [m] are not looked at, and every listener that
    stays keeps its place in the order. *)
Theorem process_listeners_first_match (w : World) (g : Guild) (result : Z)
    (pre post : list Listener) (m : Listener) :
  _listeners (self w) = pre ++ m :: post ->
  Forall (passed_over (futures w) (Some g)) pre ->
  futures w !! future m = Some Pending ->
  predicate m (Some g) = Ok true ->
  process_listeners chunk (Some g) result w =
  (Ok tt,
   with_self
     (set_listeners
        (List.filter (fun l => negb (cancelled_in (futures w) l)) pre ++ post))
     (set_futures (<[future m := Finished result]> (futures w)) w)).
Proof.
  intros Hls Hpre Hm Hp.
  unfold process_listeners, bind at 1, gets. rewrite Hls.
  unfold bind. rewrite (process_loop_passed_over _ _ _ _ _ _ _ _ Hpre).
  rewrite (process_loop_match _ _ _ _ _ _ _ Hm Hp).
  unfold modify. f_equal. unfold with_self. cbn. rewrite Hls. f_equal.
  unfold set_listeners. f_equal.
  change (delete_indices (cancelled_at (futures w) 0 pre ++ [length pre]) (pre ++ m :: post) =
          List.filter (fun l => negb (cancelled_in (futures w) l)) pre ++ post).
  rewrite delete_indices_app, delete_indices_one.
  cbn [app]. rewrite delete_middle.
  exact (delete_cancelled (futures w) pre [] post).
Qed.

(** Listeners registered by [receive_chunk] never raise on a guild, and
    accept exactly the guild they were registered for. *)
Lemma chunk_predicate_guild (wanted : Z) (g : Guild) :
  chunk_predicate wanted (Some g) = Ok (guild_id g =? wanted).
Proof. reflexivity. Qed.

(** ** clear *)

Section IgnoresSelf.
Context (f : ConnectionState -> ConnectionState).

Lemma ignores_self_ret {A : Type} (a : A) : ignores_self f (ret a).
Proof. by intros w. Qed.

Lemma ignores_self_bind {A B : Type} (m : M A) (k : A -> M B) :
  ignores_self f m -> (forall a, ignores_self f (k a)) -> ignores_self f (bind m k).
Proof.
  intros Hm Hk w. unfold bind. rewrite Hm.
  destruct (m w) as [[a|e] w']; cbn; [apply Hk|done].
Qed.

Lemma ignores_self_future_cancelled (a : addr) : ignores_self f (future_cancelled a).
Proof.
  intros w. unfold future_cancelled. cbn [futures with_self].
  by destruct (futures w !! a) as [[| | |]|].
Qed.

Lemma ignores_self_future_resolve (a : addr) (v : FutureState) :
  ignores_self f (future_resolve a v).
Proof.
  intros w. unfold future_resolve. cbn [futures with_self].
  by destruct (futures w !! a) as [[| | |]|].
Qed.

Lemma ignores_self_process_loop (t : ListenerType) (argument : option Guild)
    (result : Z) (ls : list Listener) (i : nat) (removed : list nat) :
  ignores_self f (process_loop t argument result i ls removed).
Proof.
  revert i removed. induction ls as [|l ls IH]; intros i removed.
  - apply ignores_self_ret.
  - cbn [process_loop].
    destruct (negb (ListenerType_eqb (type l) t)); [apply IH|].
    apply ignores_self_bind; [apply ignores_self_future_cancelled|].
    intros [|]; [apply IH|].
    destruct (predicate l argument) as [[|]|e].
    + apply ignores_self_bind; [apply ignores_self_future_resolve|]. intros _.
      destruct (ListenerType_eqb (type l) chunk); [apply ignores_self_ret|apply IH].
    + apply IH.
    + apply ignores_self_bind; [apply ignores_self_future_resolve|]. intros _. apply IH.
Qed.
End IgnoresSelf.

(** C10: [clear()] empties the user, the sequence, the session id, the
    calls, users, guilds, voice clients, private channels (with the index by
    user) and the message buffer, and leaves the listener registry as it was:
    every listener registered before is registered afterwards, in the same
    place.  A later chunk event still resolves it: after the [clear()],
    [process_listeners] on a guild fulfils, with the result, the future of the
    first listener that is pending and accepts the guild, and removes that
    listener and the cancelled ones before it.  In general a
    [process_listeners] call after the [clear()] resolves the listeners
    exactly as it would have without it: same outcome, same futures, same
    remaining listeners. *)
Theorem clear_keeps_listeners (w : World) :
  let s := clear (self w) in
  (user s = None /\ sequence s = None /\ session_id s = None /\
   _calls s = ∅ /\ _users s = ∅ /\ _guilds s = ∅ /\ _voice_clients s = ∅ /\
   _private_channels s = ∅ /\ _private_channels_by_user s = ∅ /\ messages s = []) /\
  _listeners s = _listeners (self w) /\
  (forall (t : ListenerType) (argument : option Guild) (result : Z),
     process_listeners t argument result (with_self clear w) =
     (fst (process_listeners t argument result w),
      with_self clear (snd (process_listeners t argument result w)))) /\
  forall (g : Guild) (result : Z) (pre post : list Listener) (m : Listener),
    _listeners (self w) = pre ++ m :: post ->
    Forall (passed_over (futures w) (Some g)) pre ->
    futures w !! future m = Some Pending ->
    predicate m (Some g) = Ok true ->
    process_listeners chunk (Some g) result (with_self clear w) =
    (Ok tt,
     with_self
       (set_listeners
          (List.filter (fun l => negb (cancelled_in (futures w) l)) pre ++ post))
       (set_futures (<[future m := Finished result]> (futures w)) (with_self clear w))).
Proof.
  cbn zeta. split; [by repeat split|]. split; [done|]. split.
  - intros t argument result.
    unfold process_listeners, bind at 1 3 4. unfold gets at 1 2 3.
    unfold bind. cbn [self with_self clear _listeners].
    rewrite (ignores_self_process_loop clear).
    destruct (process_loop t argument result 0 (_listeners (self w)) [] w)
      as [[removed|e] w']; reflexivity.
  - intros g result pre post m Hls Hpre Hm Hp.
    set (w1 := with_self clear w).
    assert (Hls1 : _listeners (self w1) = pre ++ m :: post) by exact Hls.
    assert (Hpre1 : Forall (passed_over (futures w1) (Some g)) pre) by exact Hpre.
    assert (Hm1 : futures w1 !! future m = Some Pending) by exact Hm.
    change (futures w) with (futures w1). clearbody w1.
    unfold process_listeners, bind at 1, gets. rewrite Hls1.
    unfold bind. rewrite (process_loop_passed_over _ _ _ _ _ _ _ _ Hpre1).
    rewrite (process_loop_match _ _ _ _ _ _ _ Hm1 Hp).
    unfold modify. f_equal. unfold with_self. cbn. rewrite Hls1. f_equal.
    unfold set_listeners. f_equal.
    change (delete_indices (cancelled_at (futures w1) 0 pre ++ [length pre])
              (pre ++ m :: post) =
            List.filter (fun l => negb (cancelled_in (futures w1) l)) pre ++ post).
    rewrite delete_indices_app, delete_indices_one.
    cbn [app]. rewrite delete_middle.
    exact (delete_cancelled (futures w1) pre [] post).
Qed.

(** ** The message buffer *)

Lemma deque_append_drop {A : Type} (maxlen : Z) (x : A) (d : list A) :
  0 < maxlen ->
  Z.of_nat (length d) <= maxlen ->
  deque_append maxlen x d = drop (length (d ++ [x]) - Z.to_nat maxlen) (d ++ [x]).
Proof.
  intros Hpos Hlen. unfold deque_append.
  rewrite length_app. cbn [length].
  destruct (Z.gtb_spec (Z.of_nat (length d + 1)) maxlen) as [Hgt|Hle].
  - replace (length d + 1 - Z.to_nat maxlen)%nat with 1%nat by lia.
    destruct d; [cbn in *; lia|done].
  - replace (length d + 1 - Z.to_nat maxlen)%nat with 0%nat by lia. done.
Qed.

(** Appending at capacity evicts the oldest entry and nothing else. *)
Lemma deque_append_full {A : Type} (maxlen : Z) (x : A) (d : list A) :
  0 < maxlen ->
  Z.of_nat (length d) = maxlen ->
  deque_append maxlen x d = tail d ++ [x].
Proof.
  intros Hpos Hlen. unfold deque_append. rewrite length_app. cbn [length].
  destruct (Z.gtb_spec (Z.of_nat (length d + 1)) maxlen); [|lia].
  destruct d; [cbn in *; lia|done].
Qed.

Lemma deque_append_length {A : Type} (maxlen : Z) (x : A) (d : list A) :
  0 < maxlen ->
  Z.of_nat (length d) <= maxlen ->
  Z.of_nat (length (deque_append maxlen x d)) <= maxlen.
Proof.
  intros Hpos Hlen. rewrite deque_append_drop by done.
  rewrite length_drop, length_app. cbn [length]. lia.
Qed.

Lemma deque_appends_drop {A : Type} (maxlen : Z) (xs d : list A) :
  0 < maxlen ->
  Z.of_nat (length d) <= maxlen ->
  fold_left (fun d x => deque_append maxlen x d) xs d =
  drop (length (d ++ xs) - Z.to_nat maxlen) (d ++ xs).
Proof.
  intros Hpos. revert d. induction xs as [|x xs IH]; intros d Hlen.
  - cbn [fold_left]. rewrite app_nil_r.
    replace (length d - Z.to_nat maxlen)%nat with 0%nat by lia. done.
  - cbn [fold_left]. rewrite IH by (by apply deque_append_length).
    rewrite deque_append_drop by done.
    replace (d ++ x :: xs) with ((d ++ [x]) ++ xs) by (by rewrite <- app_assoc).
    set (l := d ++ [x]).
    assert (Hl : length l = S (length d)) by (unfold l; rewrite length_app; cbn; lia).
    rewrite <- (drop_app_le l xs) by lia.
    rewrite drop_drop. f_equal.
    rewrite length_drop, !length_app. lia.
Qed.

(** [deque(iterable, maxlen)] keeps a list that fits as it is. *)
Lemma deque_of_list_fits {A : Type} (maxlen : Z) (l : list A) :
  0 < maxlen ->
  Z.of_nat (length l) <= maxlen ->
  deque_of_list maxlen l = l.
Proof.
  intros Hpos Hlen. unfold deque_of_list.
  rewrite deque_appends_drop by (cbn; lia). cbn [app].
  replace (length l - Z.to_nat maxlen)%nat with 0%nat by lia. done.
Qed.

Lemma find_guild_channel_frame (id : PyVal) (gs : list addr) (w w' : World) :
  guild_objs w' = guild_objs w ->
  find_guild_channel id gs w' = (fst (find_guild_channel id gs w), w').
Proof.
  intros Hobjs. induction gs as [|a gs IH]; [done|].
  cbn [find_guild_channel]. unfold bind, deref_guild. rewrite Hobjs.
  destruct (guild_objs w !! a) as [g|]; [|done].
  destruct (py_dict_get (_channels g) id); [done|apply IH].
Qed.

Lemma get_channel_frame (id : PyVal) (w w' : World) :
  same_channels w w' ->
  get_channel id w' = (fst (get_channel id w), w').
Proof.
  intros (Hg & Hobjs & Hp).
  assert (forall i, i <> PyNone ->
    (let* gs := gets guilds_values in
     let* channel := find_guild_channel i gs in
     match channel with
     | Some c => ret (Some c)
     | None => gets (fun w => py_dict_get (_private_channels (self w)) i)
     end) w' =
    (fst ((let* gs := gets guilds_values in
           let* channel := find_guild_channel i gs in
           match channel with
           | Some c => ret (Some c)
           | None => gets (fun w => py_dict_get (_private_channels (self w)) i)
           end) w), w')) as H.
  { intros i _. unfold bind at 1 3. unfold gets at 1 3. unfold guilds_values. rewrite Hg.
    unfold bind. rewrite (find_guild_channel_frame i _ w w' Hobjs).
    destruct (find_guild_channel i _ w) as [[[c|]|e] w1] eqn:E; cbn; try done.
    rewrite (find_guild_channel_frame i _ w w eq_refl) in E.
    injection E as _ <-. unfold gets. by rewrite Hp. }
  destruct id; [done|by apply H..].
Qed.

Lemma created_message_frame (d : MessageData) (w w' : World) :
  same_channels w w' ->
  created_message d w' = (fst (created_message d w), w').
Proof.
  intros Hsame. unfold created_message, bind, lift.
  destruct (py_int (md_channel_id d)) as [cid|e]; [|done].
  rewrite (get_channel_frame _ w w' Hsame).
  assert (Hrefl : same_channels w w) by done.
  pose proof (get_channel_frame (PyInt cid) w w Hrefl) as E.
  destruct (get_channel (PyInt cid) w) as [[c|e] w1]; cbn in *; [|done].
  injection E as <-.
  unfold Message_new, bind, lift. by destruct (py_int (md_id d)).
Qed.

(** What [parse_message_create] does to the world: nothing when building
    the message raises, else one dispatch and one append. *)
Lemma parse_message_create_world (d : MessageData) (w : World) :
  handle parse_message_create d w =
  match fst (created_message d w) with
  | Ok m =>
      with_self (fun s => set_messages (deque_append (max_messages s) m (messages s)) s)
        (set_io_log (io_log w ++ [Dispatch (ev_message m)]) w)
  | Raise _ => w
  end.
Proof.
  assert (Hrefl : same_channels w w) by done.
  pose proof (created_message_frame d w w Hrefl) as E.
  unfold handle, parse_message_create, created_message in *. unfold bind in *.
  destruct (lift (py_int (md_channel_id d)) w) as [[cid|e] w1]; [|by injection E as <-].
  destruct (get_channel (PyInt cid) w1) as [[c|e] w2]; [|by injection E as <-].
  destruct (Message_new c d w2) as [[m|e] w3]; injection E as <-; done.
Qed.

Lemma parse_message_create_frame (d : MessageData) (w : World) :
  same_channels w (handle parse_message_create d w) /\
  max_messages (self (handle parse_message_create d w)) = max_messages (self w).
Proof.
  rewrite parse_message_create_world.
  by destruct (fst (created_message d w)).
Qed.

Lemma parse_message_create_bounded (d : MessageData) (w : World) :
  0 < max_messages (self w) ->
  Z.of_nat (length (messages (self w))) <= max_messages (self w) ->
  Z.of_nat (length (messages (self (handle parse_message_create d w)))) <= max_messages (self w).
Proof.
  intros Hpos Hlen. rewrite parse_message_create_world.
  destruct (fst (created_message d w)); [|done].
  cbn. by apply deque_append_length.
Qed.

Lemma message_creates_bounded (ds : list MessageData) (w : World) :
  0 < max_messages (self w) ->
  Z.of_nat (length (messages (self w))) <= max_messages (self w) ->
  max_messages (self (handle_all parse_message_create ds w)) = max_messages (self w) /\
  Z.of_nat (length (messages (self (handle_all parse_message_create ds w)))) <=
    max_messages (self w).
Proof.
  revert w. induction ds as [|d ds IH]; intros w Hpos Hlen; [done|].
  cbn [handle_all fold_left].
  destruct (parse_message_create_frame d w) as [_ Hmax].
  pose proof (parse_message_create_bounded d w Hpos Hlen) as Hlen'.
  destruct (IH (handle parse_message_create d w)) as [IH1 IH2];
    rewrite ?Hmax; try done.
  unfold handle_all in *. rewrite IH1, <- Hmax. split; [done|].
  by rewrite Hmax in IH2 |- *.
Qed.

Lemma message_creates_appended (w0 : World) (ds : list MessageData) (ms : list Message) :
  Forall2 (fun d m => fst (created_message d w0) = Ok m) ds ms ->
  forall w, same_channels w0 w ->
    messages (self (handle_all parse_message_create ds w)) =
    fold_left (fun d m => deque_append (max_messages (self w)) m d) ms (messages (self w)).
Proof.
  induction 1 as [|d m ds ms Hd _ IH]; intros w Hsame; [done|].
  cbn [handle_all fold_left].
  destruct (parse_message_create_frame d w) as [Hsame' Hmax].
  unfold handle_all in IH. rewrite IH.
  - rewrite Hmax. f_equal. rewrite parse_message_create_world.
    rewrite (created_message_frame d w0 w Hsame). cbn [fst]. by rewrite Hd.
  - destruct Hsame as (? & ? & ?), Hsame' as (? & ? & ?).
    repeat split; congruence.
Qed.

(** C4: the capacity of the buffer is [max(max_messages, 100)], the
    requested value (5000 by default) floored at 100, and the buffer starts
    empty; whatever message-create events follow, the buffer never holds
    more than its capacity; an append at capacity drops the oldest entry and
    nothing else; and after the events that build the messages [ms], the
    buffer holds the last [capacity] entries of its old contents followed by
    [ms], in arrival order (from an empty buffer of capacity N, after
    m1..m_{N+5}: m6..m_{N+5}). *)
Theorem message_buffer_fifo (w : World) (ds : list MessageData) (ms : list Message) :
  0 < max_messages (self w) ->
  Z.of_nat (length (messages (self w))) <= max_messages (self w) ->
  Forall2 (fun d m => fst (created_message d w) = Ok m) ds ms ->
  (forall requested : option Z,
     max_messages (init requested) = Z.max (default 5000 requested) 100 /\
     messages (init requested) = []) /\
  (forall ds' : list MessageData,
     Z.of_nat (length (messages (self (handle_all parse_message_create ds' w)))) <=
       max_messages (self w)) /\
  (forall (m : Message) (d : list Message),
     Z.of_nat (length d) = max_messages (self w) ->
     deque_append (max_messages (self w)) m d = tail d ++ [m]) /\
  messages (self (handle_all parse_message_create ds w)) =
    drop (length (messages (self w) ++ ms) - Z.to_nat (max_messages (self w)))
      (messages (self w) ++ ms).
Proof.
  intros Hpos Hlen Hms. repeat split.
  - intros ds'. by apply message_creates_bounded.
  - intros m d Hd. by apply deque_append_full.
  - rewrite (message_creates_appended w ds ms Hms w) by done.
    by apply deque_appends_drop.
Qed.

(** ** Guild removal *)

Lemma filter_length_le {A : Type} (p : A -> bool) (l : list A) :
  (length (List.filter p l) <= length l)%nat.
Proof.
  induction l as [|x l IH]; [done|]. cbn. destruct (p x); cbn; lia.
Qed.

(** C5: a guild-delete event for a cached guild, not marked unavailable:
    the buffer afterwards is the old buffer without the messages of that
    guild, the others in their old order, and still within the capacity; the
    guild is gone from the guild map; and one ['guild_remove'] is dispatched
    with it.  Nothing else changes. *)
Theorem guild_delete_purges (w : World) (data : GuildDeleteData) (k : Z) (a : addr)
    (g : Guild) :
  py_int (del_id data) = Ok k ->
  _guilds (self w) !! k = Some a ->
  guild_objs w !! a = Some g ->
  guild_id g = k ->
  default false (del_unavailable data) = false ->
  0 < max_messages (self w) ->
  Z.of_nat (length (messages (self w))) <= max_messages (self w) ->
  let kept := List.filter (fun msg => guild_ne (message_guild w msg) g) (messages (self w)) in
  parse_guild_delete data w =
    (Ok tt,
     set_io_log (io_log w ++ [Dispatch (ev_guild_remove a)])
       (with_self (fun s => set_guilds (delete k (_guilds s)) (set_messages kept s)) w)) /\
  Z.of_nat (length kept) <= max_messages (self w).
Proof.
  intros Hid Hk Ha Hg Hun Hpos Hlen kept.
  assert (Hkept : Z.of_nat (length kept) <= max_messages (self w)).
  { pose proof (filter_length_le (fun msg => guild_ne (message_guild w msg) g)
                  (messages (self w))). unfold kept. lia. }
  split; [|done].
  unfold parse_guild_delete, bind, lift, _get_guild, gets. rewrite Hid. cbn.
  rewrite Hk, Hun. unfold deref_guild. rewrite Ha.
  unfold _remove_guild, bind, deref_guild. cbn [guild_objs with_self]. rewrite Ha.
  unfold modify, dispatch, emit, modify. cbn -[deque_of_list].
  rewrite Hg. unfold with_self, set_messages, set_guilds, set_io_log.
  cbn -[deque_of_list]. fold kept. by rewrite deque_of_list_fits.
Qed.

(** ** The readiness handshake *)

Lemma bind_ok {A B : Type} (m : M A) (k : A -> M B) (w w' : World) (a : A) :
  m w = (Ok a, w') -> bind m k w = k a w'.
Proof. intros H. unfold bind. by rewrite H. Qed.

Lemma bind_raise {A B : Type} (m : M A) (k : A -> M B) (w w' : World) (e : Exn) :
  m w = (Raise e, w') -> bind m k w = (Raise e, w').
Proof. intros H. unfold bind. by rewrite H. Qed.

Lemma deref_guild_ok (w : World) (a : addr) (g : Guild) :
  guild_objs w !! a = Some g -> deref_guild a w = (Ok g, w).
Proof. intros H. unfold deref_guild. by rewrite H. Qed.

Lemma mapM_deref_ids (w : World) (gs : list addr) :
  Forall (fun a => is_Some (guild_objs w !! a)) gs ->
  mapM (fun s => let* g := deref_guild s in ret (guild_id g)) gs w =
  (Ok (omap (fun a => guild_id <$> guild_objs w !! a) gs), w).
Proof.
  induction 1 as [|a gs [g Hg] _ IH]; [done|].
  cbn [mapM omap].
  erewrite bind_ok; [|erewrite bind_ok; [reflexivity|by apply deref_guild_ok]].
  erewrite bind_ok by exact IH. simpl. rewrite Hg. done.
Qed.

Lemma receive_chunk_ok (gid : Z) (w : World) :
  receive_chunk gid w = (Ok (next_addr w), registered gid [next_addr w] w).
Proof. reflexivity. Qed.

Lemma repeatM_receive_chunk (n : nat) (a : addr) (g : Guild) (w : World) :
  guild_objs w !! a = Some g ->
  repeatM n (let* g := deref_guild a in receive_chunk (guild_id g)) w =
  (Ok (seq (next_addr w) n), registered (guild_id g) (seq (next_addr w) n) w).
Proof.
  revert w. induction n as [|n IH]; intros w Ha.
  - cbn. unfold ret, registered, with_self, set_listeners, set_futures, set_next_addr.
    cbn. rewrite app_nil_r. by destruct w as [[]].
  - cbn [repeatM seq].
    erewrite bind_ok; [|erewrite bind_ok; [apply receive_chunk_ok|by apply deref_guild_ok]].
    erewrite bind_ok by (by apply IH).
    unfold ret, registered, with_self, set_listeners, set_futures, set_next_addr.
    cbn. rewrite length_seq, <- app_assoc. cbn. do 3 f_equal. lia.
Qed.

Lemma chunks_needed_ok (w : World) (a : addr) (g : Guild) :
  guild_objs w !! a = Some g ->
  let fs := seq (next_addr w) (Z.to_nat (ceil_div (_member_count g) 1000)) in
  chunks_needed a w = (Ok fs, registered (guild_id g) fs w).
Proof.
  intros Ha fs. unfold chunks_needed.
  erewrite bind_ok by (by apply deref_guild_ok).
  by apply repeatM_receive_chunk.
Qed.

Lemma dr_finish_ok (w : World) :
  dr_finish w = (Ok None, set_io_log (io_log w ++ [Dispatch ev_ready]) w).
Proof. reflexivity. Qed.

Lemma dr_after_wait_ok (w : World) :
  guilds_stored w ->
  dr_after_wait w =
  if negb (default false (is_bot (self w))) then
    (Ok (Some DR_sync),
     set_io_log (io_log w ++ [Log info; Syncer (cached_guild_ids w)])
       (with_self (set_ready_state None) w))
  else
    (Ok None,
     set_io_log (io_log w ++ [Dispatch ev_ready]) (with_self (set_ready_state None) w)).
Proof.
  intros Hst. unfold dr_after_wait.
  erewrite bind_ok by reflexivity. erewrite bind_ok by reflexivity.
  cbn [self with_self is_bot set_ready_state].
  destruct (negb (default false (is_bot (self w)))); [|done].
  erewrite bind_ok by reflexivity. erewrite bind_ok by reflexivity.
  erewrite bind_ok by (apply mapM_deref_ids; exact Hst).
  unfold cached_guild_ids. cbn. unfold emit, modify, bind, ret. cbn.
  unfold set_io_log. cbn. by rewrite <- app_assoc.
Qed.

Lemma dr_chunking_one (w : World) (rs : ReadyState) (a : addr) (g : Guild) :
  _ready_state (self w) = Some rs ->
  guilds rs = [a] ->
  guild_objs w !! a = Some g ->
  let fs := seq (next_addr w) (Z.to_nat (ceil_div (_member_count g) 1000)) in
  dr_chunking w =
  (Ok (Some (DR_chunker fs [])),
   set_io_log (io_log w ++ [Chunker [a]]) (registered (guild_id g) fs w)).
Proof.
  intros Hrs Hgs Ha fs. unfold dr_chunking, ready_state.
  erewrite bind_ok by (by rewrite Hrs). rewrite Hgs. cbn [mapM].
  erewrite bind_ok;
    [|erewrite bind_ok; [|by apply chunks_needed_ok];
      erewrite bind_ok by reflexivity; reflexivity].
  cbn [concat]. rewrite app_nil_r. reflexivity.
Qed.

Lemma registered_guilds_stored (gid : Z) (fs : list addr) (w : World) :
  guilds_stored w -> guilds_stored (registered gid fs w).
Proof. done. Qed.

Lemma run_task_step (n : nat) (t t' : Task) (w w' : World) :
  resume t w = (Ok (Some t'), w') -> run_task (S n) t w = run_task n t' w'.
Proof. intros H. cbn [run_task]. by erewrite bind_ok by exact H. Qed.

Lemma run_task_done (n : nat) (t : Task) (w w' : World) :
  resume t w = (Ok None, w') -> run_task (S n) t w = (Ok None, w').
Proof. intros H. cbn [run_task]. by erewrite bind_ok by exact H. Qed.

Lemma resume_delay_ready (pc pc' : DelayReadyPc) (w w' : World) :
  delay_ready_resume pc w = (Ok (Some pc'), w') ->
  resume (DelayReady pc) w = (Ok (Some (DelayReady pc')), w').
Proof. intros H. cbn [resume]. by erewrite bind_ok by exact H. Qed.

Lemma resume_delay_ready_done (pc : DelayReadyPc) (w w' : World) :
  delay_ready_resume pc w = (Ok None, w') ->
  resume (DelayReady pc) w = (Ok None, w').
Proof. intros H. cbn [resume]. by erewrite bind_ok by exact H. Qed.

Lemma dr_loop_set (l : addr) (w : World) :
  events w !! l = Some true -> dr_loop l w = dr_chunking w.
Proof. intros H. unfold dr_loop, event_is_set. by erewrite bind_ok by (by rewrite H). Qed.

Lemma dr_loop_unset (l : addr) (w : World) :
  events w !! l = Some false ->
  dr_loop l w =
  (Ok (Some (DR_sleep l)),
   set_io_log (io_log w ++ [Sleep 2]) (set_events (<[l := true]> (events w)) w)).
Proof. intros H. unfold dr_loop, event_is_set. by erewrite bind_ok by (by rewrite H). Qed.

Lemma run_from_chunker (n : nat) (f : addr) (chunks : list addr) (w : World) :
  guilds_stored w ->
  run_task (S (S (S n))) (DelayReady (DR_chunker (f :: chunks) [])) w =
  (Ok None, handshake_end (f :: chunks) w).
Proof.
  intros Hst.
  erewrite run_task_step by (apply resume_delay_ready; reflexivity).
  unfold handshake_end. cbn zeta.
  set (waited := set_io_log _ w).
  pose proof (dr_after_wait_ok waited Hst) as Hw.
  change (is_bot (self waited)) with (is_bot (self w)) in Hw.
  change (cached_guild_ids waited) with (cached_guild_ids w) in Hw.
  destruct (negb (default false (is_bot (self w)))).
  - erewrite run_task_step by (apply resume_delay_ready; exact Hw).
    by erewrite run_task_done by (apply resume_delay_ready_done; reflexivity).
  - by erewrite run_task_done by (apply resume_delay_ready_done; exact Hw).
Qed.

(** C1: with one guild of 2500 members pending, the [_delay_ready]
    coroutine, resumed at each of its awaits, registers exactly
    [ceil(2500/1000) = 3] chunk listeners for that guild, with three new
    pending futures, before it issues the chunk request, and no ['ready'] is
    dispatched by then; it then waits on exactly these three futures,
    discards the ready state, sends the sync request of a user session, and
    returns after exactly one ['ready'] dispatch. *)
Theorem delay_ready_one_large_guild (w : World) (rs : ReadyState) (a : addr) (g : Guild)
    (b : bool) :
  _ready_state (self w) = Some rs ->
  guilds rs = [a] ->
  events w !! launch rs = Some b ->
  guild_objs w !! a = Some g ->
  _member_count g = 2500 ->
  guilds_stored w ->
  let f0 := next_addr w in
  let chunks := [f0; S f0; S (S f0)] in
  let sync := negb (default false (is_bot (self w))) in
  let new :=
    (if b then [] else [Sleep 2]) ++ [Chunker [a]; Wait chunks 90] ++
    (if sync then [Log info; Syncer (cached_guild_ids w)] else []) ++ [Dispatch ev_ready] in
  exists w1 w',
    run_task (if b then 1 else 2) (DelayReady DR_entry) w =
      (Ok (Some (DelayReady (DR_chunker chunks []))), w1) /\
    _listeners (self w1) = _listeners (self w) ++ chunk_listeners (guild_id g) chunks /\
    List.filter is_ready_dispatch (io_log w1) = List.filter is_ready_dispatch (io_log w) /\
    run_task 5 (DelayReady DR_entry) w = (Ok None, w') /\
    _listeners (self w') = _listeners (self w) ++ chunk_listeners (guild_id g) chunks /\
    futures w' = pending_all chunks (futures w) /\
    _ready_state (self w') = None /\
    io_log w' = io_log w ++ new /\
    length (List.filter is_ready_dispatch new) = 1%nat.
Proof.
  intros Hrs Hgs Hb Ha Hc Hst f0 chunks sync new.
  assert (Hentry : delay_ready_resume DR_entry w = dr_loop (launch rs) w).
  { cbn [delay_ready_resume]. unfold ready_state. by erewrite bind_ok by (by rewrite Hrs). }
  destruct b.
  - pose proof (dr_chunking_one w rs a g Hrs Hgs Ha) as Hch.
    rewrite Hc in Hch. change (Z.to_nat (ceil_div 2500 1000)) with 3%nat in Hch.
    cbn zeta in Hch. cbn [seq] in Hch. fold f0 in Hch. fold chunks in Hch.
    rewrite <- dr_loop_set with (l := launch rs), <- Hentry in Hch by done.
    eexists _, _. split.
    { erewrite run_task_step by (apply resume_delay_ready; exact Hch). reflexivity. }
    split; [reflexivity|]. split.
    { cbn. by rewrite filter_app, app_nil_r. }
    split.
    { erewrite run_task_step by (apply resume_delay_ready; exact Hch).
      by apply run_from_chunker. }
    unfold handshake_end, new, sync. cbn.
    destruct (negb (default false (is_bot (self w)))); cbn;
      repeat split; by rewrite <- ?app_assoc.
  - set (w0 := set_io_log (io_log w ++ [Sleep 2])
                 (set_events (<[launch rs := true]> (events w)) w)).
    pose proof (dr_loop_unset (launch rs) w Hb) as Hsleep. fold w0 in Hsleep.
    rewrite <- Hentry in Hsleep.
    pose proof (dr_chunking_one w0 rs a g Hrs Hgs Ha) as Hch.
    rewrite Hc in Hch. change (Z.to_nat (ceil_div 2500 1000)) with 3%nat in Hch.
    cbn zeta in Hch. cbn [seq] in Hch.
    change (next_addr w0) with f0 in Hch. fold chunks in Hch.
    rewrite <- dr_loop_set with (l := launch rs) in Hch
      by (cbn; apply lookup_insert_eq).
    change (dr_loop (launch rs) w0) with (delay_ready_resume (DR_sleep (launch rs)) w0) in Hch.
    eexists _, _. split.
    { erewrite run_task_step by (apply resume_delay_ready; exact Hsleep).
      erewrite run_task_step by (apply resume_delay_ready; exact Hch). reflexivity. }
    split; [reflexivity|]. split.
    { cbn. by rewrite !filter_app, !app_nil_r. }
    split.
    { erewrite run_task_step by (apply resume_delay_ready; exact Hsleep).
      erewrite run_task_step by (apply resume_delay_ready; exact Hch).
      by apply run_from_chunker. }
    unfold handshake_end, new, sync. cbn.
    destruct (negb (default false (is_bot (self w)))); cbn;
      repeat split; by rewrite <- ?app_assoc.
Qed.

(** ** Guild arrival *)

Lemma Guild_new_ok (d : GuildData) (k : Z) :
  py_int (gd_id d) = Ok k -> Guild_new d = Ok (guild_of k 0 d).
Proof. intros H. unfold Guild_new, _from_data. by rewrite H. Qed.

Lemma _add_guild_from_data_ok (d : GuildData) (k : Z) (w : World) :
  py_int (gd_id d) = Ok k ->
  _add_guild_from_data d w = (Ok (next_addr w), guild_added (guild_of k 0 d) w).
Proof.
  intros H. unfold _add_guild_from_data, lift.
  erewrite bind_ok by (by rewrite (Guild_new_ok d k H)).
  erewrite bind_ok by reflexivity.
  erewrite bind_ok by reflexivity.
  unfold _add_guild.
  erewrite bind_ok;
    [|erewrite bind_ok; [reflexivity|apply deref_guild_ok; cbn; apply lookup_insert_eq]].
  reflexivity.
Qed.


Lemma second_guild_create (d : GuildData) (k : Z) (a : addr) (g : Guild) (w : World) :
  gd_unavailable d = Some false ->
  gd_id d = PyInt k ->
  _guilds (self w) !! k = Some a ->
  guild_objs w !! a = Some g ->
  handle parse_guild_create d w =
  let w1 := set_guild_objs (<[a := merged_guild k g d]> (guild_objs w)) w in
  if gd_large d then
    match _ready_state (self w) with
    | Some rs =>
        with_self (set_ready_state (Some (mkReadyState (launch rs) (guilds rs ++ [a]))))
          (set_events (<[launch rs := false]> (events w)) w1)
    | None => set_tasks (tasks w ++ [ChunkAndDispatch a (Some false) CD_entry]) w1
    end
  else set_io_log (io_log w ++ [Dispatch (ev_guild_available a)]) w1.
Proof.
  intros Hun Hid Hk Ha.
  assert (Hget : _get_create_guild d w =
                 (Ok a, set_guild_objs (<[a := merged_guild k g d]> (guild_objs w)) w)).
  { unfold _get_create_guild. rewrite Hun.
    erewrite bind_ok by (unfold _get_guild_raw, gets; by rewrite Hid; cbn; rewrite Hk).
    cbn beta iota.
    erewrite bind_ok by (by apply deref_guild_ok).
    erewrite bind_ok by reflexivity.
    erewrite bind_ok by (apply deref_guild_ok; cbn; apply lookup_insert_eq).
    unfold _from_data. rewrite Hid. cbn [py_int lift].
    erewrite bind_ok by reflexivity.
    erewrite bind_ok by reflexivity.
    unfold ret, set_guild_objs. cbn. rewrite insert_insert_eq.
    unfold merged_guild. by rewrite Hun. }
  unfold handle, parse_guild_create. rewrite Hun.
  erewrite bind_ok by exact Hget.
  erewrite bind_ok by (apply deref_guild_ok; cbn; apply lookup_insert_eq).
  cbn [large merged_guild]. destruct (gd_large d); [|done].
  erewrite bind_ok by reflexivity. cbn [self set_guild_objs _ready_state].
  by destruct (_ready_state (self w)).
Qed.






(** ** Frames, the ready record and reactions *)

Section Keeps.
Context {B : Type} (f : World -> B).

Lemma keeps_ret {A : Type} (a : A) : keeps f (ret a).
Proof. by intros w. Qed.

Lemma keeps_raise {A : Type} (e : Exn) : keeps f (@raise A e).
Proof. by intros w. Qed.

Lemma keeps_lift {A : Type} (r : Result A) : keeps f (lift r).
Proof. by intros w. Qed.

Lemma keeps_gets {A : Type} (g : World -> A) : keeps f (gets g).
Proof. by intros w. Qed.

Lemma keeps_bind {A C : Type} (m : M A) (k : A -> M C) :
  keeps f m -> (forall a, keeps f (k a)) -> keeps f (bind m k).
Proof.
  intros Hm Hk w. unfold bind. specialize (Hm w).
  destruct (m w) as [[a|e] w']; cbn in *; [by rewrite Hk|done].
Qed.

Lemma keeps_modify (g : World -> World) :
  (forall w, f (g w) = f w) -> keeps f (modify g).
Proof. intros H w. apply H. Qed.

Lemma keeps_deref_guild (a : addr) : keeps f (deref_guild a).
Proof. intros w. unfold deref_guild. by destruct (guild_objs w !! a). Qed.

Lemma keeps_mapM {A C : Type} (k : A -> M C) (l : list A) :
  (forall a, keeps f (k a)) -> keeps f (mapM k l).
Proof.
  intros Hk. induction l as [|x l IH]; [apply keeps_ret|].
  cbn [mapM]. apply keeps_bind; [done|]. intros y.
  apply keeps_bind; [done|]. intros ys. apply keeps_ret.
Qed.

Lemma keeps_forM_ {A : Type} (l : list A) (k : A -> M unit) :
  (forall a, keeps f (k a)) -> keeps f (forM_ l k).
Proof.
  intros Hk. induction l as [|x l IH]; [apply keeps_ret|].
  cbn [forM_]. apply keeps_bind; [done|]. by intros _.
Qed.

Lemma keeps_find_guild_channel (id : PyVal) (gs : list addr) :
  keeps f (find_guild_channel id gs).
Proof.
  induction gs as [|a gs IH]; [apply keeps_ret|].
  cbn [find_guild_channel]. apply keeps_bind; [apply keeps_deref_guild|].
  intros g. destruct (py_dict_get (_channels g) id); [apply keeps_ret|done].
Qed.

Lemma keeps_get_channel (id : PyVal) : keeps f (get_channel id).
Proof.
  destruct id; [apply keeps_ret|..];
    (apply keeps_bind; [apply keeps_gets|]; intros gs;
     apply keeps_bind; [apply keeps_find_guild_channel|]; intros [c|];
     [apply keeps_ret|apply keeps_gets]).
Qed.

Lemma keeps__get_member (c : option Channel) (id : PyVal) : keeps f (_get_member c id).
Proof.
  destruct c as [c|]; [|apply keeps_raise]. unfold _get_member.
  destruct (channel_type c); try apply keeps_ret;
    (destruct (channel_guild c); [|apply keeps_raise];
     apply keeps_bind; [apply keeps_deref_guild|]; intros g; apply keeps_ret).
Qed.
End Keeps.

Lemma keeps_try_insert_user (d : UserData) : keeps guild_view (try_insert_user d).
Proof.
  unfold try_insert_user.
  apply keeps_bind; [apply keeps_lift|]; intros k.
  apply keeps_bind; [apply keeps_gets|]; intros users.
  destruct (users !! k); [apply keeps_ret|].
  apply keeps_bind.
  { unfold User_new. apply keeps_bind; [apply keeps_lift|]; intros id.
    apply keeps_bind; [by intros w|]. intros obj. apply keeps_ret. }
  intros u. apply keeps_bind; [by apply keeps_modify|]. intros _. apply keeps_ret.
Qed.

Lemma keeps__add_private_channel (c : Channel) : keeps guild_view (_add_private_channel c).
Proof.
  unfold _add_private_channel.
  apply keeps_bind; [by apply keeps_modify|]. intros _.
  destruct (channel_type c); try apply keeps_ret.
  destruct (recipients c); [apply keeps_raise|by apply keeps_modify].
Qed.

Lemma keeps_private_channel_new (pm : PrivateChannelData) :
  keeps guild_view (private_channel_new pm).
Proof.
  unfold private_channel_new.
  apply keeps_bind; [apply keeps_lift|]; intros id.
  destruct (pd_type pm).
  - destruct (pd_recipients pm) as [|recipient ?]; [apply keeps_raise|].
    apply keeps_bind; [apply keeps_try_insert_user|]; intros u. apply keeps_ret.
  - apply keeps_bind; [apply keeps_mapM, keeps_try_insert_user|]; intros rs.
    apply keeps_ret.
Qed.

(** Whatever the ready record lists under ['guilds'], [parse_ready] caches no
    guild and leaves the pending list empty. *)
Theorem parse_ready_caches_no_guild (data : ReadyData) (w : World) :
  let w' := handle parse_ready data w in
  _guilds (self w') = _guilds (self w) /\
  guild_objs w' = guild_objs w /\
  _ready_state (self w') = Some (mkReadyState (next_addr w) []).
Proof.
  cbn zeta. unfold handle, parse_ready.
  erewrite bind_ok by reflexivity.
  erewrite bind_ok by reflexivity.
  erewrite bind_ok by reflexivity.
  set (w1 := with_self _ _).
  assert (Hk : keeps guild_view
    (let* u := try_insert_user (ready_user data) in
     modify (with_self (set_user (Some u))) ;;;
     let* rs := ready_state in
     let pending := guilds rs in
     let guilds := ready_guilds data in
     let guilds := pending in
     ready_guilds_loop guilds ;;;
     match ready_private_channels data with
     | None => raise TypeError
     | Some pms =>
         forM_ pms (fun pm =>
           let* channel := private_channel_new pm in _add_private_channel channel) ;;;
         create_task (DelayReady DR_entry)
     end)).
  { apply keeps_bind; [apply keeps_try_insert_user|]. intros u.
    apply keeps_bind; [by apply keeps_modify|]. intros _.
    apply keeps_bind; [intros w0; unfold ready_state; by destruct (_ready_state (self w0))|].
    intros rs. cbn zeta.
    apply keeps_bind; [by destruct (guilds rs)|]. intros _.
    destruct (ready_private_channels data) as [pms|]; [|apply keeps_raise].
    apply keeps_bind; [|intros _; by apply keeps_modify].
    apply keeps_forM_. intros pm.
    apply keeps_bind; [apply keeps_private_channel_new|apply keeps__add_private_channel]. }
  specialize (Hk w1). unfold guild_view in Hk. cbn [fst snd] in Hk.
  by injection Hk as -> -> ->.
Qed.


Lemma keeps_reaction_tail (data : ReactionData) (d : option Who -> Dispatched) :
  keeps (fun w => messages (self w))
    (let* channel := get_channel (rd_channel_id data) in
     let* member := _get_member channel (rd_user_id data) in
     dispatch (d member)).
Proof.
  apply keeps_bind; [apply keeps_get_channel|]. intros c.
  apply keeps_bind; [apply keeps__get_member|]. intros member. by apply keeps_modify.
Qed.

(** With a custom emoji (an id in the record) both reaction handlers raise
    before they touch the cache. *)
Lemma reaction_custom_emoji_raises (data : ReactionData) (w : World) (i : nat) (m : Message) :
  target_message data w = Some (i, m) ->
  py_truthy (ed_id (rd_emoji data)) = true ->
  parse_message_reaction_add data w = (Raise AttributeError, w) /\
  parse_message_reaction_remove data w = (Raise AttributeError, w).
Proof.
  intros Hm Hid. unfold parse_message_reaction_add, parse_message_reaction_remove.
  split.
  all: erewrite bind_ok
    by (unfold _get_message, gets; fold (target_message data w); by rewrite Hm).
  all: cbn beta iota; apply bind_raise; unfold _get_reaction_emoji; by rewrite Hid.
Qed.

(** A reaction-add with a unicode emoji that has no row on the message: a
    row with count 1 is appended. *)
Lemma reaction_add_new_row (data : ReactionData) (w : World) (i : nat) (m : Message)
    (u : User) :
  target_message data w = Some (i, m) ->
  py_truthy (ed_id (rd_emoji data)) = false ->
  user (self w) = Some u ->
  let e := UnicodeEmoji (ed_name (rd_emoji data)) in
  get_reaction (reactions m) e = None ->
  messages (self (handle parse_message_reaction_add data w)) =
  <[i := with_reactions
           (reactions m ++ [mkReaction e 1 (py_eq_int (user_id u) (rd_user_id data))]) m]>
    (messages (self w)).
Proof.
  intros Hm Hid Hu e Hrow. unfold handle, parse_message_reaction_add.
  erewrite bind_ok by (unfold _get_message, gets; fold (target_message data w); by rewrite Hm).
  cbn beta iota.
  erewrite bind_ok by (unfold _get_reaction_emoji; by rewrite Hid).
  fold e. rewrite Hrow.
  erewrite bind_ok by (unfold is_self_user; erewrite bind_ok by reflexivity; by rewrite Hu).
  erewrite bind_ok by (erewrite bind_ok by reflexivity; reflexivity).
  by rewrite keeps_reaction_tail.
Qed.

(** A reaction-add with a unicode emoji that has a row: its count goes up
    by one and no row is added. *)
Lemma reaction_add_existing_row (data : ReactionData) (w : World) (i j : nat)
    (m : Message) (r : Reaction) (u : User) :
  target_message data w = Some (i, m) ->
  py_truthy (ed_id (rd_emoji data)) = false ->
  user (self w) = Some u ->
  get_reaction (reactions m) (UnicodeEmoji (ed_name (rd_emoji data))) = Some (j, r) ->
  let is_me := py_eq_int (user_id u) (rd_user_id data) in
  messages (self (handle parse_message_reaction_add data w)) =
  <[i := with_reactions
           (<[j := mkReaction (emoji r) (count r + 1) (if is_me then true else me r)]>
              (reactions m)) m]>
    (messages (self w)).
Proof.
  intros Hm Hid Hu Hrow is_me. unfold handle, parse_message_reaction_add.
  erewrite bind_ok by (unfold _get_message, gets; fold (target_message data w); by rewrite Hm).
  cbn beta iota.
  erewrite bind_ok by (unfold _get_reaction_emoji; by rewrite Hid).
  rewrite Hrow.
  erewrite bind_ok by (unfold is_self_user; erewrite bind_ok by reflexivity; by rewrite Hu).
  erewrite bind_ok by (erewrite bind_ok by reflexivity; reflexivity).
  rewrite keeps_reaction_tail. cbn. fold is_me. by destruct is_me.
Qed.

(** The steps of [parse_message_reaction_remove] on a unicode emoji that has
    a row, up to the buffer it leaves. *)
Ltac remove_row_steps data w Hm Hid Hu Hrow is_me r' :=
  unfold handle, parse_message_reaction_remove;
  erewrite bind_ok
    by (unfold _get_message, gets; fold (target_message data w); by rewrite Hm);
  cbn beta iota;
  erewrite bind_ok by (unfold _get_reaction_emoji; by rewrite Hid);
  rewrite Hrow;
  erewrite bind_ok by reflexivity;
  erewrite bind_ok
    by (unfold is_self_user; erewrite bind_ok by reflexivity; cbn; by rewrite Hu);
  fold is_me;
  erewrite bind_ok by reflexivity;
  match goal with
  | |- context [if is_me then set_me false (set_count ?c ?r) else set_count ?c ?r] =>
      replace (if is_me then set_me false (set_count c r) else set_count c r) with r'
        by (by destruct is_me)
  end;
  cbn [count r'];
  match goal with
  | |- context [if ?c =? 0 then set_reactions _ _ _ else ret tt] => destruct (c =? 0)
  end;
  erewrite bind_ok by reflexivity; rewrite keeps_reaction_tail;
  cbn; by rewrite !list_insert_insert_eq.

(** A reaction-remove with a unicode emoji that has a row: its count goes
    down by one, and the row leaves the list when the count reaches 0. *)
Lemma reaction_remove_row (data : ReactionData) (w : World) (i j : nat)
    (m : Message) (r : Reaction) (u : User) :
  target_message data w = Some (i, m) ->
  py_truthy (ed_id (rd_emoji data)) = false ->
  user (self w) = Some u ->
  get_reaction (reactions m) (UnicodeEmoji (ed_name (rd_emoji data))) = Some (j, r) ->
  let is_me := py_eq_int (user_id u) (rd_user_id data) in
  let r' := mkReaction (emoji r) (count r - 1) (if is_me then false else me r) in
  messages (self (handle parse_message_reaction_remove data w)) =
  <[i := with_reactions
           (if count r - 1 =? 0 then delete j (<[j := r']> (reactions m))
            else <[j := r']> (reactions m)) m]>
    (messages (self w)).
Proof.
  intros Hm Hid Hu Hrow is_me r'.
  remove_row_steps data w Hm Hid Hu Hrow is_me r'.
Qed.

(** A reaction-remove with a unicode emoji that has no row on the cached
    message: a warning is logged and nothing else happens. *)
Lemma reaction_remove_no_row (data : ReactionData) (w : World) (i : nat) (m : Message) :
  target_message data w = Some (i, m) ->
  py_truthy (ed_id (rd_emoji data)) = false ->
  get_reaction (reactions m) (UnicodeEmoji (ed_name (rd_emoji data))) = None ->
  parse_message_reaction_remove data w = (Ok tt, set_io_log (io_log w ++ [Log warning]) w).
Proof.
  intros Hm Hid Hrow. unfold parse_message_reaction_remove.
  erewrite bind_ok by (unfold _get_message, gets; fold (target_message data w); by rewrite Hm).
  cbn beta iota.
  erewrite bind_ok by (unfold _get_reaction_emoji; by rewrite Hid).
  by rewrite Hrow.
Qed.

Lemma find_from_lookup {A : Type} (p : A -> bool) (l : list A) (i j : nat) (x : A) :
  find_from p i l = Some (j, x) ->
  (i <= j)%nat /\ l !! (j - i)%nat = Some x /\ p x = true.
Proof.
  revert i. induction l as [|y l IH]; intros i H; [done|].
  cbn [find_from] in H. destruct (p y) eqn:Hy.
  - injection H as <- <-. by rewrite Nat.sub_diag.
  - apply IH in H as (Hle & Hl & Hp). split; [lia|]. split; [|done].
    replace (j - i)%nat with (S (j - S i)) by lia. done.
Qed.

Lemma delete_insert_same {A : Type} (l : list A) (j : nat) (x : A) :
  delete j (<[j := x]> l) = delete j l.
Proof.
  revert j. induction l as [|y l IH]; intros [|j]; cbn; try done. by rewrite IH.
Qed.

(** A reaction-remove with a unicode emoji keeps every count of the message
    at 1 or more: the row whose count reaches 0 is the one that leaves. *)
Lemma reaction_remove_counts_positive (data : ReactionData) (w : World) (i j : nat)
    (m m' : Message) (r : Reaction) (u : User) :
  target_message data w = Some (i, m) ->
  py_truthy (ed_id (rd_emoji data)) = false ->
  user (self w) = Some u ->
  get_reaction (reactions m) (UnicodeEmoji (ed_name (rd_emoji data))) = Some (j, r) ->
  Forall (fun r => 1 <= count r) (reactions m) ->
  messages (self (handle parse_message_reaction_remove data w)) !! i = Some m' ->
  Forall (fun r => 1 <= count r) (reactions m') /\
  length (reactions m') =
    if count r =? 1 then pred (length (reactions m)) else length (reactions m).
Proof.
  intros Hm Hid Hu Hrow Hpos Hm'.
  set (is_me := py_eq_int (user_id u) (rd_user_id data)).
  set (r' := mkReaction (emoji r) (count r - 1) (if is_me then false else me r)).
  assert (Hbuf : messages (self (handle parse_message_reaction_remove data w)) =
                 <[i := with_reactions
                          (if count r - 1 =? 0 then delete j (<[j := r']> (reactions m))
                           else <[j := r']> (reactions m)) m]>
                   (messages (self w)))
    by remove_row_steps data w Hm Hid Hu Hrow is_me r'.
  rewrite Hbuf in Hm'. clear Hbuf.
  apply find_from_lookup in Hm as (_ & Hi & _). rewrite Nat.sub_0_r in Hi.
  rewrite list_lookup_insert_eq in Hm' by (by eapply lookup_lt_Some).
  injection Hm' as <-. cbn [reactions with_reactions].
  apply find_from_lookup in Hrow as (_ & Hj & _). rewrite Nat.sub_0_r in Hj.
  pose proof (Forall_lookup_1 _ _ _ _ Hpos Hj) as Hr. cbn beta in Hr.
  pose proof (lookup_lt_Some _ _ _ Hj) as Hlt.
  destruct (Z.eqb_spec (count r - 1) 0) as [H0|H0].
  - replace (count r =? 1) with true by (symmetry; apply Z.eqb_eq; lia).
    rewrite delete_insert_same. split; [by apply Forall_delete|].
    rewrite length_delete by (by eexists). lia.
  - replace (count r =? 1) with false by (symmetry; apply Z.eqb_neq; lia).
    split; [apply Forall_insert; [done|cbn; lia]|].
    rewrite length_insert. lia.
Qed.

(** ** The properties on the examples *)

Lemma delay_ready_one_large_guild_witness :
  exists w',
    run_task 5 (DelayReady DR_entry) w_pending = (Ok None, w') /\
    map future (_listeners (self w')) = [3; 4; 5]%nat /\
    io_log w' =
      [Sleep 2; Chunker [2%nat]; Wait [3; 4; 5]%nat 90; Log info; Syncer [1];
       Dispatch ev_ready].
Proof.
  destruct (delay_ready_one_large_guild w_pending (mkReadyState 0%nat [2%nat]) 2%nat
              (mkGuild 1 "large" false true 2500 ∅ ∅) false)
    as (w1 & w' & _ & _ & _ & Hrun & Hls & _ & _ & Hlog & _);
    try reflexivity.
  { unfold guilds_stored. change (guilds_values w_pending) with [2%nat].
    repeat constructor. eexists. reflexivity. }
  exists w'. split; [exact Hrun|]. split.
  - rewrite Hls. reflexivity.
  - rewrite Hlog. reflexivity.
Defined.


(** The large guild of the ready record arrives twice during the handshake,
    first without the [unavailable] field, then with [unavailable = false]:
    the second event finds the cached guild and updates it in place, yet no
    ['guild_available'] is dispatched by the call, nor by the handshake and
    the task of the first event when they run to their end. *)
Lemma guild_create_large_no_guild_available :
  let w1 := handle parse_guild_create ex_large_guild w_ready in
  let w2 := handle parse_guild_create ex_available w1 in
  let w3 := snd (run_task 5 (DelayReady DR_entry) w2) in
  let w4 := snd (run_task 3 (ChunkAndDispatch 2%nat None CD_entry) w3) in
  _guilds (self w1) = {[1 := 2%nat]} /\
  _guilds (self w2) = {[1 := 2%nat]} /\
  next_addr w2 = next_addr w1 /\
  io_log w2 = io_log w1 /\
  tasks w2 = [DelayReady DR_entry; ChunkAndDispatch 2%nat None CD_entry] /\
  List.filter is_guild_available (io_log w2) = [] /\
  List.filter is_guild_available (io_log w4) = [] /\
  List.filter is_ready_dispatch (io_log w4) = [Dispatch ev_ready].
Proof. vm_compute. repeat split; reflexivity. Qed.

Lemma try_insert_user_stable_witness :
  exists u w1,
    try_insert_user (mkUserData (PyStr "7") "ann") (init_world None) = (Ok u, w1) /\
    try_insert_user (mkUserData (PyInt 7) "ann, later") w1 = (Ok u, w1) /\
    u = mkUser 0%nat 7 "ann".
Proof.
  destruct (try_insert_user_stable (init_world None) (mkUserData (PyStr "7") "ann")
              (mkUserData (PyInt 7) "ann, later") 7)
    as (u & w1 & H1 & H2 & _ & H3); try reflexivity.
  exists u, w1. split; [exact H1|]. split; [exact H2|].
  apply (H3 eq_refl).
Defined.

Lemma process_listeners_first_match_witness :
  let w' := snd (process_listeners chunk (Some guild_9) 1000 w_listeners) in
  map future (_listeners (self w_listeners)) = [0; 1; 2; 3]%nat /\
  map future (_listeners (self w')) = [1; 3]%nat /\
  map_to_list (futures w') =
    map_to_list (<[2%nat := Finished 1000]> (futures w_listeners)).
Proof.
  cbn zeta.
  rewrite (process_listeners_first_match w_listeners guild_9 1000
             [mkListener chunk 0%nat (chunk_predicate 7);
              mkListener chunk 1%nat (chunk_predicate 8)]
             [mkListener chunk 3%nat (chunk_predicate 9)]
             (mkListener chunk 2%nat (chunk_predicate 9))).
  - repeat split; reflexivity.
  - reflexivity.
  - constructor; [split; [eexists; reflexivity|left; reflexivity]|].
    constructor; [split; [eexists; reflexivity|right; reflexivity]|].
    constructor.
  - reflexivity.
  - reflexivity.
Defined.

Lemma clear_keeps_listeners_witness :
  let w := with_self clear w_listeners in
  let w' := snd (process_listeners chunk (Some guild_9) 1000 w) in
  map future (_listeners (self w)) = [0; 1; 2; 3]%nat /\
  map future (_listeners (self w')) = [1; 3]%nat /\
  futures w' !! 2%nat = Some (Finished 1000).
Proof.
  cbn zeta.
  destruct (clear_keeps_listeners w_listeners) as (_ & _ & _ & H).
  rewrite (H guild_9 1000
             [mkListener chunk 0%nat (chunk_predicate 7);
              mkListener chunk 1%nat (chunk_predicate 8)]
             [mkListener chunk 3%nat (chunk_predicate 9)]
             (mkListener chunk 2%nat (chunk_predicate 9))).
  - repeat split; vm_compute; reflexivity.
  - reflexivity.
  - constructor; [split; [eexists; reflexivity|left; reflexivity]|].
    constructor; [split; [eexists; reflexivity|right; reflexivity]|].
    constructor.
  - reflexivity.
  - reflexivity.
Defined.

Lemma guild_delete_purges_witness :
  let w' := handle parse_guild_delete (mkGuildDeleteData (PyStr "1") None) w_two_guilds in
  map message_id (messages (self w_two_guilds)) = [100; 101; 102; 103] /\
  map message_id (messages (self w')) = [101; 103] /\
  _guilds (self w') = {[2 := 1%nat]} /\
  io_log w' = io_log w_two_guilds ++ [Dispatch (ev_guild_remove 0%nat)].
Proof.
  cbn zeta. unfold handle.
  destruct (guild_delete_purges w_two_guilds (mkGuildDeleteData (PyStr "1") None) 1 0%nat
              (mkGuild 1 "one" false false 3 {[20 := mkChannel 20 text (Some 0%nat) []]} ∅))
    as [-> _]; [reflexivity..|vm_compute; congruence|].
  repeat split; reflexivity.
Defined.

Lemma message_buffer_fifo_witness :
  messages (self (handle_all parse_message_create ex_records (init_world (Some 100)))) =
  drop 5 ex_messages.
Proof.
  destruct (message_buffer_fifo (init_world (Some 100)) ex_records ex_messages)
    as (_ & _ & _ & ->).
  - reflexivity.
  - vm_compute. congruence.
  - unfold ex_records, ex_messages. apply Forall2_fmap, Forall_Forall2_diag, Forall_forall.
    intros i _. reflexivity.
  - reflexivity.
Defined.

(** C3, at a ready record that lists one large guild: the handler returns
    normally, and afterwards no guild is cached and the pending list of the
    new ready state is empty. *)
Theorem parse_ready_one_large_guild :
  ready_guilds ex_ready = Some [ex_large_guild] /\
  fst (parse_ready ex_ready (init_world None)) = Ok tt /\
  _guilds (self w_ready) = ∅ /\
  guild_objs w_ready = ∅ /\
  _ready_state (self w_ready) = Some (mkReadyState 0%nat []).
Proof.
  split; [reflexivity|]. split; [reflexivity|].
  exact (parse_ready_caches_no_guild ex_ready (init_world None)).
Qed.

(** C8, at a reaction-add with a custom emoji for a cached message without
    reactions: the handler raises [AttributeError] and the world, so the
    reaction list of the message, stays as it was: no row with count 1. *)
Theorem reaction_add_custom_emoji :
  map reactions (messages (self w_message)) = [[]] /\
  parse_message_reaction_add ex_custom_reaction w_message = (Raise AttributeError, w_message).
Proof.
  split; [reflexivity|].
  refine (proj1 (reaction_custom_emoji_raises ex_custom_reaction w_message 0%nat
                   (mkMessage 10 None "hi" []) _ _)); reflexivity.
Qed.

(** C9, at a reaction-remove with a custom emoji for a cached message that
    has no row for it: the handler raises [AttributeError]. *)
Theorem reaction_remove_custom_emoji :
  target_message ex_custom_reaction w_message = Some (0%nat, mkMessage 10 None "hi" []) /\
  parse_message_reaction_remove ex_custom_reaction w_message =
    (Raise AttributeError, w_message).
Proof.
  split; [reflexivity|].
  refine (proj2 (reaction_custom_emoji_raises ex_custom_reaction w_message 0%nat
                   (mkMessage 10 None "hi" []) _ _)); reflexivity.
Qed.

(** C2 fails on the code when the id of the second record is a string, the
    form in which the gateway sends ids and which the [int(...)] of the other
    handlers (and of the guild's own constructor) expects:
    [_get_create_guild] looks the cache up with [data.get('id')] as it is, so
    the guild cached under the int 5 is not found.  The second event is not
    treated as re-availability of the cached guild: a second guild object is
    built and takes the entry for the id, the object of the first event is
    left as it was (nothing is merged into it) and drops out of the cache
    with what it owned (here its member count of 12), and
    ['guild_available'] is dispatched with the new object. *)
Theorem guild_create_string_id_rebuilds :
  let d2 := mkGuildData (PyStr "5") "small again" (Some false) false None in
  let w1 := handle parse_guild_create ex_small_guild (init_world None) in
  let w2 := handle parse_guild_create d2 w1 in
  gd_id ex_small_guild = PyStr "5" /\
  _guilds (self w1) = {[5 := 0%nat]} /\
  guild_objs w1 = {[0%nat := mkGuild 5 "small" false false 12 ∅ ∅]} /\
  _guilds (self w2) = {[5 := 1%nat]} /\
  guild_objs w2 !! 0%nat = Some (mkGuild 5 "small" false false 12 ∅ ∅) /\
  guild_objs w2 !! 1%nat = Some (mkGuild 5 "small again" false false 0 ∅ ∅) /\
  next_addr w2 = S (next_addr w1) /\
  io_log w2 = [Dispatch (ev_guild_join 0%nat); Dispatch (ev_guild_available 1%nat)].
Proof. vm_compute. repeat split; reflexivity. Qed.

(** The reactions of the example message over two adds and three removes
    with a unicode emoji. *)
Example unicode_reactions :
  let w1 := handle parse_message_reaction_add (ex_unicode_reaction 42) w_message in
  let w2 := handle parse_message_reaction_add (ex_unicode_reaction 43) w1 in
  let w3 := handle parse_message_reaction_remove (ex_unicode_reaction 43) w2 in
  let w4 := handle parse_message_reaction_remove (ex_unicode_reaction 42) w3 in
  map reactions (messages (self w1)) = [[mkReaction (UnicodeEmoji "+1") 1 true]] /\
  map reactions (messages (self w2)) = [[mkReaction (UnicodeEmoji "+1") 2 true]] /\
  map reactions (messages (self w3)) = [[mkReaction (UnicodeEmoji "+1") 1 true]] /\
  map reactions (messages (self w4)) = [[]] /\
  parse_message_reaction_remove (ex_unicode_reaction 42) w4 =
    (Ok tt, set_io_log (io_log w4 ++ [Log warning]) w4).
Proof. vm_compute. repeat split; reflexivity. Qed.

Lemma reaction_add_new_row_witness :
  messages (self w_reacted) =
  [mkMessage 10 None "hi" [mkReaction (UnicodeEmoji "+1") 1 true]].
Proof.
  unfold w_reacted.
  rewrite (reaction_add_new_row (ex_unicode_reaction 42) w_message 0%nat
             (mkMessage 10 None "hi" []) (mkUser 1%nat 42 "me"));
    reflexivity.
Defined.

Lemma reaction_add_existing_row_witness :
  messages (self (handle parse_message_reaction_add (ex_unicode_reaction 43) w_reacted)) =
  [mkMessage 10 None "hi" [mkReaction (UnicodeEmoji "+1") 2 true]].
Proof.
  rewrite (reaction_add_existing_row (ex_unicode_reaction 43) w_reacted 0%nat 0%nat
             (mkMessage 10 None "hi" [mkReaction (UnicodeEmoji "+1") 1 true])
             (mkReaction (UnicodeEmoji "+1") 1 true) (mkUser 1%nat 42 "me"));
    reflexivity.
Defined.

Lemma reaction_remove_row_witness :
  messages (self (handle parse_message_reaction_remove (ex_unicode_reaction 42) w_reacted)) =
  [mkMessage 10 None "hi" []].
Proof.
  rewrite (reaction_remove_row (ex_unicode_reaction 42) w_reacted 0%nat 0%nat
             (mkMessage 10 None "hi" [mkReaction (UnicodeEmoji "+1") 1 true])
             (mkReaction (UnicodeEmoji "+1") 1 true) (mkUser 1%nat 42 "me"));
    reflexivity.
Defined.

Lemma reaction_remove_no_row_witness :
  parse_message_reaction_remove (ex_unicode_reaction 42) w_message =
  (Ok tt, set_io_log (io_log w_message ++ [Log warning]) w_message).
Proof.
  apply (reaction_remove_no_row (ex_unicode_reaction 42) w_message 0%nat
           (mkMessage 10 None "hi" [])); reflexivity.
Defined.

Lemma reaction_remove_counts_positive_witness :
  let w := handle parse_message_reaction_add (ex_unicode_reaction 43) w_reacted in
  let m' := mkMessage 10 None "hi" [mkReaction (UnicodeEmoji "+1") 1 true] in
  messages (self (handle parse_message_reaction_remove (ex_unicode_reaction 43) w)) = [m'] /\
  Forall (fun r => 1 <= count r) (reactions m').
Proof.
  cbn zeta. split; [reflexivity|].
  refine (proj1 (reaction_remove_counts_positive (ex_unicode_reaction 43)
            (handle parse_message_reaction_add (ex_unicode_reaction 43) w_reacted)
            0%nat 0%nat
            (mkMessage 10 None "hi" [mkReaction (UnicodeEmoji "+1") 2 true])
            (mkMessage 10 None "hi" [mkReaction (UnicodeEmoji "+1") 1 true])
            (mkReaction (UnicodeEmoji "+1") 2 true) (mkUser 1%nat 42 "me")
            _ _ _ _ _ _)); try reflexivity.
  repeat constructor. vm_compute. congruence.
Defined.

(** * Further properties *)

(** ** The registry and the handshake in general *)

Lemma delete_indices_all {A : Type} (front ls : list A) :
  delete_indices (seq (length front) (length ls)) (front ++ ls) = front.
Proof.
  revert front. induction ls as [|x ls IH]; intros front.
  - cbn. by rewrite app_nil_r.
  - cbn [length seq].
    change (length front :: seq (S (length front)) (length ls))
      with ([length front] ++ seq (S (length front)) (length ls)).
    rewrite delete_indices_app, delete_indices_one.
    replace (front ++ x :: ls) with ((front ++ [x]) ++ ls) by (by rewrite <- app_assoc).
    replace (S (length front)) with (length (front ++ [x]))
      by (rewrite length_app; cbn; lia).
    rewrite IH.
    replace (length (front ++ [x])) with (S (length front)) by (rewrite length_app; cbn; lia).
    replace (front ++ [x]) with (front ++ x :: []) by done.
    by rewrite delete_middle, app_nil_r.
Qed.

(** No listener is fulfilled when each one is cancelled or rejects the
    argument: the cancelled ones leave the registry, nothing else changes. *)
Theorem process_listeners_no_match (t : ListenerType) (argument : option Guild)
    (result : Z) (w : World) :
  Forall (passed_over (futures w) argument) (_listeners (self w)) ->
  process_listeners t argument result w =
  (Ok tt,
   with_self
     (set_listeners
        (List.filter (fun l => negb (cancelled_in (futures w) l)) (_listeners (self w)))) w).
Proof.
  intros Hall. unfold process_listeners.
  erewrite bind_ok by reflexivity.
  rewrite <- (app_nil_r (_listeners (self w))) at 1.
  erewrite bind_ok
    by (rewrite (process_loop_passed_over _ _ _ _ _ _ _ _ Hall); reflexivity).
  unfold modify. f_equal. unfold with_self, set_listeners. cbn [app]. do 2 f_equal.
  pose proof (delete_cancelled (futures w) (_listeners (self w)) [] []) as H.
  cbn [length app] in H. by rewrite !app_nil_r in H.
Qed.

(** When the first listener that accepts the argument holds a future that
    already has a result, [set_result] raises: the call ends with
    [InvalidStateError] and the registry is left whole, the cancelled
    listeners met before included. *)
Theorem process_listeners_done_future (w : World) (argument : option Guild) (result : Z)
    (pre post : list Listener) (m : Listener) (s : FutureState) :
  _listeners (self w) = pre ++ m :: post ->
  Forall (passed_over (futures w) argument) pre ->
  futures w !! future m = Some s ->
  s <> Pending -> s <> Cancelled ->
  predicate m argument = Ok true ->
  process_listeners chunk argument result w = (Raise InvalidStateError, w).
Proof.
  intros Hls Hpre Hm Hp Hc Hacc. unfold process_listeners.
  erewrite bind_ok by reflexivity. rewrite Hls.
  apply bind_raise. rewrite (process_loop_passed_over _ _ _ _ _ _ _ _ Hpre).
  cbn [process_loop]. destruct (type m). cbn [ListenerType_eqb negb].
  unfold bind, future_cancelled, future_set_result, future_resolve.
  rewrite Hm, Hacc. destruct s; try done; cbn; rewrite ?Hm; reflexivity.
Qed.

Lemma process_loop_all_raise (e : Exn) (argument : option Guild) (result : Z)
    (ls : list Listener) (i : nat) (removed : list nat) (w : World) :
  NoDup (future <$> ls) ->
  Forall (waiting (futures w)) ls ->
  Forall (fun l => predicate l argument = Raise e) ls ->
  process_loop chunk argument result i ls removed w =
  (Ok (removed ++ seq i (length ls)), set_futures (fail_pending e ls (futures w)) w).
Proof.
  revert i removed w. induction ls as [|l ls IH]; intros i removed w Hnd Hw He.
  - cbn. rewrite app_nil_r. by destruct w.
  - inversion Hnd as [|? ? Hnotin Hnd']; subst.
    inversion Hw as [|? ? Hl Hw']; subst. inversion He as [|? ? Hel He']; subst.
    cbn [process_loop length seq fail_pending fold_left].
    destruct (type l). cbn [ListenerType_eqb negb].
    assert (Hrest : forall v, Forall (waiting (<[future l := v]> (futures w))) ls).
    { intros v. apply Forall_forall. intros l' Hin.
      pose proof (proj1 (Forall_forall _ _) Hw' l' Hin) as Hl'. unfold waiting in *.
      assert (future l <> future l').
      { intros Heq. apply Hnotin. rewrite Heq.
        apply (list_elem_of_fmap_2 future). by apply list_elem_of_In. }
      by rewrite lookup_insert_ne. }
    destruct Hl as [Hl|Hl].
    + unfold bind at 1. unfold future_cancelled at 1. rewrite Hl, Hel.
      unfold bind at 1. unfold future_set_exception, future_resolve. rewrite Hl.
      rewrite (IH _ _ (set_futures _ w)); [|done|apply Hrest|done].
      cbn. rewrite <- app_assoc. done.
    + unfold bind at 1. unfold future_cancelled at 1. rewrite Hl.
      rewrite IH by done. by rewrite <- app_assoc.
Qed.

(** Resolving with an argument on which every predicate raises (a chunk for
    a guild that is not cached gives the listeners of [receive_chunk] the
    argument [None]): every waiting listener leaves the registry, the pending
    futures now hold the exception and the cancelled ones stay cancelled; no
    future gets the result. *)
Theorem process_listeners_all_raise (e : Exn) (argument : option Guild) (result : Z)
    (w : World) :
  NoDup (future <$> _listeners (self w)) ->
  Forall (waiting (futures w)) (_listeners (self w)) ->
  Forall (fun l => predicate l argument = Raise e) (_listeners (self w)) ->
  process_listeners chunk argument result w =
  (Ok tt,
   with_self (set_listeners [])
     (set_futures (fail_pending e (_listeners (self w)) (futures w)) w)).
Proof.
  intros Hnd Hw He. unfold process_listeners.
  erewrite bind_ok by reflexivity.
  erewrite bind_ok by (by apply process_loop_all_raise).
  unfold modify. f_equal. unfold with_self, set_listeners. cbn [app self set_futures].
  do 2 f_equal.
  exact (delete_indices_all [] (_listeners (self w))).
Qed.

Lemma chunk_count_bounds (count : Z) :
  (count <= 0 -> chunk_count count = 0%nat) /\
  (0 < count ->
   1000 * (Z.of_nat (chunk_count count) - 1) < count <= 1000 * Z.of_nat (chunk_count count)).
Proof.
  unfold chunk_count, ceil_div.
  pose proof (Z.div_mod (- count) 1000 ltac:(lia)) as Hdm.
  pose proof (Z.mod_pos_bound (- count) 1000 ltac:(lia)) as Hmod.
  split; intros H.
  - lia.
  - lia.
Qed.

Lemma pending_all_keep (fs : list addr) (s : gmap addr FutureState) (f : addr) :
  s !! f = Some Pending -> pending_all fs s !! f = Some Pending.
Proof.
  revert s. induction fs as [|f' fs IH]; intros s Hs; [done|].
  unfold pending_all. cbn [fold_left]. apply IH.
  rewrite lookup_insert. by case_decide.
Qed.

Lemma pending_all_lookup (fs : list addr) (s : gmap addr FutureState) (f : addr) :
  f ∈ fs -> pending_all fs s !! f = Some Pending.
Proof.
  revert s. induction fs as [|f' fs IH]; intros s Hf; [by apply not_elem_of_nil in Hf|].
  unfold pending_all. cbn [fold_left]. apply elem_of_cons in Hf as [->|Hf].
  - apply pending_all_keep, lookup_insert_eq.
  - by apply IH.
Qed.

(** *** The ceiling of the float quotient *)

Lemma round_nearest_even_bounds (a b : Z) :
  0 < b ->
  2 * (b * round_nearest_even a b) - b <= 2 * a <= 2 * (b * round_nearest_even a b) + b.
Proof.
  intros Hb. unfold round_nearest_even.
  pose proof (Z.div_mod a b ltac:(lia)) as Hdm.
  pose proof (Z.mod_pos_bound a b Hb) as Hr.
  destruct (Z.ltb_spec (2 * (a mod b)) b); [nia|].
  destruct (Z.ltb_spec b (2 * (a mod b))); [nia|].
  destruct (Z.even (a / b)); nia.
Qed.

Lemma round_nearest_even_exact (q b : Z) :
  0 < b -> round_nearest_even (b * q) b = q.
Proof.
  intros Hb. unfold round_nearest_even.
  replace (b * q) with (q * b) by lia.
  rewrite Z.div_mul, Z.mod_mul by lia.
  destruct (Z.ltb_spec (2 * 0) b); [done|lia].
Qed.

Lemma log2_quotient_small (a : Z) :
  0 < a < 1000 * 2 ^ 44 -> log2_quotient a 1000 <= 43.
Proof.
  intros Ha. unfold log2_quotient.
  change (Z.log2 1000) with 9.
  assert (Z.log2 a <= 53).
  { assert (Z.log2 a < 54); [|lia]. apply Z.log2_lt_pow2; [lia|]. 
    change (2 ^ 54) with 18014398509481984. change (2 ^ 44) with 17592186044416 in Ha. lia. }
  destruct (Z.eq_dec (Z.log2 a) 53) as [E|E].
  - rewrite E. change (53 - 9) with 44. cbn [Z.opp Z.max Z.compare].
    change (Z.max 0 (-44)) with 0. change (Z.max 0 44) with 44.
    rewrite Z.pow_0_r, Z.mul_1_r.
    destruct (Z.ltb_spec a (1000 * 2 ^ 44)); lia.
  - destruct (_ <? _); lia.
Qed.

Lemma log2_quotient_le (a : Z) :
  0 < a <= 1000 * 2 ^ 44 -> log2_quotient a 1000 <= 44.
Proof.
  intros Ha. unfold log2_quotient.
  change (Z.log2 1000) with 9.
  assert (Z.log2 a <= 53).
  { assert (Z.log2 a < 54); [|lia]. apply Z.log2_lt_pow2; [lia|]. 
    change (2 ^ 54) with 18014398509481984. change (2 ^ 44) with 17592186044416 in Ha. lia. }
  destruct (_ <? _); lia.
Qed.

(** The float quotient by 1000, at a precision of [2 ^ s] with [s >= 9],
    lies strictly between the two integers around the exact quotient when
    the division leaves a remainder. *)
Lemma mantissa_between (a P : Z) :
  0 < a -> 512 <= P -> a mod 1000 <> 0 ->
  let m := round_nearest_even (a * P) 1000 in
  (a / 1000) * P < m < (a / 1000 + 1) * P.
Proof.
  intros Ha HP Ht m.
  pose proof (round_nearest_even_bounds (a * P) 1000 ltac:(lia)) as Hm. fold m in Hm.
  pose proof (Z.div_mod a 1000 ltac:(lia)) as Hdm.
  pose proof (Z.mod_pos_bound a 1000 ltac:(lia)) as Hr.
  set (j := a / 1000) in *. set (t := a mod 1000) in *.
  assert (Ht1 : 1 <= t <= 999) by lia.
  assert (HtP : P <= t * P <= 999 * P) by nia.
  assert (HaP : a * P = 1000 * (j * P) + t * P) by nia.
  set (X := j * P) in *. set (Y := t * P) in *.
  replace ((j + 1) * P) with (X + P) by (unfold X; lia).
  lia.
Qed.

Lemma div_between (m P j : Z) :
  0 < P -> j * P < m < (j + 1) * P ->
  - ((- m) / P) = j + 1 /\ - (m / P) = - j.
Proof.
  intros HP Hm. split.
  - assert ((- m) / P = - (j + 1)); [|lia].
    symmetry. apply (Z.div_unique_pos (- m) P (- (j + 1)) ((j + 1) * P - m)); lia.
  - assert (m / P = j); [|lia].
    symmetry. apply (Z.div_unique_pos m P j (m - j * P)); lia.
Qed.

Lemma ceil_div_matches_float (n : Z) :
  Z.abs n <= max_exact_count ->
  ceil_true_div n 1000 = Some (ceil_div n 1000).
Proof.
  unfold max_exact_count. intros Hn.
  destruct (Z.eq_dec n 0) as [->|Hn0]; [reflexivity|].
  unfold ceil_true_div, true_div. rewrite (proj2 (Z.eqb_neq n 0) Hn0).
  set (a := Z.abs n). assert (Ha : 0 < a <= 1000 * 2 ^ 44) by (unfold a; lia).
  pose proof (log2_quotient_le a Ha) as He.
  set (e := log2_quotient a 1000) in *.
  assert (Hex : e - 52 < 0) by lia.
  replace (Z.max 0 (e - 52)) with 0 by lia.
  replace (Z.max 0 (- (e - 52))) with (52 - e) by lia.
  rewrite Z.pow_0_r, Z.mul_1_r.
  replace (0 <=? e - 52) with false by (symmetry; apply Z.leb_gt; lia).
  cbn [andb mbind option_bind]. f_equal. unfold float_ceil, ceil_div.
  replace (Z.max 0 (e - 52)) with 0 by lia.
  replace (Z.max 0 (- (e - 52))) with (52 - e) by lia.
  rewrite Z.pow_0_r, Z.mul_1_r.
  set (P := 2 ^ (52 - e)).
  assert (HP0 : 0 < P) by (apply Z.pow_pos_nonneg; lia).
  set (m := round_nearest_even (a * P) 1000).
  pose proof (Z.div_mod a 1000 ltac:(lia)) as Hdm.
  destruct (Z.eq_dec (a mod 1000) 0) as [Hz|Hnz].
  - (* the quotient is an integer: the float is exact *)
    assert (Hm : m = (a / 1000) * P).
    { unfold m. replace (a * P) with (1000 * ((a / 1000) * P)) by lia.
      apply round_nearest_even_exact. lia. }
    assert (Hdiv : (a / 1000 * P) / P = a / 1000) by (apply Z.div_mul; lia).
    assert (Hdivn : (- (a / 1000) * P) / P = - (a / 1000)) by (apply Z.div_mul; lia).
    destruct (Z.sgn_spec n) as [[Hpos Hs]|[[? ?]|[Hneg Hs]]]; [|lia|]; rewrite Hs, Hm.
    + rewrite Z.mul_1_l. replace (- (a / 1000 * P)) with (- (a / 1000) * P) by lia.
      rewrite Hdivn. replace n with a by (unfold a; lia).
      replace (- a) with (- (a / 1000) * 1000) by lia.
      rewrite Z.div_mul by lia. lia.
    + rewrite Z.mul_opp_l, Z.mul_1_l, Z.opp_involutive.
      rewrite Hdiv. replace (- n) with a by (unfold a; lia).
      lia.
  - (* a remainder: the precision is at least 2 ^ 9 *)
    assert (Hlt : a < 1000 * 2 ^ 44).
    { destruct (Z.eq_dec a (1000 * 2 ^ 44)) as [E|E]; [|lia].
      exfalso. apply Hnz. rewrite E, Z.mul_comm. apply Z.mod_mul. lia. }
    pose proof (log2_quotient_small a ltac:(lia)) as He'. fold e in He'.
    assert (HP : 512 <= P).
    { unfold P. change 512 with (2 ^ 9). apply Z.pow_le_mono_r; lia. }
    pose proof (mantissa_between a P ltac:(lia) HP Hnz) as Hb. cbn zeta in Hb. fold m in Hb.
    destruct (div_between m P (a / 1000) HP0 Hb) as [Hc Hf].
    pose proof (Z.mod_pos_bound a 1000 ltac:(lia)) as Hr.
    destruct (Z.sgn_spec n) as [[Hpos Hs]|[[? ?]|[Hneg Hs]]]; [|lia|]; rewrite Hs.
    + rewrite Z.mul_1_l, Hc.
      replace n with a by (unfold a; lia).
      assert ((- a) / 1000 = - (a / 1000 + 1)); [|lia].
      symmetry. apply (Z.div_unique_pos (- a) 1000 _ (1000 - a mod 1000)); lia.
    + rewrite Z.mul_opp_l, Z.mul_1_l, Z.opp_involutive.
      replace (- n) with a by (unfold a; lia). lia.
Qed.

(** One more member than [max_exact_count]: the float quotient is rounded
    down to an integer, and its ceiling is one less than the exact one. *)
Example float_ceiling_differs :
  ceil_true_div (max_exact_count + 1) 1000 = Some 17592186044416 /\
  ceil_div (max_exact_count + 1) 1000 = 17592186044417 /\
  ceil_true_div (10 ^ 400) 1000 = None.
Proof. vm_compute. repeat split; reflexivity. Qed.

Lemma chunk_count_float (count : Z) :
  Z.abs count <= max_exact_count ->
  float_chunk_count count = Some (chunk_count count).
Proof.
  intros H. unfold float_chunk_count, chunk_count.
  by rewrite (ceil_div_matches_float count H).
Qed.

(** [chunks_needed] on a guild of the store whose member count is at most
    [1000 * 2 ^ 44] in absolute value: the number of futures is the
    [math.ceil(member_count / 1000)] of the source, taken on the float
    quotient, and in this range it is the exact ceiling: none for a count of
    0 or less, and otherwise the least number of thousands that covers the
    count.  The futures are new and pending, each with a listener for the
    guild, appended in order to the registry. *)
Theorem chunks_needed_count (w : World) (a : addr) (g : Guild) :
  guild_objs w !! a = Some g ->
  Z.abs (_member_count g) <= max_exact_count ->
  exists fs w',
    chunks_needed a w = (Ok fs, w') /\
    float_chunk_count (_member_count g) = Some (length fs) /\
    fs = seq (next_addr w) (length fs) /\
    _listeners (self w') = _listeners (self w) ++ chunk_listeners (guild_id g) fs /\
    Forall (fun f => futures w' !! f = Some Pending) fs /\
    (_member_count g <= 0 -> fs = []) /\
    (0 < _member_count g ->
     1000 * (Z.of_nat (length fs) - 1) < _member_count g <= 1000 * Z.of_nat (length fs)).
Proof.
  intros Ha Hexact. eexists _, _. split; [by apply chunks_needed_ok|].
  fold (chunk_count (_member_count g)).
  destruct (chunk_count_bounds (_member_count g)) as [H0 H1].
  rewrite length_seq. split; [by apply chunk_count_float|].
  split; [done|]. split; [done|]. split.
  - cbn [futures registered with_self set_futures].
    apply Forall_forall. intros f Hf. by apply pending_all_lookup, list_elem_of_In.
  - split; [by intros ->%H0|done].
Qed.

Lemma splits_of_spec {A : Type} (fuel : nat) (l : list A) :
  (length l <= fuel)%nat ->
  concat (splits_of fuel l) = l /\
  Forall (fun s => (0 < length s <= 75)%nat) (splits_of fuel l) /\
  (length l <= 75 * length (splits_of fuel l) < length l + 75)%nat.
Proof.
  revert l. induction fuel as [|fuel IH]; intros l Hl.
  - destruct l; [|cbn in Hl; lia]. cbn. repeat split; try constructor; lia.
  - destruct l as [|x l]; [cbn; repeat split; try constructor; lia|].
    cbn [splits_of]. set (l' := x :: l) in *.
    destruct (IH (drop 75 l')) as (Hc & Hf & Hn).
    { rewrite length_drop. cbn in Hl |- *. lia. }
    cbn [concat]. rewrite Hc, take_drop. split; [done|]. split.
    + constructor; [|done]. rewrite length_take. unfold l'. cbn [length]. lia.
    + rewrite length_drop in Hn. unfold l' in *. cbn [length] in *. lia.
Qed.

Lemma splits75_concat {A : Type} (l : list A) : concat (splits75 l) = l.
Proof. by destruct (splits_of_spec (length l) l) as (H & _ & _); [lia|]. Qed.

(** The chunk requests are cut from the pending list in its order, in
    batches of 1 to 75 guilds, as few as the length allows. *)
Theorem splits75_partition {A : Type} (l : list A) :
  concat (splits75 l) = l /\
  Forall (fun s => (0 < length s <= 75)%nat) (splits75 l) /\
  (length l <= 75 * length (splits75 l) < length l + 75)%nat.
Proof. apply splits_of_spec. lia. Qed.

Lemma pending_all_app (fs1 fs2 : list addr) (s : gmap addr FutureState) :
  pending_all (fs1 ++ fs2) s = pending_all fs2 (pending_all fs1 s).
Proof. unfold pending_all. by rewrite fold_left_app. Qed.

Lemma mapM_chunks_needed (gs : list addr) (w : World) :
  Forall (fun a => is_Some (guild_objs w !! a)) gs ->
  exists chunks,
    concat chunks = seq (next_addr w) (planned (guild_objs w) gs) /\
    mapM chunks_needed gs w =
    (Ok chunks,
     with_self (fun s => set_listeners
                  (_listeners s ++ planned_listeners (guild_objs w) (next_addr w) gs) s)
       (set_futures (pending_all (seq (next_addr w) (planned (guild_objs w) gs)) (futures w))
          (set_next_addr (planned (guild_objs w) gs + next_addr w)%nat w))).
Proof.
  revert w. induction gs as [|a gs IH]; intros w Hst.
  - exists []. split; [done|]. cbn. unfold ret. f_equal.
    unfold with_self, set_listeners, set_futures, set_next_addr. cbn.
    rewrite app_nil_r. by destruct w as [[]].
  - inversion Hst as [|? ? [g Hg] Hst']; subst.
    pose proof (chunks_needed_ok w a g Hg) as Hc. cbn zeta in Hc.
    fold (chunk_count (_member_count g)) in Hc.
    set (n := chunk_count (_member_count g)) in *.
    set (w1 := registered (guild_id g) (seq (next_addr w) n) w) in *.
    destruct (IH w1 Hst') as (chunks & Hcat & Hrun).
    exists (seq (next_addr w) n :: chunks). cbn [planned planned_listeners concat].
    rewrite Hg. fold n. split.
    + rewrite Hcat. cbn [next_addr w1 registered with_self set_futures set_next_addr].
      rewrite length_seq, seq_app. f_equal. f_equal. lia.
    + cbn [mapM]. erewrite bind_ok by exact Hc. erewrite bind_ok by exact Hrun.
      unfold ret. f_equal.
      unfold w1, registered, with_self, set_listeners, set_futures, set_next_addr. cbn.
      rewrite length_seq, <- app_assoc, seq_app, pending_all_app.
      replace (n + next_addr w)%nat with (next_addr w + n)%nat by lia.
      f_equal. lia.
Qed.

Lemma planned_listeners_futures (objs : gmap addr Guild) (next : addr) (gs : list addr) :
  Forall (fun a => is_Some (objs !! a)) gs ->
  future <$> planned_listeners objs next gs = seq next (planned objs gs).
Proof.
  revert next. induction gs as [|a gs IH]; intros next Hst; [done|].
  inversion Hst as [|? ? [g Hg] Hst']; subst. cbn [planned planned_listeners]. rewrite Hg.
  rewrite fmap_app, IH by done. rewrite seq_app. f_equal.
  - unfold chunk_listeners. rewrite <- list_fmap_compose.
    generalize (seq next (chunk_count (_member_count g))). intros l.
    induction l as [|x l IHl]; [done|]. cbn. by rewrite IHl.
  - f_equal. lia.
Qed.

Lemma run_after_wait (n : nat) (w : World) :
  guilds_stored w ->
  run_task (S (S n)) (DelayReady DR_wait) w = (Ok None, ready_dispatched w).
Proof.
  intros Hst. pose proof (dr_after_wait_ok w Hst) as Hw. unfold ready_dispatched.
  destruct (negb (default false (is_bot (self w)))).
  - erewrite run_task_step by (apply resume_delay_ready; exact Hw).
    by erewrite run_task_done by (apply resume_delay_ready_done; reflexivity).
  - by erewrite run_task_done by (apply resume_delay_ready_done; exact Hw).
Qed.

Lemma set_io_log_same (w : World) : set_io_log (io_log w ++ []) w = w.
Proof. unfold set_io_log. rewrite app_nil_r. by destruct w. Qed.

Lemma run_requests (rest : list (list addr)) (chunks : list addr) (n : nat) (w : World) :
  guilds_stored w ->
  run_task (length rest + S (S (S n))) (DelayReady (DR_chunker chunks rest)) w =
  (Ok None,
   ready_dispatched (chunks_awaited chunks (set_io_log (io_log w ++ map Chunker rest) w))).
Proof.
  revert w. induction rest as [|split rest IH]; intros w Hst.
  - cbn [length map Nat.add]. rewrite set_io_log_same.
    destruct chunks as [|f chunks].
    + set (t := DelayReady (DR_chunker [] [])).
      pose proof (run_after_wait (S n) w Hst) as H.
      cbn [run_task] in H |- *. exact H.
    + rewrite run_from_chunker by done. reflexivity.
  - cbn [length map Nat.add].
    erewrite run_task_step by (apply resume_delay_ready; reflexivity).
    rewrite IH by done. cbn [io_log set_io_log]. rewrite <- app_assoc. reflexivity.
Qed.

Lemma dr_chunking_any (w : World) (rs : ReadyState) :
  _ready_state (self w) = Some rs ->
  Forall (fun a => is_Some (guild_objs w !! a)) (guilds rs) ->
  let n := planned (guild_objs w) (guilds rs) in
  let w1 :=
    with_self (fun s => set_listeners
                 (_listeners s ++ planned_listeners (guild_objs w) (next_addr w) (guilds rs)) s)
      (set_futures (pending_all (seq (next_addr w) n) (futures w))
         (set_next_addr (n + next_addr w)%nat w)) in
  dr_chunking w = dr_requests (seq (next_addr w) n) (splits75 (guilds rs)) w1.
Proof.
  intros Hrs Hst n w1. unfold dr_chunking, ready_state.
  erewrite bind_ok by (by rewrite Hrs). cbn zeta.
  destruct (mapM_chunks_needed (guilds rs) w Hst) as (chunks & Hcat & Hrun).
  erewrite bind_ok by exact Hrun. cbn beta. subst n w1. f_equal. exact Hcat.
Qed.

Lemma run_from_chunking (pc : DelayReadyPc) (w : World) (rs : ReadyState) (k : nat) :
  delay_ready_resume pc w = dr_chunking w ->
  _ready_state (self w) = Some rs ->
  Forall (fun a => is_Some (guild_objs w !! a)) (guilds rs) ->
  guilds_stored w ->
  run_task (length (splits75 (guilds rs)) + 4 + k) (DelayReady pc) w =
  (Ok None, handshake_done (guilds rs) w).
Proof.
  intros Hpc Hrs Hst Hall. rewrite (dr_chunking_any w rs Hrs Hst) in Hpc.
  cbn zeta in Hpc. unfold handshake_done. cbn zeta.
  set (n := planned (guild_objs w) (guilds rs)) in *.
  set (chunks := seq (next_addr w) n) in *.
  set (w1 := with_self _ _) in *.
  pose proof (splits75_concat (guilds rs)) as Hcat.
  destruct (splits75 (guilds rs)) as [|split rest].
  - cbn in Hcat. assert (Hn : n = 0%nat) by (unfold n; by rewrite <- Hcat).
    unfold chunks. rewrite Hn. cbn [seq chunks_awaited map length Nat.add].
    rewrite set_io_log_same. unfold chunks in Hpc. rewrite Hn in Hpc.
    cbn [seq dr_requests dr_after_requests] in Hpc.
    pose proof (dr_after_wait_ok w1 Hall) as Hw. rewrite Hw in Hpc. unfold ready_dispatched.
    destruct (negb (default false (is_bot (self w1)))).
    + erewrite run_task_step by (apply resume_delay_ready; exact Hpc).
      by erewrite run_task_done by (apply resume_delay_ready_done; reflexivity).
    + by erewrite run_task_done by (apply resume_delay_ready_done; exact Hpc).
  - cbn [length dr_requests] in *.
    replace (S (length rest) + 4 + k)%nat with (S (length rest + S (S (S (S k))))) by lia.
    erewrite run_task_step by (apply resume_delay_ready; rewrite Hpc; reflexivity).
    rewrite run_requests by exact Hall.
    cbn [io_log set_io_log map]. by rewrite <- app_assoc.
Qed.

Lemma pending_exact_stored (w : World) (gs : list addr) :
  pending_exact w gs -> Forall (fun a => is_Some (guild_objs w !! a)) gs.
Proof.
  intros H. eapply Forall_impl; [|exact H]. intros a (g & Hg & _). by eexists.
Qed.

Lemma pending_exact_check (w : World) (gs : list addr) :
  forallb (fun a => match guild_objs w !! a with
                    | Some g => Z.abs (_member_count g) <=? max_exact_count
                    | None => false
                    end) gs = true ->
  pending_exact w gs.
Proof.
  intros H. apply Forall_forall. intros a Ha.
  pose proof (proj1 (forallb_forall _ _) H a Ha) as Hc. cbn beta in Hc.
  destruct (guild_objs w !! a) as [g|]; [|done].
  exists g. split; [done|]. by apply Z.leb_le.
Qed.

(** [_delay_ready] for any pending list of stored guilds whose member counts
    are at most [1000 * 2 ^ 44] in absolute value, resumed at each await with
    no handler in between: it returns; the listeners it registers are those
    of the pending guilds in their order, [math.ceil(member_count / 1000)]
    each (the float ceiling, which is the exact one in this range), on new
    pending futures; one chunk request goes out per batch of 75 guilds, in
    order; the wait is on exactly the new futures, with 30 time units each,
    and there is none when no chunk is needed; the ready state is discarded;
    a user session sends one sync request with the ids of the cached guilds,
    in some order; and ['ready'] is the last thing dispatched. *)
Theorem delay_ready_any_pending (w : World) (rs : ReadyState) (b : bool) :
  _ready_state (self w) = Some rs ->
  events w !! launch rs = Some b ->
  pending_exact w (guilds rs) ->
  guilds_stored w ->
  let n := planned (guild_objs w) (guilds rs) in
  let chunks := seq (next_addr w) n in
  let registered := planned_listeners (guild_objs w) (next_addr w) (guilds rs) in
  exists w' ids,
    run_task (length (splits75 (guilds rs)) + 5) (DelayReady DR_entry) w = (Ok None, w') /\
    Forall (fun a => exists g, guild_objs w !! a = Some g /\
                               float_chunk_count (_member_count g) =
                               Some (chunk_count (_member_count g))) (guilds rs) /\
    _listeners (self w') = _listeners (self w) ++ registered /\
    future <$> registered = chunks /\
    futures w' = pending_all chunks (futures w) /\
    _ready_state (self w') = None /\
    ids ≡ₚ cached_guild_ids w /\
    io_log w' =
      io_log w ++ (if b then [] else [Sleep 2]) ++ map Chunker (splits75 (guilds rs)) ++
      match chunks with [] => [] | _ => [Wait chunks (Z.of_nat n * 30)] end ++
      (if negb (default false (is_bot (self w)))
       then [Log info; Syncer ids] else []) ++
      [Dispatch ev_ready].
Proof.
  intros Hrs Hb Hexact Hall n chunks registered.
  pose proof (pending_exact_stored w (guilds rs) Hexact) as Hst.
  assert (Hfloat : Forall (fun a => exists g, guild_objs w !! a = Some g /\
                     float_chunk_count (_member_count g) =
                     Some (chunk_count (_member_count g))) (guilds rs)).
  { eapply Forall_impl; [|exact Hexact]. intros a (g & Hg & Hc).
    exists g. split; [done|]. by apply chunk_count_float. }
  assert (Hentry : delay_ready_resume DR_entry w = dr_loop (launch rs) w).
  { cbn [delay_ready_resume]. unfold ready_state. by erewrite bind_ok by (by rewrite Hrs). }
  assert (Hfut : future <$> registered = chunks)
    by (by apply planned_listeners_futures).
  destruct b.
  - exists (handshake_done (guilds rs) w), (cached_guild_ids w). split.
    { replace (length (splits75 (guilds rs)) + 5)%nat
        with (length (splits75 (guilds rs)) + 4 + 1)%nat by lia.
      apply run_from_chunking; try done. rewrite Hentry. by apply dr_loop_set. }
    split; [exact Hfloat|].
    unfold handshake_done, ready_dispatched, chunks_awaited. cbn zeta.
    fold n. fold chunks. fold registered.
    assert (Hlen : length chunks = n) by apply length_seq.
    destruct chunks; cbn; destruct (negb (default false (is_bot (self w))));
      cbn; rewrite <- ?Hlen, <- ?app_assoc; repeat split; try done.
  - set (w0 := set_io_log (io_log w ++ [Sleep 2])
                 (set_events (<[launch rs := true]> (events w)) w)).
    exists (handshake_done (guilds rs) w0), (cached_guild_ids w). split.
    { replace (length (splits75 (guilds rs)) + 5)%nat
        with (S (length (splits75 (guilds rs)) + 4 + 0)) by lia.
      erewrite run_task_step
        by (apply resume_delay_ready; rewrite Hentry; by apply dr_loop_unset).
      fold w0. apply run_from_chunking; try done.
      cbn [delay_ready_resume]. apply dr_loop_set. cbn. apply lookup_insert_eq. }
    split; [exact Hfloat|].
    unfold handshake_done, ready_dispatched, chunks_awaited. cbn zeta.
    change (guild_objs w0) with (guild_objs w). change (next_addr w0) with (next_addr w).
    fold n. fold chunks. fold registered.
    assert (Hlen : length chunks = n) by apply length_seq.
    destruct chunks; cbn; destruct (negb (default false (is_bot (self w))));
      cbn; rewrite <- ?Hlen, <- ?app_assoc; repeat split; try done.
Qed.

(** ** Guilds that go away and come back *)

Lemma guilds_stored_lookup (w : World) :
  guilds_stored w <->
  forall k a, _guilds (self w) !! k = Some a -> is_Some (guild_objs w !! a).
Proof.
  unfold guilds_stored, guilds_values. rewrite Forall_fmap, Forall_forall. split.
  - intros H k a Hk. apply (H (k, a)). by apply list_elem_of_In, elem_of_map_to_list.
  - intros H [k a] Hin. apply list_elem_of_In, elem_of_map_to_list in Hin. by apply (H k).
Qed.

Lemma guild_delete_unavailable (w : World) (del : GuildDeleteData) (k : Z) (a : addr)
    (g : Guild) :
  py_int (del_id del) = Ok k ->
  del_unavailable del = Some true ->
  _guilds (self w) !! k = Some a ->
  guild_objs w !! a = Some g ->
  handle parse_guild_delete del w =
  set_io_log (io_log w ++ [Dispatch (ev_guild_unavailable a)])
    (set_guild_objs (<[a := set_unavailable true g]> (guild_objs w)) w).
Proof.
  intros Hid Hun Hk Ha. unfold handle, parse_guild_delete.
  erewrite bind_ok by (unfold lift; by rewrite Hid).
  erewrite bind_ok by (unfold _get_guild, gets; by rewrite Hk).
  rewrite Hun. change (default false (Some true)) with true. cbn beta iota.
  erewrite bind_ok by (by apply deref_guild_ok).
  by erewrite bind_ok by reflexivity.
Qed.

(** A guild-delete event marked unavailable keeps the guild: the guild map
    and the buffer are as before, the object gets [unavailable = True] and
    one ['guild_unavailable'] is dispatched.  A guild-create event for the
    same id with [unavailable = false] then finds that object, clears the
    flag and merges the record into it; no object is built, the messages of
    the guild were never purged, and for a guild that is not large the two
    dispatches are ['guild_unavailable'] and ['guild_available'] with the
    same guild. *)
Theorem guild_unavailable_round_trip (w : World) (del : GuildDeleteData) (d : GuildData)
    (k : Z) (a : addr) (g : Guild) :
  py_int (del_id del) = Ok k ->
  del_unavailable del = Some true ->
  _guilds (self w) !! k = Some a ->
  guild_objs w !! a = Some g ->
  gd_unavailable d = Some false ->
  gd_id d = PyInt k ->
  gd_large d = false ->
  let w1 := handle parse_guild_delete del w in
  let w2 := handle parse_guild_create d w1 in
  self w1 = self w /\
  guild_objs w1 = <[a := set_unavailable true g]> (guild_objs w) /\
  io_log w1 = io_log w ++ [Dispatch (ev_guild_unavailable a)] /\
  self w2 = self w /\
  guild_objs w2 = <[a := merged_guild k g d]> (guild_objs w) /\
  unavailable (merged_guild k g d) = false /\
  next_addr w2 = next_addr w /\
  tasks w2 = tasks w /\
  io_log w2 =
    io_log w ++ [Dispatch (ev_guild_unavailable a); Dispatch (ev_guild_available a)].
Proof.
  intros Hid Hun Hk Ha Hun2 Hid2 Hsmall w1 w2.
  assert (H1 : w1 = set_io_log (io_log w ++ [Dispatch (ev_guild_unavailable a)])
                 (set_guild_objs (<[a := set_unavailable true g]> (guild_objs w)) w))
    by (by apply guild_delete_unavailable with (k := k)).
  assert (H2 : w2 = set_io_log (io_log w1 ++ [Dispatch (ev_guild_available a)])
                 (set_guild_objs
                    (<[a := merged_guild k (set_unavailable true g) d]> (guild_objs w1)) w1)).
  { unfold w2.
    rewrite (second_guild_create d k a (set_unavailable true g) w1 Hun2 Hid2).
    - cbn zeta. by rewrite Hsmall.
    - by rewrite H1.
    - rewrite H1. cbn. apply lookup_insert_eq. }
  rewrite H2, H1. cbn. rewrite insert_insert_eq, <- app_assoc, Hun2. done.
Qed.

(** ** A guild that arrives during the quiet period *)



(** ** The local user *)

(** [parse_user_update] builds a user object and binds it to [self.user]
    without going through the user cache: the cache keeps the object it
    held for that id, so a later [try_insert_user] with the same record
    still returns the old object, which is no longer the local user. *)
Theorem user_update_bypasses_cache (w : World) (data : UserData) (k : Z) (u : User) :
  py_int (ud_id data) = Ok k ->
  _users (self w) !! k = Some u ->
  (user_obj u < next_addr w)%nat ->
  let w1 := handle parse_user_update data w in
  user (self w1) = Some (mkUser (next_addr w) k (ud_username data)) /\
  _users (self w1) = _users (self w) /\
  try_insert_user data w1 = (Ok u, w1) /\
  user (self w1) <> Some u.
Proof.
  intros Hid Hu Hlt w1.
  assert (H1 : w1 = with_self (set_user (Some (mkUser (next_addr w) k (ud_username data))))
                      (set_next_addr (S (next_addr w)) w)).
  { unfold w1, handle, parse_user_update, User_new.
    erewrite bind_ok;
      [reflexivity|
       erewrite bind_ok by (unfold lift; by rewrite Hid);
       erewrite bind_ok by reflexivity; reflexivity]. }
  rewrite H1. cbn [self with_self set_user user _users set_next_addr].
  split; [done|]. split; [done|]. split.
  - unfold try_insert_user. erewrite bind_ok by (unfold lift; by rewrite Hid).
    erewrite bind_ok by reflexivity. cbn. by rewrite Hu.
  - intros [= <-]. cbn in Hlt. lia.
Qed.

(** ** Looking a channel up *)

Lemma find_guild_channel_spec (id : PyVal) (gs : list addr) (w : World) :
  Forall (fun a => is_Some (guild_objs w !! a)) gs ->
  exists r,
    find_guild_channel id gs w = (Ok r, w) /\
    match r with
    | Some c => guild_channel_in w gs id c
    | None => forall c, ~ guild_channel_in w gs id c
    end.
Proof.
  induction 1 as [|a gs [g Ha] _ (r & Hrun & Hr)].
  - exists None. split; [done|]. intros c (a & g & Hin & _). by apply not_elem_of_nil in Hin.
  - cbn [find_guild_channel]. erewrite bind_ok by (by apply deref_guild_ok).
    destruct (py_dict_get (_channels g) id) as [c|] eqn:Hc.
    + exists (Some c). split; [done|]. exists a, g. split; [apply list_elem_of_here|done].
    + exists r. split; [done|]. destruct r as [c|].
      * destruct Hr as (a' & g' & Hin & Hg' & Hc'). exists a', g'.
        split; [by apply list_elem_of_further|done].
      * intros c (a' & g' & Hin & Hg' & Hc'). apply elem_of_cons in Hin as [->|Hin].
        -- rewrite Ha in Hg'. injection Hg' as <-. by rewrite Hc in Hc'.
        -- apply (Hr c). by exists a', g'.
Qed.

(** [get_channel] never raises and never writes when the cached guilds are
    in the store.  It returns a channel of a cached guild whenever one of
    them has a channel under the id, also when a private channel has the
    same id; the private channel under the id is the answer only when no
    guild has one.  An id that is not an int (a string as the gateway sends
    it, or [None]) finds nothing. *)
Theorem get_channel_guild_first (id : PyVal) (w : World) :
  guilds_stored w ->
  exists r,
    get_channel id w = (Ok r, w) /\
    ((exists c, r = Some c /\ guild_channel_in w (guilds_values w) id c) \/
     ((forall c, ~ guild_channel_in w (guilds_values w) id c) /\
      r = py_dict_get (_private_channels (self w)) id)) /\
    ((forall z, id <> PyInt z) -> r = None).
Proof.
  intros Hst.
  assert (Hnone : forall v, (forall z, v <> PyInt z) ->
            forall c, ~ guild_channel_in w (guilds_values w) v c).
  { intros v Hv c (a & g & _ & _ & Hc). destruct v; try done. by apply (Hv z). }
  destruct (find_guild_channel_spec id (guilds_values w) w Hst) as (r & Hrun & Hr).
  assert (Hgen :
    (let* gs := gets guilds_values in
     let* channel := find_guild_channel id gs in
     match channel with
     | Some c => ret (Some c)
     | None => gets (fun w => py_dict_get (_private_channels (self w)) id)
     end) w =
    (Ok (match r with
         | Some c => Some c
         | None => py_dict_get (_private_channels (self w)) id
         end), w)).
  { erewrite bind_ok by reflexivity. erewrite bind_ok by exact Hrun. by destruct r. }
  destruct id as [|z|s].
  - exists None. split; [done|]. split; [|done]. right. split; [|done]. by apply Hnone.
  - eexists. split; [exact Hgen|]. split; [|intros Hz; by destruct (Hz z)].
    destruct r as [c|]; [left; by exists c|by right].
  - eexists. split; [exact Hgen|].
    assert (r = None) as ->.
    { destruct r as [c|]; [|done]. by destruct (Hnone (PyStr s) ltac:(done) c). }
    split; [right; split; [by apply Hnone|done]|done].
Qed.

(** ** Reactions to a message named by a string *)

Lemma find_from_none {A : Type} (p : A -> bool) (i : nat) (l : list A) :
  (forall x, p x = false) -> find_from p i l = None.
Proof.
  intros Hp. revert i. induction l as [|x l IH]; intros i; [done|].
  cbn. by rewrite Hp.
Qed.

(** The reaction handlers look the message up with [data['message_id']] as
    it is, and the messages of the buffer carry ints: for a message id that
    is not an int (the gateway sends ids as strings) both handlers return
    at once, whatever the buffer holds; no row changes and nothing is
    dispatched or logged. *)
Theorem reaction_message_id_not_int (data : ReactionData) (w : World) :
  (forall z, rd_message_id data <> PyInt z) ->
  parse_message_reaction_add data w = (Ok tt, w) /\
  parse_message_reaction_remove data w = (Ok tt, w).
Proof.
  intros Hid.
  assert (Hget : _get_message (rd_message_id data) w = (Ok None, w)).
  { unfold _get_message, gets. rewrite find_from_none; [done|].
    intros m. destruct (rd_message_id data); try done. by destruct (Hid z). }
  unfold parse_message_reaction_add, parse_message_reaction_remove.
  split; by erewrite bind_ok by exact Hget.
Qed.

(** ** Handlers in the engine *)

Lemma bindE_ok {A B : Type} (m : EngineM A) (k : A -> EngineM B) (e e' : Engine) (a : A) :
  m e = (Ok a, e') -> bindE m k e = k a e'.
Proof. intros H. unfold bindE. by rewrite H. Qed.

Lemma bindE_raise {A B : Type} (m : EngineM A) (k : A -> EngineM B) (e e' : Engine) (x : Exn) :
  m e = (Raise x, e') -> bindE m k e = (Raise x, e').
Proof. intros H. unfold bindE. by rewrite H. Qed.

Lemma liftM_run {A : Type} (m : M A) (e : Engine) (r : Result A) (w' : World) :
  m (world e) = (r, w') -> liftM m e = (r, mkEngine w' (signals e)).
Proof. intros H. unfold liftM. by rewrite H. Qed.

Lemma liftM_same {A : Type} (m : M A) (e : Engine) (r : Result A) :
  m (world e) = (r, world e) -> liftM m e = (r, e).
Proof. intros H. unfold liftM. rewrite H. by destruct e. Qed.

(** *** Deleting messages *)

Lemma find_from_app {A : Type} (p : A -> bool) (i : nat) (pre post : list A) (x : A) :
  Forall (fun y => p y = false) pre ->
  p x = true ->
  find_from p i (pre ++ x :: post) = Some ((i + length pre)%nat, x).
Proof.
  intros Hpre Hx. revert i. induction Hpre as [|y pre Hy _ IH]; intros i.
  - cbn. rewrite Hx. by rewrite Nat.add_0_r.
  - cbn. rewrite Hy, IH. do 2 f_equal. lia.
Qed.

Lemma deque_remove_first {A : Type} `{EqDecision A} (x : A) (pre post : list A) :
  Forall (fun y => y <> x) pre ->
  deque_remove x (pre ++ x :: post) = Ok (pre ++ post).
Proof.
  induction 1 as [|y pre Hy _ IH]; cbn.
  - by rewrite decide_True.
  - by rewrite decide_False, IH.
Qed.

Lemma messages_remove_first (m : Message) (pre post : list Message) (w : World) :
  messages (self w) = pre ++ m :: post ->
  Forall (fun y => y <> m) pre ->
  messages_remove m w = (Ok tt, with_self (set_messages (pre ++ post)) w).
Proof.
  intros Hms Hpre. unfold messages_remove.
  erewrite bind_ok by reflexivity. cbn beta. rewrite Hms.
  by erewrite bind_ok by (unfold lift; by rewrite deque_remove_first).
Qed.

Lemma get_message_oldest (k : Z) (pre post : list Message) (m : Message) (w : World) :
  messages (self w) = pre ++ m :: post ->
  Forall (fun m' => message_id m' <> k) pre ->
  message_id m = k ->
  _get_message (PyInt k) w = (Ok (Some (length pre, m)), w) /\
  messages_remove m w = (Ok tt, with_self (set_messages (pre ++ post)) w).
Proof.
  intros Hms Hpre Hm. split.
  - unfold _get_message, gets. rewrite Hms.
    rewrite (find_from_app _ 0 pre post m); [reflexivity| |].
    + eapply Forall_impl; [|exact Hpre]. intros m' Hm'. cbn. by apply Z.eqb_neq.
    + cbn. by apply Z.eqb_eq.
  - apply messages_remove_first; [done|].
    eapply Forall_impl; [|exact Hpre]. intros m' Hm' ->. by apply Hm'.
Qed.

(** A message-delete event removes one message, the oldest with the id of
    the record, and dispatches ['message_delete'] with it; later messages
    with the same id stay, and the order of the others is kept. *)
Theorem message_delete_oldest (data : MessageDeleteData) (e : Engine) (k : Z)
    (pre post : list Message) (m : Message) :
  py_int (mdel_id data) = Ok k ->
  messages (self (world e)) = pre ++ m :: post ->
  Forall (fun m' => message_id m' <> k) pre ->
  message_id m = k ->
  parse_message_delete data e =
  (Ok tt,
   mkEngine (with_self (set_messages (pre ++ post)) (world e))
     (signals e ++ [ev_message_delete m])).
Proof.
  intros Hid Hms Hpre Hm. unfold parse_message_delete.
  destruct (get_message_oldest k pre post m (world e) Hms Hpre Hm) as [Hget Hrm].
  erewrite bindE_ok by (apply liftM_same; unfold lift; by rewrite Hid).
  erewrite bindE_ok by (apply liftM_same; exact Hget).
  cbn beta iota.
  erewrite bindE_ok by reflexivity.
  apply liftM_run. exact Hrm.
Qed.

Lemma message_delete_unknown (data : MessageDeleteData) (e : Engine) (k : Z) :
  py_int (mdel_id data) = Ok k ->
  Forall (fun m' => message_id m' <> k) (messages (self (world e))) ->
  parse_message_delete data e = (Ok tt, e).
Proof.
  intros Hid Hms. unfold parse_message_delete.
  erewrite bindE_ok by (apply liftM_same; unfold lift; by rewrite Hid).
  assert (H : forall i, find_from (fun m => py_eq_int (message_id m) (PyInt k)) i
                          (messages (self (world e))) = None).
  { induction Hms as [|m ms Hm _ IH]; intros i; [done|].
    cbn. apply Z.eqb_neq in Hm. rewrite Hm. apply IH. }
  by erewrite bindE_ok by (apply liftM_same; unfold _get_message, gets; by rewrite H).
Qed.

Lemma tail_deque_append_fresh (maxlen : Z) (m : Message) (ms : list Message) :
  0 < maxlen ->
  Z.of_nat (length ms) <= maxlen ->
  deque_append maxlen m ms =
  (if Z.of_nat (length ms) =? maxlen then tail ms else ms) ++ [m].
Proof.
  intros Hpos Hlen. destruct (Z.eqb_spec (Z.of_nat (length ms)) maxlen) as [Heq|Hne].
  - by apply deque_append_full.
  - unfold deque_append. rewrite length_app. cbn [length].
    destruct (Z.gtb_spec (Z.of_nat (length ms + 1)) maxlen); [lia|done].
Qed.

(** A message that is created and then deleted leaves the buffer as it was
    when there was room for it; at capacity its creation evicted the oldest
    message, which the deletion does not bring back.  ['message'] and
    ['message_delete'] are dispatched with the same message. *)
Theorem message_create_delete_round_trip (d : MessageData) (del : MessageDeleteData)
    (e : Engine) (k : Z) (m : Message) :
  fst (created_message d (world e)) = Ok m ->
  message_id m = k ->
  py_int (mdel_id del) = Ok k ->
  Forall (fun m' => message_id m' <> k) (messages (self (world e))) ->
  0 < max_messages (self (world e)) ->
  Z.of_nat (length (messages (self (world e)))) <= max_messages (self (world e)) ->
  let e2 := run_events [MESSAGE_CREATE d; MESSAGE_DELETE del] e in
  messages (self (world e2)) =
    (if Z.of_nat (length (messages (self (world e)))) =? max_messages (self (world e))
     then tail (messages (self (world e))) else messages (self (world e))) /\
  io_log (world e2) = io_log (world e) ++ [Dispatch (ev_message m)] /\
  signals e2 = signals e ++ [ev_message_delete m].
Proof.
  intros Hm Hk Hid Hfresh Hpos Hlen e2.
  set (ms := messages (self (world e))) in *.
  set (kept := if Z.of_nat (length ms) =? max_messages (self (world e))
               then tail ms else ms).
  assert (Hkept : Forall (fun m' => message_id m' <> k) kept).
  { unfold kept. destruct (_ =? _); [|done]. destruct Hfresh; [constructor|done]. }
  set (e1 := snd (on_event (MESSAGE_CREATE d) e)).
  assert (H1 : messages (self (world e1)) = kept ++ [m] /\
               io_log (world e1) = io_log (world e) ++ [Dispatch (ev_message m)] /\
               signals e1 = signals e).
  { unfold e1. cbn [on_event liftM snd world signals].
    change (snd (parse_message_create d (world e)))
      with (handle parse_message_create d (world e)).
    rewrite parse_message_create_world, Hm. cbn. split; [|done].
    by apply tail_deque_append_fresh. }
  destruct H1 as (Hms1 & Hlog1 & Hsig1).
  unfold e2, run_events. cbn [fold_left]. fold e1.
  change (on_event (MESSAGE_DELETE del)) with (parse_message_delete del).
  clearbody e1.
  destruct (get_message_oldest k kept [] m (world e1) Hms1 Hkept Hk) as [Hget Hrm].
  unfold parse_message_delete.
  erewrite bindE_ok by (apply liftM_same; unfold lift; by rewrite Hid).
  erewrite bindE_ok by (apply liftM_same; exact Hget).
  cbn beta iota.
  erewrite bindE_ok by reflexivity.
  erewrite liftM_run by exact Hrm.
  cbn. by rewrite app_nil_r, Hlog1, Hsig1.
Qed.

Lemma mapM_py_int (vs : list PyVal) (ids : list Z) (w : World) :
  Forall2 (fun v k => py_int v = Ok k) vs ids ->
  mapM (fun v => lift (py_int v)) vs w = (Ok ids, w).
Proof.
  induction 1 as [|v k vs ids Hv _ IH]; [done|].
  cbn [mapM]. erewrite bind_ok by (unfold lift; by rewrite Hv).
  by erewrite bind_ok by exact IH.
Qed.

Lemma set_messages_same (w : World) : with_self (set_messages (messages (self w))) w = w.
Proof. by destruct w as [[] ? ? ? ? ? ?]. Qed.

Lemma bulk_delete_loop (ids : list Z) (l pre : list Message) (e : Engine) :
  messages (self (world e)) = pre ++ l ->
  Forall (fun m => id_in ids m = false) pre ->
  forE_ (List.filter (id_in ids) l)
    (fun msg => signal (ev_message_delete msg) ;;+ liftM (messages_remove msg)) e =
  (Ok tt,
   mkEngine
     (with_self (set_messages (pre ++ List.filter (fun m => negb (id_in ids m)) l)) (world e))
     (signals e ++ map ev_message_delete (List.filter (id_in ids) l))).
Proof.
  revert pre e. induction l as [|x l IH]; intros pre e Hms Hpre.
  - cbn. rewrite <- Hms, set_messages_same, app_nil_r. by destruct e.
  - cbn [List.filter]. destruct (id_in ids x) eqn:Hx; cbn [negb].
    + cbn [forE_ map].
      erewrite bindE_ok.
      2:{ erewrite bindE_ok by reflexivity. apply liftM_run. cbn [world].
          apply (messages_remove_first x pre l); [done|].
          eapply Forall_impl; [|exact Hpre]. intros y Hy ->. cbn in Hy. congruence. }
      rewrite (IH pre) by done. cbn. by rewrite <- app_assoc.
    + rewrite (IH (pre ++ [x])).
      * by rewrite <- app_assoc.
      * by rewrite <- app_assoc.
      * apply Forall_app. split; [done|]. by constructor.
Qed.

(** A bulk delete removes from the buffer exactly the messages whose id is
    among the ids of the record, and keeps the others in their order; it
    dispatches one ['message_delete'] for each message it removes, in the
    order of the buffer. *)
Theorem message_delete_bulk_filter (data : BulkDeleteData) (e : Engine) (ids : list Z) :
  Forall2 (fun v k => py_int v = Ok k) (default [] (bulk_ids data)) ids ->
  let ms := messages (self (world e)) in
  parse_message_delete_bulk data e =
  (Ok tt,
   mkEngine
     (with_self (set_messages (List.filter (fun m => negb (id_in ids m)) ms)) (world e))
     (signals e ++ map ev_message_delete (List.filter (id_in ids) ms))).
Proof.
  intros Hids ms. unfold parse_message_delete_bulk.
  erewrite bindE_ok by (apply liftM_same; by apply mapM_py_int).
  erewrite bindE_ok by (by apply liftM_same).
  cbn zeta. by rewrite (bulk_delete_loop ids ms []).
Qed.

(** *** Deleting channels *)

(** A channel-delete event that names no cached guild, for an id that is
    not among the private channels: the handler passes [None] to
    [_remove_private_channel], which reads [channel.id]: it raises
    [AttributeError], and the cache is as before. *)
Theorem channel_delete_unknown_raises (data : ChannelDeleteData) (e : Engine)
    (og : option Z) (cid : Z) :
  _get_as_snowflake (chd_guild_id data) = Ok og ->
  og ≫= (fun id => _guilds (self (world e)) !! id) = None ->
  py_int (chd_id data) = Ok cid ->
  _private_channels (self (world e)) !! cid = None ->
  parse_channel_delete data e = (Raise AttributeError, e).
Proof.
  intros Hg Hnone Hid Hpm. unfold parse_channel_delete.
  erewrite bindE_ok by (apply liftM_same; unfold lift; by rewrite Hg).
  erewrite bindE_ok
    by (apply liftM_same; destruct og; [unfold _get_guild, gets; cbn in Hnone; by rewrite Hnone|
                                        reflexivity]).
  erewrite bindE_ok by (apply liftM_same; unfold lift; by rewrite Hid).
  cbn beta iota.
  erewrite bindE_ok by (apply liftM_same; unfold _get_private_channel, gets; by rewrite Hpm).
  by apply liftM_same.
Qed.

(** A channel-delete event that names no cached guild, for a cached
    private channel: the channel leaves the private channels, and a DM
    channel leaves the index by user as well; nothing is dispatched, no
    ['channel_delete'] either. *)
Theorem channel_delete_private_silent (data : ChannelDeleteData) (e : Engine)
    (og : option Z) (cid : Z) (c : Channel) :
  _get_as_snowflake (chd_guild_id data) = Ok og ->
  og ≫= (fun id => _guilds (self (world e)) !! id) = None ->
  py_int (chd_id data) = Ok cid ->
  _private_channels (self (world e)) !! cid = Some c ->
  (channel_type c = private -> recipients c <> []) ->
  let s := self (world e) in
  let by_user :=
    match channel_type c, recipients c with
    | private, recipient :: _ => delete (user_id recipient) (_private_channels_by_user s)
    | _, _ => _private_channels_by_user s
    end in
  parse_channel_delete data e =
  (Ok tt,
   mkEngine
     (with_self (fun s => set_private_channels_by_user by_user
                   (set_private_channels (delete (channel_id c) (_private_channels s)) s))
        (world e))
     (signals e)).
Proof.
  intros Hg Hnone Hid Hpm Hdm s by_user. unfold parse_channel_delete.
  erewrite bindE_ok by (apply liftM_same; unfold lift; by rewrite Hg).
  erewrite bindE_ok
    by (apply liftM_same; destruct og; [unfold _get_guild, gets; cbn in Hnone; by rewrite Hnone|
                                        reflexivity]).
  erewrite bindE_ok by (apply liftM_same; unfold lift; by rewrite Hid).
  cbn beta iota.
  erewrite bindE_ok by (apply liftM_same; unfold _get_private_channel, gets; by rewrite Hpm).
  apply liftM_run. unfold _remove_private_channel.
  erewrite bind_ok by reflexivity. unfold by_user, s.
  destruct (channel_type c) eqn:Hty.
  2:{ destruct (recipients c) as [|recipient ?]; [by destruct Hdm|]. reflexivity. }
  all: unfold ret, with_self, set_private_channels_by_user, set_private_channels; cbn;
    by destruct (world e) as [[] ? ? ? ? ? ?].
Qed.

(** A channel-delete event for a channel of a cached guild: the channel
    leaves the guild object and ['channel_delete'] is dispatched with it; the
    private channels are not looked at, and when the guild has no channel
    under the id nothing happens. *)
Theorem channel_delete_guild_channel (data : ChannelDeleteData) (e : Engine)
    (gid cid : Z) (a : addr) (g : Guild) :
  _get_as_snowflake (chd_guild_id data) = Ok (Some gid) ->
  _guilds (self (world e)) !! gid = Some a ->
  guild_objs (world e) !! a = Some g ->
  py_int (chd_id data) = Ok cid ->
  parse_channel_delete data e =
  (Ok tt,
   match _channels g !! cid with
   | Some c =>
       mkEngine (set_guild_objs (<[a := _remove_channel c g]> (guild_objs (world e))) (world e))
         (signals e ++ [ev_channel_delete c])
   | None => e
   end).
Proof.
  intros Hg Hk Ha Hid. unfold parse_channel_delete.
  erewrite bindE_ok by (apply liftM_same; unfold lift; by rewrite Hg).
  erewrite bindE_ok by (apply liftM_same; unfold _get_guild, gets; by rewrite Hk).
  erewrite bindE_ok by (apply liftM_same; unfold lift; by rewrite Hid).
  cbn beta iota.
  erewrite bindE_ok by (apply liftM_same; by apply deref_guild_ok).
  destruct (_channels g !! cid) as [c|]; [|done].
  by erewrite bindE_ok by reflexivity.
Qed.

(** ** What holds of every world the engine reaches *)

Section Always.
Context (R : World -> World -> Prop).
Hypothesis R_refl : forall w, R w w.
Hypothesis R_trans : forall w1 w2 w3, R w1 w2 -> R w2 w3 -> R w1 w3.

Lemma always_ret {A : Type} (a : A) : always R (ret a).
Proof. intros w. apply R_refl. Qed.

Lemma always_raise {A : Type} (e : Exn) : always R (@raise A e).
Proof. intros w. apply R_refl. Qed.

Lemma always_lift {A : Type} (r : Result A) : always R (lift r).
Proof. intros w. apply R_refl. Qed.

Lemma always_gets {A : Type} (g : World -> A) : always R (gets g).
Proof. intros w. apply R_refl. Qed.

Lemma always_read {A : Type} (m : M A) : keeps (fun w => w) m -> always R m.
Proof. intros H w. rewrite (H w). apply R_refl. Qed.

Lemma always_bind {A C : Type} (m : M A) (k : A -> M C) :
  always R m -> (forall a, always R (k a)) -> always R (bind m k).
Proof.
  intros Hm Hk w. unfold bind. specialize (Hm w).
  destruct (m w) as [[a|e] w']; cbn in *; [|done].
  eapply R_trans; [exact Hm|apply Hk].
Qed.

Lemma always_modify (g : World -> World) : (forall w, R w (g w)) -> always R (modify g).
Proof. intros H w. apply H. Qed.

Lemma always_mapM {A C : Type} (k : A -> M C) (l : list A) :
  (forall a, always R (k a)) -> always R (mapM k l).
Proof.
  intros Hk. induction l as [|x l IH]; [apply always_ret|].
  cbn [mapM]. apply always_bind; [done|]. intros y.
  apply always_bind; [done|]. intros ys. apply always_ret.
Qed.

Lemma always_forM_ {A : Type} (l : list A) (k : A -> M unit) :
  (forall a, always R (k a)) -> always R (forM_ l k).
Proof.
  intros Hk. induction l as [|x l IH]; [apply always_ret|].
  cbn [forM_]. apply always_bind; [done|]. by intros _.
Qed.

Lemma always_repeatM {A : Type} (n : nat) (m : M A) :
  always R m -> always R (repeatM n m).
Proof.
  intros Hm. induction n as [|n IH]; [apply always_ret|].
  cbn [repeatM]. apply always_bind; [done|]. intros x.
  apply always_bind; [done|]. intros xs. apply always_ret.
Qed.

Lemma always_process_loop (t : ListenerType) (argument : option Guild) (result : Z)
    (ls : list Listener) (i : nat) (removed : list nat) :
  (forall w v, R w (set_futures v w)) ->
  always R (process_loop t argument result i ls removed).
Proof.
  intros Hf.
  assert (Hres : forall f v, always R (future_resolve f v)).
  { intros f v w. unfold future_resolve.
    destruct (futures w !! f) as [[]|]; cbn; try apply R_refl. apply Hf. }
  revert i removed. induction ls as [|l ls IH]; intros i removed; [apply always_ret|].
  cbn [process_loop]. destruct (negb _); [apply IH|].
  apply always_bind.
  { intros w. unfold future_cancelled. destruct (futures w !! future l) as [[]|]; apply R_refl. }
  intros [|]; [apply IH|].
  destruct (predicate l argument) as [[|]|e].
  - apply always_bind; [apply Hres|]. intros _.
    destruct (ListenerType_eqb _ _); [apply always_ret|apply IH].
  - apply IH.
  - apply always_bind; [apply Hres|]. intros _. apply IH.
Qed.

Lemma alwaysE_ret {A : Type} (a : A) : alwaysE R (retE a).
Proof. intros e. apply R_refl. Qed.

Lemma alwaysE_signal (s : Signal) : alwaysE R (signal s).
Proof. intros e. apply R_refl. Qed.

Lemma alwaysE_liftM {A : Type} (m : M A) : always R m -> alwaysE R (liftM m).
Proof. intros H e. apply H. Qed.

Lemma alwaysE_bind {A C : Type} (m : EngineM A) (k : A -> EngineM C) :
  alwaysE R m -> (forall a, alwaysE R (k a)) -> alwaysE R (bindE m k).
Proof.
  intros Hm Hk e. unfold bindE. specialize (Hm e).
  destruct (m e) as [[a|x] e']; cbn in *; [|done].
  eapply R_trans; [exact Hm|apply Hk].
Qed.

Lemma alwaysE_forE_ {A : Type} (l : list A) (k : A -> EngineM unit) :
  (forall a, alwaysE R (k a)) -> alwaysE R (forE_ l k).
Proof.
  intros Hk. induction l as [|x l IH]; [apply alwaysE_ret|].
  cbn [forE_]. apply alwaysE_bind; [done|]. by intros _.
Qed.
End Always.

Lemma always_mono {A : Type} (R R' : World -> World -> Prop) (m : M A) :
  (forall w w', R w w' -> R' w w') -> always R m -> always R' m.
Proof. intros H Hm w. apply H, Hm. Qed.

Lemma preserving_refl (I : World -> Prop) (w : World) : preserving I w w.
Proof. by intros H. Qed.

Lemma preserving_trans (I : World -> Prop) (w1 w2 w3 : World) :
  preserving I w1 w2 -> preserving I w2 w3 -> preserving I w1 w3.
Proof. intros H1 H2 H. by apply H2, H1. Qed.

Lemma guilds_frame_refl (w : World) : guilds_frame w w.
Proof. by repeat split. Qed.

Lemma guilds_frame_trans (w1 w2 w3 : World) :
  guilds_frame w1 w2 -> guilds_frame w2 w3 -> guilds_frame w1 w3.
Proof.
  intros (Ha & Hb & Hc & Hd & He) (Ha' & Hb' & Hc' & Hd' & He').
  repeat split; try congruence; [lia|]. intros l Hl. by apply He', He.
Qed.

Lemma buffer_frame_refl (w : World) : buffer_frame w w.
Proof. by repeat split. Qed.

Lemma buffer_frame_trans (w1 w2 w3 : World) :
  buffer_frame w1 w2 -> buffer_frame w2 w3 -> buffer_frame w1 w3.
Proof.
  intros (Ha & Hb & Hc) (Ha' & Hb' & Hc').
  repeat split; try congruence. intros H. by apply Hc, Hc'.
Qed.

Lemma capacity_frame_refl (w : World) : capacity_frame w w.
Proof. by repeat split. Qed.

Lemma capacity_frame_trans (w1 w2 w3 : World) :
  capacity_frame w1 w2 -> capacity_frame w2 w3 -> capacity_frame w1 w3.
Proof.
  intros (Ha & Hc) (Ha' & Hc').
  repeat split; try congruence. intros H. by apply Hc, Hc'.
Qed.

Lemma guilds_sound_frame (w w' : World) :
  guilds_frame w w' -> guilds_sound w -> guilds_sound w'.
Proof.
  intros (Ha & Hb & Hc & Hd & He) [Hk Hadr Hr]. split.
  - intros k a. rewrite Ha, Hb. apply Hk.
  - intros a. rewrite Hb. intros H. apply Hadr in H. lia.
  - intros rs. rewrite Hc, Hb. intros H. destruct (Hr rs H) as [Hl Hp].
    split; [by apply He|done].
Qed.

Lemma buffer_sound_frame (w w' : World) :
  buffer_frame w w' -> buffer_sound w -> buffer_sound w'.
Proof.
  intros (Ha & Hb & Hc) [Hcap Hlen Hrows Hnu]. split; rewrite ?Ha, ?Hb; try done.
  intros H. by apply Hnu, Hc.
Qed.

Lemma insert_keeps_events (evs : gmap addr bool) (l l' : addr) (b : bool) :
  is_Some (evs !! l') -> is_Some (<[l := b]> evs !! l').
Proof.
  intros H. destruct (decide (l = l')) as [->|Hne].
  - rewrite lookup_insert_eq. by eexists.
  - by rewrite lookup_insert_ne.
Qed.

(** The steps of a computation, one after the other. *)
Ltac always_steps Hrefl Htrans solve_step :=
  repeat first
    [ apply (always_ret _ Hrefl)
    | apply (always_raise _ Hrefl)
    | apply (always_lift _ Hrefl)
    | apply (always_gets _ Hrefl)
    | apply (always_read _ Hrefl);
        first [apply keeps_get_channel|apply keeps__get_member|apply keeps_find_guild_channel]
    | apply (always_bind _ Htrans); [|intros ?]
    | apply (always_mapM _ Hrefl Htrans); intros ?
    | apply (always_forM_ _ Hrefl Htrans); intros ?
    | apply (always_repeatM _ Hrefl Htrans)
    | apply (always_process_loop _ Hrefl Htrans); intros ? ?; solve_step
    | apply always_modify; intros ?; solve_step
    | match goal with
      | |- always _ (match ?x with _ => _ end) => destruct x
      | |- always _ (let (_, _) := ?x in _) => destruct x
      end
    | progress unfold emit, dispatch, create_task, event_put, store_guild, set_reactions,
        future_set_result, future_set_exception, dispatch_arrival, _get_guild, _get_guild_raw,
        _get_message, _get_reaction_emoji, is_self_user, Message_new, User_new,
        try_insert_user, receive_chunk, chunks_needed, process_listeners, _add_guild,
        _remove_guild, _add_private_channel, private_channel_new, _add_guild_from_data,
        _get_create_guild, parse_user_update, parse_message_create,
        parse_message_reaction_add, parse_message_reaction_remove, parse_guild_create,
        parse_guild_delete, parse_ready, ready_guilds_loop, dr_finish, dr_after_wait,
        dr_after_requests, dr_requests, dr_chunking, dr_loop, delay_ready_resume,
        chunk_and_dispatch_resume, resume, messages_remove, _get_private_channel,
        _remove_private_channel
    | (intros ?; unfold alloc, deref_guild, event_is_set, ready_state, future_cancelled,
         future_resolve; repeat case_match; cbn [snd]; solve_step) ].

Ltac solve_guilds_frame :=
  first [ apply guilds_frame_refl
        | by (unfold guilds_frame; cbn; repeat split; try lia; eauto using insert_keeps_events) ].

Ltac solve_buffer_frame :=
  first [ apply buffer_frame_refl
        | by (unfold buffer_frame; cbn; repeat split; try lia) ].

Ltac solve_capacity_frame :=
  first [ apply capacity_frame_refl
        | by (unfold capacity_frame; cbn; repeat split; try lia) ].

Ltac frames_guilds := always_steps guilds_frame_refl guilds_frame_trans solve_guilds_frame.
Ltac frames_buffer := always_steps buffer_frame_refl buffer_frame_trans solve_buffer_frame.
Ltac frames_capacity :=
  always_steps capacity_frame_refl capacity_frame_trans solve_capacity_frame.

Lemma frames_guilds_try_insert_user (d : UserData) : always guilds_frame (try_insert_user d).
Proof. frames_guilds. Qed.

Lemma frames_guilds_message_create (d : MessageData) :
  always guilds_frame (parse_message_create d).
Proof. frames_guilds. Qed.

Lemma frames_guilds_reaction_add (d : ReactionData) :
  always guilds_frame (parse_message_reaction_add d).
Proof. frames_guilds. Qed.

Lemma frames_guilds_reaction_remove (d : ReactionData) :
  always guilds_frame (parse_message_reaction_remove d).
Proof. frames_guilds. Qed.

Lemma frames_guilds_user_update (d : UserData) : always guilds_frame (parse_user_update d).
Proof. frames_guilds. Qed.

Lemma frames_guilds_process_listeners (argument : option Guild) (result : Z) :
  always guilds_frame (process_listeners chunk argument result).
Proof. frames_guilds. Qed.

Lemma frames_guilds_messages_remove (m : Message) : always guilds_frame (messages_remove m).
Proof. frames_guilds. Qed.

Lemma frames_buffer_ready (d : ReadyData) : always buffer_frame (parse_ready d).
Proof. frames_buffer. Qed.

Lemma frames_buffer_user_update (d : UserData) : always buffer_frame (parse_user_update d).
Proof. frames_buffer. Qed.

Lemma frames_buffer_guild_create (d : GuildData) : always buffer_frame (parse_guild_create d).
Proof. frames_buffer. Qed.

Lemma frames_buffer_process_listeners (argument : option Guild) (result : Z) :
  always buffer_frame (process_listeners chunk argument result).
Proof. frames_buffer. Qed.

Lemma frames_buffer_resume (t : Task) : always buffer_frame (resume t).
Proof. frames_buffer. Qed.

Lemma framed_guilds_sound {A : Type} (m : M A) :
  always guilds_frame m -> always (preserving guilds_sound) m.
Proof. apply always_mono. intros w w' Hf Hs. by eapply guilds_sound_frame. Qed.

Lemma framed_buffer_sound {A : Type} (m : M A) :
  always buffer_frame m -> always (preserving buffer_sound) m.
Proof. apply always_mono. intros w w' Hf Hs. by eapply buffer_sound_frame. Qed.

(** *** The buffer *)

Lemma Forall_sublist {A : Type} (P : A -> Prop) (l1 l2 : list A) :
  l1 `sublist_of` l2 -> Forall P l2 -> Forall P l1.
Proof.
  induction 1 as [|x l1 l2 _ IH|x l1 l2 _ IH]; intros H; [done|..];
    inversion H; subst; [constructor|]; auto.
Qed.

Lemma filter_sublist {A : Type} (p : A -> bool) (l : list A) :
  List.filter p l `sublist_of` l.
Proof.
  induction l as [|x l IH]; [constructor|]. cbn.
  destruct (p x); by constructor.
Qed.

Lemma deque_remove_sublist {A : Type} `{EqDecision A} (x : A) (d d' : list A) :
  deque_remove x d = Ok d' -> d' `sublist_of` d.
Proof.
  revert d'. induction d as [|y d IH]; intros d' H; [done|]. cbn in H.
  destruct (decide (y = x)).
  - injection H as <-. by constructor.
  - destruct (deque_remove x d) as [r|]; [|done]. injection H as <-.
    constructor. by apply IH.
Qed.

Lemma buffer_sound_sublist (w : World) (ms : list Message) :
  buffer_sound w ->
  ms `sublist_of` messages (self w) ->
  buffer_sound (with_self (set_messages ms) w).
Proof.
  intros [Hcap Hlen Hrows Hnu] Hsub. split; cbn.
  - done.
  - apply sublist_length in Hsub. lia.
  - by eapply Forall_sublist.
  - intros Hu. eapply Forall_sublist; [done|]. by apply Hnu.
Qed.

Lemma Forall_deque_append {A : Type} (P : A -> Prop) (maxlen : Z) (x : A) (d : list A) :
  Forall P d -> P x -> Forall P (deque_append maxlen x d).
Proof.
  intros Hd Hx. unfold deque_append.
  assert (Forall P (d ++ [x])) by (apply Forall_app; split; [done|by constructor]).
  destruct (_ >? _); [by apply Forall_tail|done].
Qed.

Lemma buffer_sound_append (w : World) (m : Message) :
  buffer_sound w ->
  reactions m = [] ->
  buffer_sound
    (with_self (fun s => set_messages (deque_append (max_messages s) m (messages s)) s) w).
Proof.
  intros [Hcap Hlen Hrows Hnu] Hm. split; cbn.
  - done.
  - by apply deque_append_length.
  - apply Forall_deque_append; [done|]. unfold rows_positive. rewrite Hm. constructor.
  - intros Hu. apply Forall_deque_append; [by apply Hnu|done].
Qed.

Lemma buffer_sound_insert (w : World) (i : nat) (m : Message) :
  buffer_sound w ->
  rows_positive m ->
  (user (self w) = None -> reactions m = []) ->
  buffer_sound (with_self (set_messages (<[i := m]> (messages (self w)))) w).
Proof.
  intros [Hcap Hlen Hrows Hnu] Hm Hu. split; cbn.
  - done.
  - by rewrite length_insert.
  - by apply Forall_insert.
  - intros H. apply Forall_insert; [by apply Hnu|by apply Hu].
Qed.

Lemma created_message_no_rows (d : MessageData) (w : World) (m : Message) :
  fst (created_message d w) = Ok m -> reactions m = [].
Proof.
  unfold created_message, bind, lift, Message_new.
  destruct (py_int (md_channel_id d)); [|done].
  destruct (get_channel _ w) as [[c|] w1]; [|done].
  destruct (py_int (md_id d)); [|done]. cbn. by intros [= <-].
Qed.

Lemma sound_buffer_message_create (d : MessageData) :
  always (preserving buffer_sound) (parse_message_create d).
Proof.
  intros w Hs.
  change (snd (parse_message_create d w)) with (handle parse_message_create d w).
  rewrite parse_message_create_world.
  destruct (fst (created_message d w)) as [m|] eqn:Hm; [|done].
  apply (buffer_sound_append (set_io_log _ w)); [by destruct Hs|].
  by eapply created_message_no_rows.
Qed.

Lemma sound_buffer_messages_remove (m : Message) :
  always (preserving buffer_sound) (messages_remove m).
Proof.
  intros w Hs. unfold messages_remove, bind, gets, lift, modify.
  destruct (deque_remove m (messages (self w))) as [ms|] eqn:E; cbn; [|done].
  apply buffer_sound_sublist; [done|]. by eapply deque_remove_sublist.
Qed.

Lemma sound_buffer_guild_delete (d : GuildDeleteData) :
  always (preserving buffer_sound) (parse_guild_delete d).
Proof.
  pose proof @framed_buffer_sound as Hfr.
  unfold parse_guild_delete.
  apply (always_bind _ (preserving_trans _)); [apply Hfr; frames_buffer|]. intros id.
  apply (always_bind _ (preserving_trans _)); [apply Hfr; frames_buffer|].
  intros [guild|]; [|apply (always_ret _ (preserving_refl _))].
  destruct (default false (del_unavailable d)); [apply Hfr; frames_buffer|].
  apply (always_bind _ (preserving_trans _)); [apply Hfr; frames_buffer|]. intros g.
  apply (always_bind _ (preserving_trans _)); [|intros _; apply Hfr; frames_buffer].
  intros w Hs. cbn -[deque_of_list].
  pose proof (filter_sublist (fun msg => guild_ne (message_guild w msg) g)
                (messages (self w))) as Hsub.
  change (buffer_sound
            (with_self
               (set_messages
                  (deque_of_list (max_messages (self w))
                     (List.filter (fun msg => guild_ne (message_guild w msg) g)
                        (messages (self w))))) w)).
  rewrite deque_of_list_fits.
  - by apply buffer_sound_sublist.
  - by destruct Hs.
  - apply sublist_length in Hsub. destruct Hs. lia.
Qed.

Lemma frames_buffer_reaction_tail (data : ReactionData) (d : option Who -> Dispatched) :
  always buffer_frame
    (let* channel := get_channel (rd_channel_id data) in
     let* member := _get_member channel (rd_user_id data) in
     dispatch (d member)).
Proof. frames_buffer. Qed.

Lemma target_rows_positive (w : World) (p : Message -> bool) (i : nat) (m : Message) :
  buffer_sound w ->
  find_from p 0 (messages (self w)) = Some (i, m) ->
  rows_positive m /\ (user (self w) = None -> reactions m = []).
Proof.
  intros [_ _ Hrows Hnu] Hfind.
  apply find_from_lookup in Hfind as (_ & Hi & _). rewrite Nat.sub_0_r in Hi. split.
  - by apply (Forall_lookup_1 _ _ _ _ Hrows Hi).
  - intros Hu. by apply (Forall_lookup_1 _ _ _ _ (Hnu Hu) Hi).
Qed.

Lemma sound_buffer_reaction_add (data : ReactionData) :
  always (preserving buffer_sound) (parse_message_reaction_add data).
Proof.
  intros w Hs. unfold parse_message_reaction_add.
  erewrite bind_ok by reflexivity.
  destruct (find_from _ 0%nat (messages (self w))) as [[i m]|] eqn:Hfind; [|done].
  destruct (target_rows_positive w _ i m Hs Hfind) as [Hrows _].
  unfold _get_reaction_emoji.
  destruct (negb (py_truthy (ed_id (rd_emoji data)))); [|done].
  erewrite bind_ok by reflexivity.
  destruct (user (self w)) as [u|] eqn:Hu.
  2:{ by erewrite bind_raise
        by (unfold is_self_user; erewrite bind_ok by reflexivity; cbn; by rewrite Hu). }
  erewrite bind_ok
    by (unfold is_self_user; erewrite bind_ok by reflexivity; cbn; by rewrite Hu).
  set (is_me := py_eq_int (user_id u) (rd_user_id data)).
  destruct (get_reaction (reactions m) _) as [[j r]|] eqn:Hrow.
  - erewrite bind_ok by (erewrite bind_ok by reflexivity; reflexivity).
    eapply buffer_sound_frame; [apply frames_buffer_reaction_tail|].
    apply (buffer_sound_insert w i (mkMessage _ _ _ _)); [done| |by rewrite Hu].
    apply Forall_insert; [done|].
    apply find_from_lookup in Hrow as (_ & Hj & _). rewrite Nat.sub_0_r in Hj.
    pose proof (Forall_lookup_1 _ _ _ _ Hrows Hj) as Hr. cbn beta in Hr.
    destruct is_me; cbn; lia.
  - erewrite bind_ok by (erewrite bind_ok by reflexivity; reflexivity).
    eapply buffer_sound_frame; [apply frames_buffer_reaction_tail|].
    apply (buffer_sound_insert w i (mkMessage _ _ _ _)); [done| |by rewrite Hu].
    apply Forall_app. split; [done|]. constructor; [cbn; lia|constructor].
Qed.

Lemma frames_capacity_reaction_remove (data : ReactionData) :
  always capacity_frame (parse_message_reaction_remove data).
Proof. frames_capacity. Qed.

Lemma sound_buffer_reaction_remove (data : ReactionData) :
  always (preserving buffer_sound) (parse_message_reaction_remove data).
Proof.
  intros w Hs.
  destruct (target_message data w) as [[i m]|] eqn:Hm.
  2:{ unfold parse_message_reaction_remove.
      erewrite bind_ok
        by (unfold _get_message, gets; fold (target_message data w); by rewrite Hm).
      done. }
  destruct (target_rows_positive w _ i m Hs Hm) as [Hrows Hnone].
  destruct (py_truthy (ed_id (rd_emoji data))) eqn:Hid.
  { by rewrite (proj2 (reaction_custom_emoji_raises data w i m Hm Hid)). }
  destruct (get_reaction (reactions m) (UnicodeEmoji (ed_name (rd_emoji data))))
    as [[j r]|] eqn:Hrow.
  2:{ unfold parse_message_reaction_remove.
      erewrite bind_ok
        by (unfold _get_message, gets; fold (target_message data w); by rewrite Hm).
      cbn beta iota.
      erewrite bind_ok by (unfold _get_reaction_emoji; by rewrite Hid).
      rewrite Hrow. eapply buffer_sound_frame; [|exact Hs]. by repeat split. }
  destruct (user (self w)) as [u|] eqn:Hu.
  2:{ rewrite (Hnone eq_refl) in Hrow. done. }
  set (is_me := py_eq_int (user_id u) (rd_user_id data)).
  set (r' := mkReaction (emoji r) (count r - 1) (if is_me then false else me r)).
  assert (Hbuf : messages (self (handle parse_message_reaction_remove data w)) =
                 <[i := with_reactions
                          (if count r - 1 =? 0 then delete j (<[j := r']> (reactions m))
                           else <[j := r']> (reactions m)) m]>
                   (messages (self w)))
    by remove_row_steps data w Hm Hid Hu Hrow is_me r'.
  unfold handle in Hbuf.
  destruct (frames_capacity_reaction_remove data w) as [Hmax Huser].
  destruct Hs as [Hcap Hlen Hall Hnu].
  apply find_from_lookup in Hrow as (_ & Hj & _). rewrite Nat.sub_0_r in Hj.
  pose proof (Forall_lookup_1 _ _ _ _ Hrows Hj) as Hr. cbn beta in Hr.
  split; rewrite ?Hmax, ?Hbuf.
  - done.
  - by rewrite length_insert.
  - apply Forall_insert; [done|]. unfold rows_positive. cbn [reactions with_reactions].
    destruct (Z.eqb_spec (count r - 1) 0) as [H0|H0].
    + rewrite delete_insert_same. by apply Forall_delete.
    + apply Forall_insert; [done|cbn; lia].
  - intros H. apply Huser in H. congruence.
Qed.

Lemma sound_buffer_reaction_remove_all (data : ReactionClearData) :
  alwaysE (preserving buffer_sound) (parse_message_reaction_remove_all data).
Proof.
  intros e Hs. unfold parse_message_reaction_remove_all, bindE, liftM, _get_message, gets.
  cbn [fst snd world signals].
  destruct (find_from _ 0%nat (messages (self (world e)))) as [[i m]|]; [|done].
  cbn. apply (buffer_sound_insert (world e) i (mkMessage _ _ _ [])); [done|constructor|done].
Qed.

Lemma sound_buffer_message_delete (data : MessageDeleteData) :
  alwaysE (preserving buffer_sound) (parse_message_delete data).
Proof.
  unfold parse_message_delete.
  apply (alwaysE_bind _ (preserving_trans _)).
  { apply alwaysE_liftM, (always_lift _ (preserving_refl _)). }
  intros k. apply (alwaysE_bind _ (preserving_trans _)).
  { apply alwaysE_liftM, (always_gets _ (preserving_refl _)). }
  intros [[i m]|]; [|apply (alwaysE_ret _ (preserving_refl _))].
  apply (alwaysE_bind _ (preserving_trans _)).
  { apply (alwaysE_signal _ (preserving_refl _)). }
  intros _. apply alwaysE_liftM, sound_buffer_messages_remove.
Qed.

Lemma sound_buffer_message_delete_bulk (data : BulkDeleteData) :
  alwaysE (preserving buffer_sound) (parse_message_delete_bulk data).
Proof.
  pose proof @framed_buffer_sound as Hfr.
  unfold parse_message_delete_bulk.
  apply (alwaysE_bind _ (preserving_trans _)).
  { apply alwaysE_liftM, Hfr. frames_buffer. }
  intros ids. apply (alwaysE_bind _ (preserving_trans _)).
  { apply alwaysE_liftM, (always_gets _ (preserving_refl _)). }
  intros ms. cbn zeta. apply (alwaysE_forE_ _ (preserving_refl _) (preserving_trans _)).
  intros m. apply (alwaysE_bind _ (preserving_trans _)).
  { apply (alwaysE_signal _ (preserving_refl _)). }
  intros _. apply alwaysE_liftM, sound_buffer_messages_remove.
Qed.

Lemma sound_buffer_channel_delete (data : ChannelDeleteData) :
  alwaysE (preserving buffer_sound) (parse_channel_delete data).
Proof.
  pose proof @framed_buffer_sound as Hfr.
  unfold parse_channel_delete.
  apply (alwaysE_bind _ (preserving_trans _)); [apply alwaysE_liftM, Hfr; frames_buffer|].
  intros og. apply (alwaysE_bind _ (preserving_trans _)).
  { apply alwaysE_liftM, Hfr. destruct og; frames_buffer. }
  intros guild. apply (alwaysE_bind _ (preserving_trans _)).
  { apply alwaysE_liftM, Hfr; frames_buffer. }
  intros cid. destruct guild as [guild|].
  - apply (alwaysE_bind _ (preserving_trans _)); [apply alwaysE_liftM, Hfr; frames_buffer|].
    intros g. destruct (_channels g !! cid); [|apply (alwaysE_ret _ (preserving_refl _))].
    apply (alwaysE_bind _ (preserving_trans _)); [apply alwaysE_liftM, Hfr; frames_buffer|].
    intros _. apply (alwaysE_signal _ (preserving_refl _)).
  - apply (alwaysE_bind _ (preserving_trans _)); [apply alwaysE_liftM, Hfr; frames_buffer|].
    intros c. apply alwaysE_liftM, Hfr. frames_buffer.
Qed.

(** *** The guild cache *)

Lemma guild_added_sound (g : Guild) (w : World) :
  guilds_sound w -> guilds_sound (guild_added g w).
Proof.
  intros [Hk Hadr Hr]. split; cbn.
  - intros k a Hka. destruct (decide (guild_id g = k)) as [<-|Hne].
    + rewrite lookup_insert_eq in Hka. injection Hka as <-.
      exists g. by rewrite lookup_insert_eq.
    + rewrite lookup_insert_ne in Hka by done.
      destruct (Hk k a Hka) as (g' & Ha & Hid). exists g'. split; [|done].
      rewrite lookup_insert_ne; [done|].
      intros <-. assert (next_addr w < next_addr w)%nat; [|lia].
      apply Hadr. by eexists.
  - intros a Ha. destruct (decide (next_addr w = a)) as [<-|Hne]; [lia|].
    rewrite lookup_insert_ne in Ha by done. apply Hadr in Ha. lia.
  - intros rs Hrs. destruct (Hr rs Hrs) as [Hl Hp]. split; [done|].
    eapply Forall_impl; [|exact Hp]. intros a Ha. cbn in *.
    destruct (decide (next_addr w = a)) as [<-|Hne].
    + rewrite lookup_insert_eq. by eexists.
    + by rewrite lookup_insert_ne.
Qed.

Lemma guild_stored_sound (a : addr) (g g' : Guild) (w : World) :
  guilds_sound w ->
  guild_objs w !! a = Some g ->
  guild_id g' = guild_id g ->
  guilds_sound (set_guild_objs (<[a := g']> (guild_objs w)) w).
Proof.
  intros [Hk Hadr Hr] Ha Hid. split; cbn.
  - intros k a' Hka. destruct (Hk k a' Hka) as (g0 & Ha' & Hid0).
    destruct (decide (a = a')) as [<-|Hne].
    + exists g'. rewrite lookup_insert_eq. split; [done|]. congruence.
    + exists g0. by rewrite lookup_insert_ne.
  - intros a' Ha'. apply Hadr. destruct (decide (a = a')) as [<-|Hne]; [by eexists|].
    by rewrite lookup_insert_ne in Ha'.
  - intros rs Hrs. destruct (Hr rs Hrs) as [Hl Hp]. split; [done|].
    eapply Forall_impl; [|exact Hp]. intros a' Ha'. cbn in *.
    destruct (decide (a = a')) as [<-|Hne].
    + rewrite lookup_insert_eq. by eexists.
    + by rewrite lookup_insert_ne.
Qed.

Lemma guilds_sound_pending (rs : ReadyState) (a : addr) (w : World) :
  guilds_sound w ->
  _ready_state (self w) = Some rs ->
  is_Some (guild_objs w !! a) ->
  guilds_sound
    (with_self (set_ready_state (Some (mkReadyState (launch rs) (guilds rs ++ [a]))))
       (set_events (<[launch rs := false]> (events w)) w)).
Proof.
  intros [Hk Hadr Hr] Hrs Ha. split; cbn; [done..|].
  intros rs' [= <-]. cbn. split.
  - rewrite lookup_insert_eq. by eexists.
  - apply Forall_app. split; [by apply (Hr rs Hrs)|by constructor].
Qed.

Lemma guilds_sound_remove (k : Z) (w : World) :
  guilds_sound w ->
  guilds_sound (with_self (fun s => set_guilds (delete k (_guilds s)) s) w).
Proof.
  intros [Hk Hadr Hr]. split; cbn; [|done..].
  intros k' a Hka. apply lookup_delete_Some in Hka as [_ Hka]. by apply Hk.
Qed.

Lemma guilds_sound_no_ready (w : World) :
  guilds_sound w -> guilds_sound (with_self (set_ready_state None) w).
Proof. intros [Hk Hadr Hr]. by split. Qed.

Ltac solve_guilds_sound :=
  unfold preserving; intros ?;
  first [ assumption
        | by apply guilds_sound_no_ready
        | eapply guilds_sound_frame; [|eassumption]; solve_guilds_frame ].

Ltac sound_guilds :=
  always_steps (preserving_refl guilds_sound) (preserving_trans guilds_sound)
    solve_guilds_sound.

Lemma sound_guilds_resume (t : Task) : always (preserving guilds_sound) (resume t).
Proof. sound_guilds. Qed.

Lemma sound_guilds_ready (d : ReadyData) : always (preserving guilds_sound) (parse_ready d).
Proof.
  intros w Hs. unfold parse_ready.
  erewrite bind_ok by reflexivity.
  erewrite bind_ok by reflexivity.
  erewrite bind_ok by reflexivity.
  set (w1 := with_self _ _).
  assert (H1 : guilds_sound w1).
  { destruct Hs as [Hk Hadr Hr]. split; cbn.
    - done.
    - intros a Ha. apply Hadr in Ha. lia.
    - intros rs [= <-]. cbn. split; [|constructor].
      rewrite lookup_insert_eq. by eexists. }
  revert H1. generalize w1. clear w Hs w1.
  change (always (preserving guilds_sound)
    (let* u := try_insert_user (ready_user d) in
     modify (with_self (set_user (Some u))) ;;;
     let* rs := ready_state in
     let pending := guilds rs in
     let guilds := ready_guilds d in
     let guilds := pending in
     ready_guilds_loop guilds ;;;
     match ready_private_channels d with
     | None => raise TypeError
     | Some pms =>
         forM_ pms (fun pm =>
           let* channel := private_channel_new pm in _add_private_channel channel) ;;;
         create_task (DelayReady DR_entry)
     end)).
  apply framed_guilds_sound. frames_guilds.
Qed.

Lemma add_guild_from_data_sound (d : GuildData) (w : World) :
  guilds_sound w ->
  guilds_sound (snd (_add_guild_from_data d w)) /\
  forall a, fst (_add_guild_from_data d w) = Ok a ->
            is_Some (guild_objs (snd (_add_guild_from_data d w)) !! a).
Proof.
  intros Hs. destruct (py_int (gd_id d)) as [k|e] eqn:Hid.
  - rewrite (_add_guild_from_data_ok d k w Hid). cbn [fst snd]. split.
    + by apply guild_added_sound.
    + intros a [= <-]. cbn. rewrite lookup_insert_eq. by eexists.
  - assert (H : _add_guild_from_data d w = (Raise e, w)).
    { unfold _add_guild_from_data. apply bind_raise.
      unfold lift, Guild_new, _from_data. by rewrite Hid. }
    rewrite H. by split.
Qed.

Lemma get_create_guild_sound (d : GuildData) (w : World) :
  guilds_sound w ->
  guilds_sound (snd (_get_create_guild d w)) /\
  forall a, fst (_get_create_guild d w) = Ok a ->
            is_Some (guild_objs (snd (_get_create_guild d w)) !! a).
Proof.
  intros Hs. unfold _get_create_guild.
  destruct (gd_unavailable d) as [[|]|] eqn:Hun; try by apply add_guild_from_data_sound.
  erewrite bind_ok by reflexivity.
  destruct (py_dict_get (_guilds (self w)) (gd_id d)) as [a|] eqn:Hfound;
    [|by apply add_guild_from_data_sound].
  destruct (gd_id d) as [|k|] eqn:Hd; try done. cbn in Hfound.
  destruct (sound_keys w Hs k a Hfound) as (g & Ha & Hg).
  erewrite bind_ok by (by apply deref_guild_ok).
  erewrite bind_ok by reflexivity.
  erewrite bind_ok by (apply deref_guild_ok; cbn; apply lookup_insert_eq).
  unfold _from_data. rewrite Hd. cbn [py_int lift].
  erewrite bind_ok by reflexivity.
  erewrite bind_ok by reflexivity.
  cbn [ret fst snd]. split.
  - cbn [guild_objs set_guild_objs]. rewrite insert_insert_eq.
    apply (guild_stored_sound a g _ w Hs Ha). by rewrite Hg.
  - intros a' [= <-]. cbn. rewrite lookup_insert_eq. by eexists.
Qed.

Lemma sound_guilds_guild_create (d : GuildData) :
  always (preserving guilds_sound) (parse_guild_create d).
Proof.
  intros w Hs. unfold parse_guild_create.
  assert (Htail : forall un a w1,
    guilds_sound w1 -> is_Some (guild_objs w1 !! a) ->
    guilds_sound (snd (
      (let* g := deref_guild a in
       if large g then
         let* state := gets (fun w => _ready_state (self w)) in
         match un, state with
         | Some false, Some state =>
             modify (fun w => set_events (<[launch state := false]> (events w)) w) ;;;
             modify (with_self (set_ready_state
               (Some (mkReadyState (launch state) (guilds state ++ [a])))))
         | _, _ => create_task (ChunkAndDispatch a un CD_entry)
         end
       else dispatch_arrival a un) w1))).
  { intros un a w1 H1 [g Ha].
    assert (Hframe : forall w', guilds_frame w1 w' -> guilds_sound w').
    { intros w' Hf. by eapply guilds_sound_frame. }
    erewrite bind_ok by (by apply deref_guild_ok).
    destruct (large g).
    - erewrite bind_ok by reflexivity.
      destruct (_ready_state (self w1)) as [rs|] eqn:Hrs.
      + destruct un as [[|]|]; try (apply Hframe; by repeat split).
        erewrite bind_ok by reflexivity. cbn [modify snd].
        apply (guilds_sound_pending rs a w1 H1 Hrs). by eexists.
      + destruct un as [[|]|]; apply Hframe; by repeat split.
    - destruct un as [[|]|]; apply Hframe; by repeat split. }
  destruct (get_create_guild_sound d w Hs) as [H1 H2].
  destruct (gd_unavailable d) as [[|]|] eqn:Hun; [done|..].
  - unfold bind at 1.
    destruct (_get_create_guild d w) as [[a|e] w1]; cbn [fst snd] in *; [|done].
    apply (Htail (Some false) a w1); [done|by apply H2].
  - unfold bind at 1.
    destruct (_get_create_guild d w) as [[a|e] w1]; cbn [fst snd] in *; [|done].
    apply (Htail None a w1); [done|by apply H2].
Qed.

Lemma sound_guilds_guild_delete (d : GuildDeleteData) :
  always (preserving guilds_sound) (parse_guild_delete d).
Proof.
  intros w Hs. unfold parse_guild_delete.
  destruct (py_int (del_id d)) as [k|e] eqn:Hid; [|done].
  erewrite bind_ok by reflexivity.
  erewrite bind_ok by reflexivity.
  destruct (_guilds (self w) !! k) as [a|] eqn:Hk; [|done].
  destruct (sound_keys w Hs k a Hk) as (g & Ha & Hg).
  destruct (default false (del_unavailable d)).
  - erewrite bind_ok by (by apply deref_guild_ok).
    erewrite bind_ok by reflexivity.
    eapply guilds_sound_frame; [|by apply (guild_stored_sound a g (set_unavailable true g) w)].
    by repeat split.
  - erewrite bind_ok by (by apply deref_guild_ok).
    erewrite bind_ok by reflexivity.
    unfold _remove_guild.
    erewrite bind_ok; [|erewrite bind_ok by (by apply deref_guild_ok); reflexivity].
    eapply guilds_sound_frame;
      [|apply (guilds_sound_remove (guild_id g));
        eapply guilds_sound_frame; [|exact Hs]].
    + by repeat split.
    + by repeat split.
Qed.

Lemma sound_guilds_channel_delete (data : ChannelDeleteData) :
  alwaysE (preserving guilds_sound) (parse_channel_delete data).
Proof.
  pose proof @framed_guilds_sound as Hfr.
  unfold parse_channel_delete.
  apply (alwaysE_bind _ (preserving_trans _)); [apply alwaysE_liftM, Hfr; frames_guilds|].
  intros og. apply (alwaysE_bind _ (preserving_trans _)).
  { apply alwaysE_liftM, Hfr. destruct og; frames_guilds. }
  intros guild. apply (alwaysE_bind _ (preserving_trans _)).
  { apply alwaysE_liftM, Hfr; frames_guilds. }
  intros cid. destruct guild as [guild|].
  - intros e Hs. unfold bindE, liftM, deref_guild. cbn [fst snd world signals].
    destruct (guild_objs (world e) !! guild) as [g|] eqn:Hg; cbn; [|done].
    destruct (_channels g !! cid) as [c|]; cbn; [|done].
    by apply (guild_stored_sound guild g).
  - apply (alwaysE_bind _ (preserving_trans _)); [apply alwaysE_liftM, Hfr; frames_guilds|].
    intros c. apply alwaysE_liftM, Hfr. frames_guilds.
Qed.

Lemma sound_guilds_message_delete (data : MessageDeleteData) :
  alwaysE (preserving guilds_sound) (parse_message_delete data).
Proof.
  pose proof @framed_guilds_sound as Hfr.
  unfold parse_message_delete.
  apply (alwaysE_bind _ (preserving_trans _)); [apply alwaysE_liftM, Hfr; frames_guilds|].
  intros k. apply (alwaysE_bind _ (preserving_trans _)).
  { apply alwaysE_liftM, Hfr; frames_guilds. }
  intros [[i m]|]; [|apply (alwaysE_ret _ (preserving_refl _))].
  apply (alwaysE_bind _ (preserving_trans _)).
  { apply (alwaysE_signal _ (preserving_refl _)). }
  intros _. apply alwaysE_liftM, Hfr, frames_guilds_messages_remove.
Qed.

Lemma sound_guilds_message_delete_bulk (data : BulkDeleteData) :
  alwaysE (preserving guilds_sound) (parse_message_delete_bulk data).
Proof.
  pose proof @framed_guilds_sound as Hfr.
  unfold parse_message_delete_bulk.
  apply (alwaysE_bind _ (preserving_trans _)).
  { apply alwaysE_liftM, Hfr. frames_guilds. }
  intros ids. apply (alwaysE_bind _ (preserving_trans _)).
  { apply alwaysE_liftM, (always_gets _ (preserving_refl _)). }
  intros ms. cbn zeta. apply (alwaysE_forE_ _ (preserving_refl _) (preserving_trans _)).
  intros m. apply (alwaysE_bind _ (preserving_trans _)).
  { apply (alwaysE_signal _ (preserving_refl _)). }
  intros _. apply alwaysE_liftM, Hfr, frames_guilds_messages_remove.
Qed.

Lemma sound_guilds_reaction_remove_all (data : ReactionClearData) :
  alwaysE (preserving guilds_sound) (parse_message_reaction_remove_all data).
Proof.
  pose proof @framed_guilds_sound as Hfr.
  unfold parse_message_reaction_remove_all.
  apply (alwaysE_bind _ (preserving_trans _)); [apply alwaysE_liftM, Hfr; frames_guilds|].
  intros [[i m]|]; [|apply (alwaysE_ret _ (preserving_refl _))].
  cbn zeta. apply (alwaysE_bind _ (preserving_trans _)).
  { apply alwaysE_liftM, Hfr; frames_guilds. }
  intros _. apply (alwaysE_signal _ (preserving_refl _)).
Qed.

(** *** Every event *)

Lemma on_event_sound (ev : Event) (e : Engine) :
  sound (world e) -> sound (world (snd (on_event ev e))).
Proof.
  intros [Hg Hb]. destruct ev; cbn [on_event]; split.
  - by apply (alwaysE_liftM _ _ (sound_guilds_ready d)).
  - by apply (alwaysE_liftM _ _ (framed_buffer_sound _ (frames_buffer_ready d))).
  - done.
  - done.
  - by apply (alwaysE_liftM _ _ (framed_guilds_sound _ (frames_guilds_user_update d))).
  - by apply (alwaysE_liftM _ _ (framed_buffer_sound _ (frames_buffer_user_update d))).
  - by apply (alwaysE_liftM _ _ (sound_guilds_guild_create d)).
  - by apply (alwaysE_liftM _ _ (framed_buffer_sound _ (frames_buffer_guild_create d))).
  - by apply (alwaysE_liftM _ _ (sound_guilds_guild_delete d)).
  - by apply (alwaysE_liftM _ _ (sound_buffer_guild_delete d)).
  - by apply sound_guilds_channel_delete.
  - by apply sound_buffer_channel_delete.
  - by apply (alwaysE_liftM _ _ (framed_guilds_sound _ (frames_guilds_message_create d))).
  - by apply (alwaysE_liftM _ _ (sound_buffer_message_create d)).
  - by apply sound_guilds_message_delete.
  - by apply sound_buffer_message_delete.
  - by apply sound_guilds_message_delete_bulk.
  - by apply sound_buffer_message_delete_bulk.
  - by apply (alwaysE_liftM _ _ (framed_guilds_sound _ (frames_guilds_reaction_add d))).
  - by apply (alwaysE_liftM _ _ (sound_buffer_reaction_add d)).
  - by apply (alwaysE_liftM _ _ (framed_guilds_sound _ (frames_guilds_reaction_remove d))).
  - by apply (alwaysE_liftM _ _ (sound_buffer_reaction_remove d)).
  - by apply sound_guilds_reaction_remove_all.
  - by apply sound_buffer_reaction_remove_all.
  - by apply (alwaysE_liftM _ _
                (framed_guilds_sound _ (frames_guilds_process_listeners argument result))).
  - by apply (alwaysE_liftM _ _
                (framed_buffer_sound _ (frames_buffer_process_listeners argument result))).
  - apply (alwaysE_liftM (preserving guilds_sound) (resume t ;;; ret tt)); [|done].
    apply (always_bind _ (preserving_trans _)); [apply sound_guilds_resume|].
    intros _. apply (always_ret _ (preserving_refl _)).
  - apply (alwaysE_liftM (preserving buffer_sound) (resume t ;;; ret tt)); [|done].
    apply (always_bind _ (preserving_trans _));
      [apply framed_buffer_sound, frames_buffer_resume|].
    intros _. apply (always_ret _ (preserving_refl _)).
Qed.

Lemma init_sound (o : option Z) : sound (init_world o).
Proof.
  split; split; cbn; try done; try lia; try (by constructor).
  all: intros a [g Hg]; by rewrite lookup_empty in Hg.
Qed.

Lemma run_events_sound (evs : list Event) (e : Engine) :
  sound (world e) -> sound (world (run_events evs e)).
Proof.
  revert e. induction evs as [|ev evs IH]; intros e Hs; [done|].
  cbn [run_events fold_left]. apply IH. by apply on_event_sound.
Qed.

Lemma frames_capacity_on_event (ev : Event) : alwaysE capacity_frame (on_event ev).
Proof.
  assert (Hrm : forall m, alwaysE capacity_frame
            (signal (ev_message_delete m) ;;+ liftM (messages_remove m))).
  { intros m. apply (alwaysE_bind _ capacity_frame_trans).
    - apply (alwaysE_signal _ capacity_frame_refl).
    - intros _. apply alwaysE_liftM. frames_capacity. }
  destruct ev; cbn [on_event]; try (apply alwaysE_liftM; frames_capacity).
  - apply (alwaysE_signal _ capacity_frame_refl).
  - unfold parse_channel_delete.
    apply (alwaysE_bind _ capacity_frame_trans); [apply alwaysE_liftM; frames_capacity|].
    intros og. apply (alwaysE_bind _ capacity_frame_trans).
    { apply alwaysE_liftM. destruct og; frames_capacity. }
    intros guild. apply (alwaysE_bind _ capacity_frame_trans).
    { apply alwaysE_liftM; frames_capacity. }
    intros cid. destruct guild as [guild|].
    + apply (alwaysE_bind _ capacity_frame_trans); [apply alwaysE_liftM; frames_capacity|].
      intros g. destruct (_channels g !! cid); [|apply (alwaysE_ret _ capacity_frame_refl)].
      apply (alwaysE_bind _ capacity_frame_trans); [apply alwaysE_liftM; frames_capacity|].
      intros _. apply (alwaysE_signal _ capacity_frame_refl).
    + apply (alwaysE_bind _ capacity_frame_trans); [apply alwaysE_liftM; frames_capacity|].
      intros c. apply alwaysE_liftM. frames_capacity.
  - unfold parse_message_delete.
    apply (alwaysE_bind _ capacity_frame_trans); [apply alwaysE_liftM; frames_capacity|].
    intros k. apply (alwaysE_bind _ capacity_frame_trans).
    { apply alwaysE_liftM; frames_capacity. }
    intros [[i m]|]; [apply Hrm|apply (alwaysE_ret _ capacity_frame_refl)].
  - unfold parse_message_delete_bulk.
    apply (alwaysE_bind _ capacity_frame_trans); [apply alwaysE_liftM; frames_capacity|].
    intros ids. apply (alwaysE_bind _ capacity_frame_trans).
    { apply alwaysE_liftM; frames_capacity. }
    intros ms. cbn zeta. by apply (alwaysE_forE_ _ capacity_frame_refl capacity_frame_trans).
  - unfold parse_message_reaction_remove_all.
    apply (alwaysE_bind _ capacity_frame_trans); [apply alwaysE_liftM; frames_capacity|].
    intros [[i m]|]; [|apply (alwaysE_ret _ capacity_frame_refl)].
    cbn zeta. apply (alwaysE_bind _ capacity_frame_trans).
    { apply alwaysE_liftM; frames_capacity. }
    intros _. apply (alwaysE_signal _ capacity_frame_refl).
Qed.

Lemma run_events_capacity (evs : list Event) (e : Engine) :
  max_messages (self (world (run_events evs e))) = max_messages (self (world e)).
Proof.
  revert e. induction evs as [|ev evs IH]; intros e; [done|].
  cbn [run_events fold_left]. fold (run_events evs (snd (on_event ev e))).
  rewrite IH. by destruct (frames_capacity_on_event ev e) as [-> _].
Qed.

(** Whatever events a new connection handles, in whatever order, and
    whichever handlers raise on the way: the buffer holds at most
    [max_messages] messages, and [max_messages] is still the requested
    capacity (5000 by default), raised to 100 when it was lower. *)
Theorem reachable_buffer_bounded (o : option Z) (evs : list Event) :
  let w := world (run_events evs (init_engine o)) in
  Z.of_nat (length (messages (self w))) <= max_messages (self w) /\
  max_messages (self w) = Z.max (default 5000 o) 100.
Proof.
  cbn zeta. split.
  - by destruct (run_events_sound evs (init_engine o) (init_sound o)) as [_ []].
  - by rewrite run_events_capacity.
Qed.

(** Whatever events a new connection handles: every key of the guild map
    leads to a guild object of the store whose id is the key, so no guild is
    cached under an id that is not its own, and every object of the store
    has an address that was allocated. *)
Theorem reachable_guild_cache_keyed (o : option Z) (evs : list Event) :
  let w := world (run_events evs (init_engine o)) in
  map_Forall (fun k a => exists g, guild_objs w !! a = Some g /\ guild_id g = k)
    (_guilds (self w)) /\
  guilds_stored w /\
  map_Forall (fun a _ => (a < next_addr w)%nat) (guild_objs w).
Proof.
  cbn zeta.
  destruct (run_events_sound evs (init_engine o) (init_sound o)) as [[Hk Hadr _] _].
  split; [|split].
  - intros k a Hka. by apply Hk.
  - apply guilds_stored_lookup. intros k a Hka.
    destruct (Hk k a Hka) as (g & Hg & _). by eexists.
  - intros a g Hg. apply Hadr. by eexists.
Qed.

(** Whatever events a new connection handles: every reaction row of every
    message of the buffer has a count of at least 1, and before the local
    user is known no message has a row. *)
Theorem reachable_counts_positive (o : option Z) (evs : list Event) :
  let w := world (run_events evs (init_engine o)) in
  Forall (fun m => Forall (fun r => 1 <= count r) (reactions m)) (messages (self w)) /\
  (user (self w) = None -> Forall (fun m => reactions m = []) (messages (self w))).
Proof.
  cbn zeta.
  by destruct (run_events_sound evs (init_engine o) (init_sound o)) as [_ [_ _ Hrows Hnu]].
Qed.






(** ** The further properties on the examples *)

Lemma process_listeners_no_match_witness :
  let w' := snd (process_listeners chunk (Some guild_5) 12 w_listeners) in
  map future (_listeners (self w_listeners)) = [0; 1; 2; 3]%nat /\
  map future (_listeners (self w')) = [1; 2; 3]%nat /\
  futures w' = futures w_listeners.
Proof.
  cbn zeta. rewrite (process_listeners_no_match chunk (Some guild_5) 12 w_listeners).
  - split; [vm_compute; reflexivity|]. split; [vm_compute; reflexivity|]. reflexivity.
  - change (_listeners (self w_listeners))
      with [mkListener chunk 0%nat (chunk_predicate 7);
            mkListener chunk 1%nat (chunk_predicate 8);
            mkListener chunk 2%nat (chunk_predicate 9);
            mkListener chunk 3%nat (chunk_predicate 9)].
    constructor; [split; [eexists; reflexivity|left; reflexivity]|].
    repeat (constructor; [split; [eexists; reflexivity|right; reflexivity]|]).
    constructor.
Defined.

Lemma process_listeners_done_future_witness :
  process_listeners chunk (Some guild_9) 1000 w_resolved_outside =
  (Raise InvalidStateError, w_resolved_outside).
Proof.
  apply (process_listeners_done_future w_resolved_outside (Some guild_9) 1000
           [mkListener chunk 0%nat (chunk_predicate 7);
            mkListener chunk 1%nat (chunk_predicate 8)]
           [mkListener chunk 3%nat (chunk_predicate 9)]
           (mkListener chunk 2%nat (chunk_predicate 9)) (Finished 0)).
  - reflexivity.
  - constructor; [split; [eexists; reflexivity|left; reflexivity]|].
    constructor; [split; [eexists; reflexivity|right; reflexivity]|].
    constructor.
  - reflexivity.
  - discriminate.
  - discriminate.
  - reflexivity.
Defined.

Lemma process_listeners_all_raise_witness :
  let w' := snd (process_listeners chunk None 1000 w_listeners) in
  _listeners (self w') = [] /\
  (fun f => futures w' !! f) <$> [0; 1; 2; 3]%nat =
  [Some Cancelled; Some (Failed AttributeError); Some (Failed AttributeError);
   Some (Failed AttributeError)].
Proof.
  cbn zeta. rewrite (process_listeners_all_raise AttributeError None 1000 w_listeners).
  - split; vm_compute; reflexivity.
  - apply (bool_decide_unpack _). vm_compute. exact I.
  - change (_listeners (self w_listeners))
      with [mkListener chunk 0%nat (chunk_predicate 7);
            mkListener chunk 1%nat (chunk_predicate 8);
            mkListener chunk 2%nat (chunk_predicate 9);
            mkListener chunk 3%nat (chunk_predicate 9)].
    constructor; [right; reflexivity|].
    repeat (constructor; [left; reflexivity|]). constructor.
  - change (_listeners (self w_listeners))
      with [mkListener chunk 0%nat (chunk_predicate 7);
            mkListener chunk 1%nat (chunk_predicate 8);
            mkListener chunk 2%nat (chunk_predicate 9);
            mkListener chunk 3%nat (chunk_predicate 9)].
    repeat constructor.
Defined.

Lemma chunks_needed_count_witness :
  exists fs w',
    chunks_needed 2%nat w_pending = (Ok fs, w') /\ length fs = 3%nat.
Proof.
  destruct (chunks_needed_count w_pending 2%nat (mkGuild 1 "large" false true 2500 ∅ ∅))
    as (fs & w' & Hrun & _ & _ & _ & _ & _ & Hn);
    [reflexivity|unfold max_exact_count; cbn; lia|].
  exists fs, w'. split; [exact Hrun|]. cbn in Hn. lia.
Defined.



Lemma delay_ready_any_pending_witness :
  exists w',
    run_task 8 (DelayReady DR_entry) w_many_pending = (Ok None, w') /\
    length (_listeners (self w')) = 400%nat /\
    map length (splits75 (seq 1 200)) = [75; 75; 50]%nat.
Proof.
  assert (Hst : pending_exact w_many_pending (seq 1 200))
    by (apply pending_exact_check; vm_compute; reflexivity).
  assert (Hall : guilds_stored w_many_pending) by constructor.
  destruct (delay_ready_any_pending w_many_pending (mkReadyState 0%nat (seq 1 200)) true
              eq_refl eq_refl Hst Hall)
    as (w' & ids & Hrun & _ & Hls & _).
  exists w'. split; [exact Hrun|]. split; [|vm_compute; reflexivity].
  rewrite Hls. vm_compute. reflexivity.
Defined.

Lemma guild_unavailable_round_trip_witness :
  let w1 := handle parse_guild_delete (mkGuildDeleteData (PyStr "5") (Some true)) w_small in
  let w2 := handle parse_guild_create ex_small_available w1 in
  guild_objs w1 = {[0%nat := mkGuild 5 "small" true false 12 ∅ ∅]} /\
  guild_objs w2 = {[0%nat := mkGuild 5 "small again" false false 12 ∅ ∅]} /\
  io_log w2 =
    [Dispatch (ev_guild_join 0%nat); Dispatch (ev_guild_unavailable 0%nat);
     Dispatch (ev_guild_available 0%nat)].
Proof.
  destruct (guild_unavailable_round_trip w_small
              (mkGuildDeleteData (PyStr "5") (Some true)) ex_small_available 5 0%nat
              (mkGuild 5 "small" false false 12 ∅ ∅))
    as (_ & H1 & _ & _ & H2 & _ & _ & _ & H3); try reflexivity.
  cbn zeta. rewrite H1, H2, H3. repeat split; vm_compute; reflexivity.
Defined.


Lemma user_update_bypasses_cache_witness :
  let d := mkUserData (PyInt 42) "renamed" in
  let w1 := handle parse_user_update d w_ready in
  user (self w1) = Some (mkUser 2%nat 42 "renamed") /\
  try_insert_user d w1 = (Ok (mkUser 1%nat 42 "me"), w1).
Proof.
  destruct (user_update_bypasses_cache w_ready (mkUserData (PyInt 42) "renamed") 42
              (mkUser 1%nat 42 "me"))
    as (H1 & _ & H2 & _); [reflexivity|reflexivity|vm_compute; lia|].
  cbn zeta. by rewrite H1, H2.
Defined.

Lemma get_channel_guild_first_witness :
  exists r,
    get_channel (PyInt 20) w_collision = (Ok r, w_collision) /\
    r = Some (mkChannel 20 text (Some 0%nat) []) /\
    _private_channels (self w_collision) !! 20 = Some (mkChannel 20 group None []).
Proof.
  assert (Hst : guilds_stored w_collision)
    by (apply (bool_decide_unpack _); vm_compute; exact I).
  destruct (get_channel_guild_first (PyInt 20) w_collision Hst) as (r & Hrun & _).
  exists r. split; [exact Hrun|]. split; [|vm_compute; reflexivity].
  assert (H : fst (get_channel (PyInt 20) w_collision) =
              Ok (Some (mkChannel 20 text (Some 0%nat) [])))
    by (vm_compute; reflexivity).
  rewrite Hrun in H. by injection H.
Defined.

Lemma reaction_message_id_not_int_witness :
  let d := mkReactionData (PyStr "10") (PyInt 42) (PyInt 20) (mkEmojiData PyNone "+1") in
  map message_id (messages (self w_message)) = [10] /\
  parse_message_reaction_add d w_message = (Ok tt, w_message).
Proof.
  cbn zeta. split; [vm_compute; reflexivity|].
  apply (reaction_message_id_not_int
           (mkReactionData (PyStr "10") (PyInt 42) (PyInt 20) (mkEmojiData PyNone "+1"))
           w_message).
  intros z. discriminate.
Defined.

Lemma message_delete_oldest_witness :
  let e := snd (parse_message_delete (mkMessageDeleteData (PyStr "10")) e_duplicates) in
  map content (messages (self (world e_duplicates))) = ["a"; "b"; "c"]%string /\
  map content (messages (self (world e))) = ["b"; "c"]%string /\
  signals e = [ev_message_delete (mkMessage 10 None "a" [])].
Proof.
  cbn zeta.
  rewrite (message_delete_oldest (mkMessageDeleteData (PyStr "10")) e_duplicates 10 []
             [mkMessage 11 None "b" []; mkMessage 10 None "c" []]
             (mkMessage 10 None "a" [])).
  - repeat split; vm_compute; reflexivity.
  - reflexivity.
  - vm_compute. reflexivity.
  - constructor.
  - reflexivity.
Defined.

Lemma message_create_delete_round_trip_witness :
  let e := run_events [MESSAGE_CREATE ex_message;
                       MESSAGE_DELETE (mkMessageDeleteData (PyStr "10"))] (init_engine None) in
  messages (self (world e)) = [] /\
  signals e = [ev_message_delete (mkMessage 10 None "hi" [])].
Proof.
  destruct (message_create_delete_round_trip ex_message (mkMessageDeleteData (PyStr "10"))
              (init_engine None) 10 (mkMessage 10 None "hi" []))
    as (H1 & _ & H2); try reflexivity.
  - constructor.
  - vm_compute. congruence.
  - cbn zeta. by rewrite H1, H2.
Defined.

Lemma message_delete_bulk_filter_witness :
  let e := snd (parse_message_delete_bulk
                  (mkBulkDeleteData (Some [PyStr "10"; PyInt 12])) e_duplicates) in
  map content (messages (self (world e))) = ["b"]%string /\
  signals e =
    [ev_message_delete (mkMessage 10 None "a" []);
     ev_message_delete (mkMessage 10 None "c" [])].
Proof.
  cbn zeta.
  rewrite (message_delete_bulk_filter (mkBulkDeleteData (Some [PyStr "10"; PyInt 12]))
             e_duplicates [10; 12]).
  - split; vm_compute; reflexivity.
  - repeat constructor.
Defined.

Lemma channel_delete_unknown_raises_witness :
  parse_channel_delete (mkChannelDeleteData None (PyStr "7")) (init_engine None) =
  (Raise AttributeError, init_engine None).
Proof.
  by apply (channel_delete_unknown_raises (mkChannelDeleteData None (PyStr "7"))
              (init_engine None) None 7).
Defined.

Lemma channel_delete_private_silent_witness :
  let e := snd (parse_channel_delete (mkChannelDeleteData (Some PyNone) (PyInt 30))
                  (mkEngine w_collision [])) in
  _private_channels (self (world e)) = {[20 := mkChannel 20 group None []]} /\
  signals e = [].
Proof.
  cbn zeta.
  rewrite (channel_delete_private_silent (mkChannelDeleteData (Some PyNone) (PyInt 30))
             (mkEngine w_collision []) None 30 (mkChannel 30 group None [])).
  - split; vm_compute; reflexivity.
  - reflexivity.
  - reflexivity.
  - reflexivity.
  - vm_compute. reflexivity.
  - discriminate.
Defined.

Lemma channel_delete_guild_channel_witness :
  let e := snd (parse_channel_delete (mkChannelDeleteData (Some (PyStr "1")) (PyStr "20"))
                  (mkEngine w_collision [])) in
  (g ← guild_objs (world e) !! 0%nat; Some (_channels g)) = Some ∅ /\
  _private_channels (self (world e)) !! 20 = Some (mkChannel 20 group None []) /\
  signals e = [ev_channel_delete (mkChannel 20 text (Some 0%nat) [])].
Proof.
  cbn zeta.
  rewrite (channel_delete_guild_channel (mkChannelDeleteData (Some (PyStr "1")) (PyStr "20"))
             (mkEngine w_collision []) 1 20 0%nat
             (mkGuild 1 "one" false false 3 {[20 := mkChannel 20 text (Some 0%nat) []]} ∅)).
  - repeat split; vm_compute; reflexivity.
  - reflexivity.
  - vm_compute. reflexivity.
  - vm_compute. reflexivity.
  - reflexivity.
Defined.

